(** * Event deserializers of kloppy (Stats Perform MA3 and UEFA feeds)

    A shallow embedding of
      - kloppy/infra/serializers/event/statsperform/deserializer.py
      - kloppy/infra/serializers/event/uefa/deserializer.py
    and the properties of the normalisation pipeline: period tracking,
    possession tracking, qualifier chains, the event-type dispatcher and
    the relative timestamps.

    Conventions of the embedding
      - a Python exception is a value of [Exception]; a computation that
        may raise has type [Exc A];
      - [datetime] values are integers (microseconds, UTC) and a
        [timedelta] is their difference;
      - a Python float is an IEEE 754 binary64 number, a primitive [float]
        of Rocq, whose arithmetic rounds as Python's does;
      - a dict with integer keys is a [gmap Z _];
      - a Python object that is mutated while other objects hold a
        reference to it (a [Period]) lives in a store (the [periods] list)
        and is referred to by its position in that store. *)

From Stdlib Require Import ZArith Ascii String List Lia.
From Corelib Require Import PrimFloat.
From stdpp Require Import base option list gmap strings.

Open Scope string_scope.
Open Scope list_scope.
Open Scope Z_scope.

(** ** Exceptions and the error monad *)

Inductive PyKey :=
| KInt (z : Z)
| KStr (s : string).

Inductive Exception :=
| DeserializationError (msg : string)
| KeyError (key : PyKey)
| IndexError
| ValueError (msg : string)
| TypeError
| AttributeError.

Inductive Exc (A : Type) :=
| Return (a : A)
| Raise (e : Exception).

Arguments Return {A} a.
Arguments Raise {A} e.

#[global] Instance Exc_ret : MRet Exc := fun A a => Return a.
#[global] Instance Exc_bind : MBind Exc := fun A B f m =>
  match m with
  | Return a => f a
  | Raise e => Raise e
  end.

Definition raised {A} (m : Exc A) : Prop := exists e, m = Raise e.

(** ** kloppy.domain *)

Module Domain.

(** The classes of [kloppy.domain] are not part of the sources at hand;
    the types of this module are modelled from the data model of the
    specification (section 3) and carry the fields the deserializers read
    and write. *)

(** [datetime.datetime], in microseconds (UTC), and [datetime.timedelta]. *)
Definition datetime := Z.
Definition timedelta := Z.

(** Modelled from the spec: a player, known by its identifier. *)
Record Player := { player_id : string }.

(** Modelled from the spec: a team, with its identifier and its players. *)
Record Team := { team_id : string; players : list Player }.

(** Modelled from the spec: a period has an identifier and a start and an
    end timestamp, each null until it is set. *)
Module Period.
Record t := {
  id : Z;
  start_timestamp : option datetime;
  end_timestamp : option datetime
}.
Definition set_start (p : t) (ts : datetime) : t :=
  {| id := id p; start_timestamp := Some ts; end_timestamp := end_timestamp p |}.
Definition set_end (p : t) (ts : datetime) : t :=
  {| id := id p; start_timestamp := start_timestamp p; end_timestamp := Some ts |}.
End Period.

(** Modelled from the spec: a point of the pitch; its coordinates are
    Python floats. *)
Record Point := { x : float; y : float }.

Inductive BallState := ALIVE | DEAD.

Inductive SetPieceType :=
| CORNER_KICK | FREE_KICK | PENALTY | THROW_IN | KICK_OFF | GOAL_KICK.

Module BodyPart.
Inductive t := HEAD | LEFT_FOOT | RIGHT_FOOT | OTHER.
End BodyPart.

Module PassType.
Inductive t :=
| CROSS | LONG_BALL | CHIPPED_PASS | THROUGH_BALL | LAUNCH | FLICK_ON
| ASSIST | ASSIST_2ND.
End PassType.

Module CardType.
Inductive t := FIRST_YELLOW | SECOND_YELLOW | RED.
End CardType.

(** Modelled from the spec: a qualifier is a tagged value of one of four
    categories. *)
Inductive Qualifier :=
| SetPieceQualifier (value : SetPieceType)
| BodyPartQualifier (value : BodyPart.t)
| PassQualifier (value : PassType.t)
| CardQualifier (value : CardType.t).

Module PassResult.
Inductive t := COMPLETE | INCOMPLETE | OFFSIDE.
End PassResult.

Module TakeOnResult.
Inductive t := COMPLETE | INCOMPLETE.
End TakeOnResult.

Module ShotResult.
Inductive t := GOAL | OWN_GOAL | OFF_TARGET.
End ShotResult.

Inductive Result :=
| OfPass (r : PassResult.t)
| OfTakeOn (r : TakeOnResult.t)
| OfShot (r : ShotResult.t).

Inductive FormationType :=
| FOUR_FOUR_TWO | FOUR_ONE_TWO_ONE_TWO | FOUR_THREE_THREE | FOUR_FIVE_ONE
| FOUR_FOUR_ONE_ONE | FOUR_ONE_FOUR_ONE | FOUR_TWO_THREE_ONE
| FOUR_THREE_TWO_ONE | FIVE_THREE_TWO | FIVE_FOUR_ONE | THREE_FIVE_TWO
| THREE_FOUR_THREE | THREE_ONE_THREE_ONE_TWO | FOUR_TWO_TWO_TWO
| THREE_FIVE_ONE_ONE | THREE_FOUR_TWO_ONE | THREE_FOUR_ONE_TWO
| THREE_ONE_FOUR_TWO | THREE_ONE_TWO_ONE_THREE | FOUR_ONE_THREE_TWO
| FOUR_TWO_FOUR_ZERO | FOUR_THREE_ONE_TWO | THREE_TWO_FOUR_ONE
| THREE_THREE_THREE_ONE.

(** Modelled from the spec: [n == q] for an integer [n] and a
    [Qualifier] object [q].  The [Qualifier] classes are declared in
    [kloppy.domain]; the specification describes a qualifier as a tagged
    value drawn from a closed set of categories, so no qualifier object is
    equal to an integer raw code. *)
Definition int_eq_qualifier (n : Z) (q : Qualifier) : bool := false.

(** Python's [n in qualifiers]: [n] is compared with every element. *)
Definition int_in_qualifiers (n : Z) (qs : list Qualifier) : bool :=
  existsb (int_eq_qualifier n) qs.

(** The keyword arguments every [event_factory.build_*] call receives
    ([generic_event_kwargs]).  [period] is a reference to a period object:
    its position in the [periods] list of the run. *)
Record GenericEventKwargs (Raw : Type) := {
  period : nat;
  timestamp : timedelta;
  ball_owning_team : option Team;
  ball_state : BallState;
  event_id : string;
  team : option Team;
  player : option Player;
  coordinates : option Point;
  raw_event : Raw
}.

Arguments period {Raw} _.
Arguments timestamp {Raw} _.
Arguments ball_owning_team {Raw} _.
Arguments ball_state {Raw} _.
Arguments event_id {Raw} _.
Arguments team {Raw} _.
Arguments player {Raw} _.
Arguments coordinates {Raw} _.
Arguments raw_event {Raw} _.

Definition set_timestamp {Raw} (g : GenericEventKwargs Raw) (ts : timedelta) :=
  {| period := period g; timestamp := ts;
     ball_owning_team := ball_owning_team g; ball_state := ball_state g;
     event_id := event_id g; team := team g; player := player g;
     coordinates := coordinates g; raw_event := raw_event g |}.

Definition set_ball_state {Raw} (g : GenericEventKwargs Raw) (b : BallState) :=
  {| period := period g; timestamp := timestamp g;
     ball_owning_team := ball_owning_team g; ball_state := b;
     event_id := event_id g; team := team g; player := player g;
     coordinates := coordinates g; raw_event := raw_event g |}.

Definition set_coordinates {Raw} (g : GenericEventKwargs Raw) (c : option Point) :=
  {| period := period g; timestamp := timestamp g;
     ball_owning_team := ball_owning_team g; ball_state := ball_state g;
     event_id := event_id g; team := team g; player := player g;
     coordinates := c; raw_event := raw_event g |}.

Inductive EventKind :=
| PASS | TAKE_ON | SHOT | RECOVERY | FOUL_COMMITTED | BALL_OUT
| FORMATION_CHANGE | CARD | GENERIC.

(** Modelled from the spec: the event factory is an external collaborator
    with one construction operation per canonical event kind; a built
    event records which operation was called and the field set it was
    given.  A keyword that a call does not pass, or passes as [None], is
    [None] here ([receiver_player] and [receive_timestamp] are always
    [None] in the callers and are left out). *)
Record Event (Raw : Type) := {
  kind : EventKind;
  generic : GenericEventKwargs Raw;
  result : option Result;
  qualifiers : option (list Qualifier);
  receiver_coordinates : option Point;
  card_type : option CardType.t;
  formation_type : option FormationType;
  event_name : option string
}.

Arguments kind {Raw} _.
Arguments generic {Raw} _.
Arguments result {Raw} _.
Arguments qualifiers {Raw} _.
Arguments receiver_coordinates {Raw} _.
Arguments card_type {Raw} _.
Arguments formation_type {Raw} _.
Arguments event_name {Raw} _.

Record EventDataset (Raw : Type) := {
  teams : list Team;
  periods : list Period.t;
  records : list (Event Raw)
}.

Arguments teams {Raw} _.
Arguments periods {Raw} _.
Arguments records {Raw} _.

(** The construction operations of the event factory, with the keywords
    the deserializers pass. *)
Section EventFactory.
Context {Raw : Type}.

Definition build_pass (g : GenericEventKwargs Raw) (result : PassResult.t)
    (receiver_coordinates : Point) (qualifiers : list Qualifier) : Event Raw :=
  {| kind := PASS; generic := g; result := Some (OfPass result);
     qualifiers := Some qualifiers;
     receiver_coordinates := Some receiver_coordinates;
     card_type := None; formation_type := None; event_name := None |}.

Definition build_take_on (g : GenericEventKwargs Raw) (result : TakeOnResult.t) : Event Raw :=
  {| kind := TAKE_ON; generic := g; result := Some (OfTakeOn result);
     qualifiers := None; receiver_coordinates := None;
     card_type := None; formation_type := None; event_name := None |}.

Definition build_shot (g : GenericEventKwargs Raw) (result : option ShotResult.t)
    (qualifiers : option (list Qualifier)) : Event Raw :=
  {| kind := SHOT; generic := g; result := OfShot <$> result;
     qualifiers := qualifiers; receiver_coordinates := None;
     card_type := None; formation_type := None; event_name := None |}.

Definition build_recovery (g : GenericEventKwargs Raw) : Event Raw :=
  {| kind := RECOVERY; generic := g; result := None; qualifiers := None;
     receiver_coordinates := None; card_type := None;
     formation_type := None; event_name := None |}.

Definition build_foul_committed (g : GenericEventKwargs Raw) : Event Raw :=
  {| kind := FOUL_COMMITTED; generic := g; result := None; qualifiers := None;
     receiver_coordinates := None; card_type := None;
     formation_type := None; event_name := None |}.

Definition build_ball_out (g : GenericEventKwargs Raw) : Event Raw :=
  {| kind := BALL_OUT; generic := g; result := None; qualifiers := None;
     receiver_coordinates := None; card_type := None;
     formation_type := None; event_name := None |}.

Definition build_formation_change (g : GenericEventKwargs Raw)
    (formation_type : FormationType) : Event Raw :=
  {| kind := FORMATION_CHANGE; generic := g; result := None; qualifiers := None;
     receiver_coordinates := None; card_type := None;
     formation_type := Some formation_type; event_name := None |}.

Definition build_card (g : GenericEventKwargs Raw) (qualifiers : list Qualifier)
    (card_type : option CardType.t) : Event Raw :=
  {| kind := CARD; generic := g; result := None; qualifiers := Some qualifiers;
     receiver_coordinates := None; card_type := card_type;
     formation_type := None; event_name := None |}.

Definition build_generic (g : GenericEventKwargs Raw) (event_name : string) : Event Raw :=
  {| kind := GENERIC; generic := g; result := None; qualifiers := None;
     receiver_coordinates := None; card_type := None;
     formation_type := None; event_name := Some event_name |}.

End EventFactory.

End Domain.

(** ** Helpers shared by both deserializers *)

Import Domain.

(** [dict.get]-style lookup in a dict literal written as an association
    list (keys of a literal are distinct). *)
Fixpoint assoc {V} (k : Z) (d : list (Z * V)) : option V :=
  match d with
  | [] => None
  | (k', v) :: d' => if k =? k' then Some v else assoc k d'
  end.

(** [s.replace(" ", "T")] *)
Fixpoint replace_space_T (s : string) : string :=
  match s with
  | EmptyString => EmptyString
  | String c s' =>
      String (if Ascii.eqb c " "%char then "T"%char else c) (replace_space_T s')
  end.

(** The loop of both deserializers: a left-to-right fold of a body that
    may raise. *)
Fixpoint for_each {S R} (body : S -> R -> Exc S) (st : S) (rs : list R) : Exc S :=
  match rs with
  | [] => Return st
  | r :: rs' => st' ← body st r; for_each body st' rs'
  end.

(** ** statsperform/deserializer.py *)

Module StatsPerform.

Definition EVENT_TYPE_START_PERIOD := 32.
Definition EVENT_TYPE_END_PERIOD := 30.

Definition EVENT_TYPE_PASS := 1.
Definition EVENT_TYPE_OFFSIDE_PASS := 2.
Definition EVENT_TYPE_TAKE_ON := 3.
Definition EVENT_TYPE_SHOT_MISS := 13.
Definition EVENT_TYPE_SHOT_POST := 14.
Definition EVENT_TYPE_SHOT_SAVED := 15.
Definition EVENT_TYPE_SHOT_GOAL := 16.
Definition EVENT_TYPE_BALL_OUT := 5.
Definition EVENT_TYPE_CORNER_AWARDED := 6.
Definition EVENT_TYPE_FOUL_COMMITTED := 4.
Definition EVENT_TYPE_CARD := 17.
Definition EVENT_TYPE_RECOVERY := 49.
Definition EVENT_TYPE_FORMATION_CHANGE := 40.

Definition BALL_OUT_EVENTS : list Z :=
  [EVENT_TYPE_BALL_OUT; EVENT_TYPE_CORNER_AWARDED].

Definition BALL_OWNING_EVENTS : list Z :=
  [EVENT_TYPE_PASS; EVENT_TYPE_OFFSIDE_PASS; EVENT_TYPE_TAKE_ON;
   EVENT_TYPE_SHOT_MISS; EVENT_TYPE_SHOT_POST; EVENT_TYPE_SHOT_SAVED;
   EVENT_TYPE_SHOT_GOAL; EVENT_TYPE_RECOVERY].

(** The tuple of lines 588-593. *)
Definition SHOT_EVENTS : list Z :=
  [EVENT_TYPE_SHOT_MISS; EVENT_TYPE_SHOT_POST; EVENT_TYPE_SHOT_SAVED;
   EVENT_TYPE_SHOT_GOAL].

Definition EVENT_QUALIFIER_GOAL_KICK := 124.
Definition EVENT_QUALIFIER_FREE_KICK := 5.
Definition EVENT_QUALIFIER_THROW_IN := 107.
Definition EVENT_QUALIFIER_CORNER_KICK := 6.
Definition EVENT_QUALIFIER_PENALTY := 9.
Definition EVENT_QUALIFIER_KICK_OFF := 279.
Definition EVENT_QUALIFIER_FREE_KICK_SHOT := 26.

Definition EVENT_QUALIFIER_HEAD_PASS := 3.
Definition EVENT_QUALIFIER_HEAD := 15.
Definition EVENT_QUALIFIER_LEFT_FOOT := 72.
Definition EVENT_QUALIFIER_RIGHT_FOOT := 20.
Definition EVENT_QUALIFIER_OTHER_BODYPART := 21.

Definition EVENT_QUALIFIER_LONG_BALL := 1.
Definition EVENT_QUALIFIER_CROSS := 2.
Definition EVENT_QUALIFIER_THROUGH_BALL := 4.
Definition EVENT_QUALIFIER_CHIPPED_BALL := 155.
Definition EVENT_QUALIFIER_LAUNCH := 157.
Definition EVENT_QUALIFIER_FLICK_ON := 168.
Definition EVENT_QUALIFIER_SWITCH_OF_PLAY := 196.
Definition EVENT_QUALIFIER_ASSIST := 210.
Definition EVENT_QUALIFIER_ASSIST_2ND := 218.

Definition EVENT_QUALIFIER_FIRST_YELLOW_CARD := 31.
Definition EVENT_QUALIFIER_SECOND_YELLOW_CARD := 32.
Definition EVENT_QUALIFIER_RED_CARD := 33.

Definition EVENT_QUALIFIER_TEAM_FORMATION := 130.

Definition event_type_names : list (Z * string) :=
  [ (1, "pass"); (2, "offside pass"); (3, "take on"); (4, "foul");
    (5, "out"); (6, "corner awarded"); (7, "tackle"); (8, "interception");
    (9, "turnover"); (10, "save"); (11, "claim"); (12, "clearance");
    (13, "miss"); (14, "post"); (15, "attempt saved"); (16, "goal");
    (17, "card"); (18, "player off"); (19, "player on");
    (20, "player retired"); (21, "player returns");
    (22, "player becomes goalkeeper"); (23, "goalkeeper becomes player");
    (24, "condition change"); (25, "official change"); (26, "unknown26");
    (27, "start delay"); (28, "end delay"); (29, "unknown29"); (30, "end");
    (31, "unknown31"); (32, "start"); (33, "unknown33"); (34, "team set up");
    (35, "player changed position"); (36, "player changed jersey number");
    (37, "collection end"); (38, "temp_goal"); (39, "temp_attempt");
    (40, "formation change"); (41, "punch"); (42, "good skill");
    (43, "deleted event"); (44, "aerial"); (45, "challenge");
    (46, "unknown46"); (47, "rescinded card"); (48, "unknown46");
    (49, "ball recovery"); (50, "dispossessed"); (51, "error");
    (52, "keeper pick-up"); (53, "cross not claimed"); (54, "smother");
    (55, "offside provoked"); (56, "shield ball opp");
    (57, "foul throw in"); (58, "penalty faced"); (59, "keeper sweeper");
    (60, "chance missed"); (61, "ball touch"); (62, "unknown62");
    (63, "temp_save"); (64, "resume"); (65, "contentious referee decision");
    (66, "possession data"); (67, "50/50"); (68, "referee drop ball");
    (69, "failed to block"); (70, "injury time announcement");
    (71, "coach setup"); (72, "caught offside"); (73, "other ball contact");
    (74, "blocked pass"); (75, "delayed start"); (76, "early end");
    (77, "player off pitch") ].

Definition formations_num : list (Z * FormationType) :=
  [ (2, FOUR_FOUR_TWO); (3, FOUR_ONE_TWO_ONE_TWO); (4, FOUR_THREE_THREE);
    (5, FOUR_FIVE_ONE); (6, FOUR_FOUR_ONE_ONE); (7, FOUR_ONE_FOUR_ONE);
    (8, FOUR_TWO_THREE_ONE); (9, FOUR_THREE_TWO_ONE); (10, FIVE_THREE_TWO);
    (11, FIVE_FOUR_ONE); (12, THREE_FIVE_TWO); (13, THREE_FOUR_THREE);
    (14, THREE_ONE_THREE_ONE_TWO); (15, FOUR_TWO_TWO_TWO);
    (16, THREE_FIVE_ONE_ONE); (17, THREE_FOUR_TWO_ONE);
    (18, THREE_FOUR_ONE_TWO); (19, THREE_ONE_FOUR_TWO);
    (20, THREE_ONE_TWO_ONE_THREE); (21, FOUR_ONE_THREE_TWO);
    (22, FOUR_TWO_FOUR_ZERO); (23, FOUR_THREE_ONE_TWO);
    (24, THREE_TWO_FOUR_ONE); (25, THREE_THREE_THREE_ONE) ].

(** *** The raw documents

    One element of [event_data["qualifier"]]: the "value" key is optional. *)
Module QualifierElm.
Record t := { qualifierId : Z; value : option string }.
End QualifierElm.

(** One element of [eventdata["liveData"]["event"]].  [typeId],
    [periodId], [outcome], [x] and [y] are JSON numbers, on which [int] and
    [float] are the identity; "playerId" is optional.  [team_id] is the
    key that the message of the error at the end of team resolution reads;
    MA3 records name the acting team "contestantId" and carry no such
    key. *)
Module EventData.
Record t := {
  id : string;
  typeId : Z;
  timeStamp : string;
  periodId : Z;
  contestantId : string;
  x : float;
  y : float;
  outcome : Z;
  qualifier : list QualifierElm.t;
  playerId : option string;
  team_id : option string
}.
End EventData.

(** One element of [metadata["liveData"]["matchDetails"]["period"]]. *)
Module PeriodData.
Record t := { id : Z; start : string; end_ : string }.
End PeriodData.

(** The dict of raw qualifiers of one event. *)
Abbreviation RawQualifiers := (gmap Z (option string)).

(** [code in raw_qualifiers] *)
Definition contains (raw_qualifiers : RawQualifiers) (code : Z) : bool :=
  bool_decide (is_Some (raw_qualifiers !! code)).

(** [raw_qualifiers[code]] *)
Definition getitem (raw_qualifiers : RawQualifiers) (code : Z) : Exc (option string) :=
  match raw_qualifiers !! code with
  | Some v => Return v
  | None => Raise (KeyError (KInt code))
  end.

(** The dict comprehension that builds [raw_qualifiers]: a later element
    with the same id overwrites an earlier one. *)
Definition raw_qualifiers_of (qualifier : list QualifierElm.t) : RawQualifiers :=
  foldl (fun m q => <[QualifierElm.qualifierId q := QualifierElm.value q]> m)
        ∅ qualifier.

(** *** The qualifier chains *)

Definition _get_event_pass_qualifiers (raw_qualifiers : RawQualifiers) : list Qualifier :=
  if contains raw_qualifiers EVENT_QUALIFIER_CROSS then
    [PassQualifier PassType.CROSS]
  else if contains raw_qualifiers EVENT_QUALIFIER_LONG_BALL then
    [PassQualifier PassType.LONG_BALL]
  else if contains raw_qualifiers EVENT_QUALIFIER_CHIPPED_BALL then
    [PassQualifier PassType.CHIPPED_PASS]
  else if contains raw_qualifiers EVENT_QUALIFIER_THROUGH_BALL then
    [PassQualifier PassType.THROUGH_BALL]
  else if contains raw_qualifiers EVENT_QUALIFIER_LAUNCH then
    [PassQualifier PassType.LAUNCH]
  else if contains raw_qualifiers EVENT_QUALIFIER_FLICK_ON then
    [PassQualifier PassType.FLICK_ON]
  else if contains raw_qualifiers EVENT_QUALIFIER_ASSIST then
    [PassQualifier PassType.ASSIST]
  else if contains raw_qualifiers EVENT_QUALIFIER_ASSIST_2ND then
    [PassQualifier PassType.ASSIST_2ND]
  else [].

Definition _get_event_setpiece_qualifiers (raw_qualifiers : RawQualifiers) : list Qualifier :=
  if contains raw_qualifiers EVENT_QUALIFIER_CORNER_KICK then
    [SetPieceQualifier CORNER_KICK]
  else if contains raw_qualifiers EVENT_QUALIFIER_FREE_KICK
          || contains raw_qualifiers EVENT_QUALIFIER_FREE_KICK_SHOT then
    [SetPieceQualifier FREE_KICK]
  else if contains raw_qualifiers EVENT_QUALIFIER_PENALTY then
    [SetPieceQualifier PENALTY]
  else if contains raw_qualifiers EVENT_QUALIFIER_THROW_IN then
    [SetPieceQualifier THROW_IN]
  else if contains raw_qualifiers EVENT_QUALIFIER_KICK_OFF then
    [SetPieceQualifier KICK_OFF]
  else if contains raw_qualifiers EVENT_QUALIFIER_GOAL_KICK then
    [SetPieceQualifier GOAL_KICK]
  else [].

Definition _get_event_bodypart_qualifiers (raw_qualifiers : RawQualifiers) : list Qualifier :=
  if contains raw_qualifiers EVENT_QUALIFIER_HEAD_PASS then
    [BodyPartQualifier BodyPart.HEAD]
  else if contains raw_qualifiers EVENT_QUALIFIER_HEAD then
    [BodyPartQualifier BodyPart.HEAD]
  else if contains raw_qualifiers EVENT_QUALIFIER_LEFT_FOOT then
    [BodyPartQualifier BodyPart.LEFT_FOOT]
  else if contains raw_qualifiers EVENT_QUALIFIER_RIGHT_FOOT then
    [BodyPartQualifier BodyPart.RIGHT_FOOT]
  else if contains raw_qualifiers EVENT_QUALIFIER_OTHER_BODYPART then
    [BodyPartQualifier BodyPart.OTHER]
  else [].

Definition _get_event_card_qualifiers (raw_qualifiers : RawQualifiers) : list Qualifier :=
  if contains raw_qualifiers EVENT_QUALIFIER_RED_CARD then
    [CardQualifier CardType.RED]
  else if contains raw_qualifiers EVENT_QUALIFIER_FIRST_YELLOW_CARD then
    [CardQualifier CardType.FIRST_YELLOW]
  else if contains raw_qualifiers EVENT_QUALIFIER_SECOND_YELLOW_CARD then
    [CardQualifier CardType.SECOND_YELLOW]
  else [].

Definition _get_event_qualifiers (raw_qualifiers : RawQualifiers) : list Qualifier :=
  _get_event_setpiece_qualifiers raw_qualifiers
  ++ _get_event_bodypart_qualifiers raw_qualifiers
  ++ _get_event_pass_qualifiers raw_qualifiers
  ++ _get_event_card_qualifiers raw_qualifiers.

Definition _get_event_type_name (type_id : Z) : string :=
  default "unknown" (assoc type_id event_type_names).

(** *** The type-specific parsers *)

Module PassKwargs.
Record t := {
  result : PassResult.t;
  receiver_coordinates : Point;
  qualifiers : list Qualifier
}.
End PassKwargs.

Module TakeOnKwargs.
Record t := { result : TakeOnResult.t }.
End TakeOnKwargs.

Module CardKwargs.
Record t := { qualifiers : list Qualifier; card_type : option CardType.t }.
End CardKwargs.

Module ShotKwargs.
Record t := {
  coordinates : Point;
  result : option ShotResult.t;
  qualifiers : list Qualifier
}.
End ShotKwargs.

Definition _parse_take_on (outcome : Z) : TakeOnKwargs.t :=
  if negb (outcome =? 0) then
    {| TakeOnKwargs.result := TakeOnResult.COMPLETE |}
  else
    {| TakeOnKwargs.result := TakeOnResult.INCOMPLETE |}.

Definition _parse_card (raw_qualifiers : RawQualifiers) : CardKwargs.t :=
  let qualifiers := _get_event_qualifiers raw_qualifiers in
  let card_type :=
    if int_in_qualifiers EVENT_QUALIFIER_RED_CARD qualifiers then
      Some CardType.RED
    else if int_in_qualifiers EVENT_QUALIFIER_FIRST_YELLOW_CARD qualifiers then
      Some CardType.FIRST_YELLOW
    else if int_in_qualifiers EVENT_QUALIFIER_SECOND_YELLOW_CARD qualifiers then
      Some CardType.SECOND_YELLOW
    else None in
  {| CardKwargs.qualifiers := qualifiers; CardKwargs.card_type := card_type |}.

(** Line 311: [Point(x=100 - coordinates.x, y=100 - coordinates.y)]. *)
Definition mirror (coordinates : Point) : Point :=
  {| x := 100 - x coordinates; y := 100 - y coordinates |}%float.

Definition _parse_shot (raw_qualifiers : RawQualifiers) (type_id : Z)
    (coordinates : Point) : ShotKwargs.t :=
  let '(coordinates, result) :=
    if type_id =? EVENT_TYPE_SHOT_GOAL then
      if contains raw_qualifiers 28 then
        (mirror coordinates, Some ShotResult.OWN_GOAL)
      else
        (coordinates, Some ShotResult.GOAL)
    else
      (coordinates, None) in
  let qualifiers := _get_event_qualifiers raw_qualifiers in
  {| ShotKwargs.coordinates := coordinates;
     ShotKwargs.result := result;
     ShotKwargs.qualifiers := qualifiers |}.

(** The library functions and the collaborators of the deserializer:
    [strptime s fmt] is [datetime.strptime(s, fmt)] made UTC, [None] when
    it raises [ValueError]; [float_of_str] and [int_of_str] are [float] and
    [int] on a string, [None] when they raise [ValueError];
    [get_player_by_id] is [Team.get_player_by_id]; [should_include_event]
    and [transform_event] are the inclusion filter and the coordinate
    transformer. *)
Class Collaborators := {
  strptime : string -> string -> option datetime;
  float_of_str : string -> option float;
  int_of_str : string -> option Z;
  get_player_by_id : Team -> string -> option Player;
  should_include_event : Event EventData.t -> bool;
  transform_event : Event EventData.t -> Event EventData.t
}.

Section Deserializer.

Context `{Collaborators}.

Definition try_parsing_date (dt_str : string) : Exc datetime :=
  match strptime dt_str "%Y-%m-%dT%H:%M:%SZ" with
  | Some d => Return d
  | None =>
      match strptime dt_str "%Y-%m-%dT%H:%M:%S.%fZ" with
      | Some d => Return d
      | None => Raise (ValueError "no valid date format found")
      end
  end.

(** [float(v)] for a raw qualifier value. *)
Definition py_float (v : option string) : Exc float :=
  match v with
  | None => Raise TypeError
  | Some s =>
      match float_of_str s with
      | Some q => Return q
      | None => Raise (ValueError "could not convert string to float")
      end
  end.

(** [int(v)] for a raw qualifier value. *)
Definition py_int (v : option string) : Exc Z :=
  match v with
  | None => Raise TypeError
  | Some s =>
      match int_of_str s with
      | Some n => Return n
      | None => Raise (ValueError "invalid literal for int()")
      end
  end.

(** [Point(x=float(raw_qualifiers[140]), y=float(raw_qualifiers[141]))],
    evaluated left to right. *)
Definition receiver_point (raw_qualifiers : RawQualifiers) : Exc Point :=
  vx ← getitem raw_qualifiers 140;
  px ← py_float vx;
  vy ← getitem raw_qualifiers 141;
  py ← py_float vy;
  Return {| x := px; y := py |}.

Definition _parse_pass (raw_qualifiers : RawQualifiers) (outcome : Z) : Exc PassKwargs.t :=
  '(result, receiver_coordinates) ←
    (if negb (outcome =? 0) then
       receiver_coordinates ← receiver_point raw_qualifiers;
       Return (PassResult.COMPLETE, receiver_coordinates)
     else
       receiver_coordinates ← receiver_point raw_qualifiers;
       Return (PassResult.INCOMPLETE, receiver_coordinates));
  let qualifiers := _get_event_qualifiers raw_qualifiers in
  Return {| PassKwargs.result := result;
            PassKwargs.receiver_coordinates := receiver_coordinates;
            PassKwargs.qualifiers := qualifiers |}.

Definition _parse_offside_pass (raw_qualifiers : RawQualifiers) : Exc PassKwargs.t :=
  let qualifiers := _get_event_qualifiers raw_qualifiers in
  receiver_coordinates ← receiver_point raw_qualifiers;
  Return {| PassKwargs.result := PassResult.OFFSIDE;
            PassKwargs.receiver_coordinates := receiver_coordinates;
            PassKwargs.qualifiers := qualifiers |}.

Definition _parse_formation_change (raw_qualifiers : RawQualifiers) : Exc FormationType :=
  v ← getitem raw_qualifiers EVENT_QUALIFIER_TEAM_FORMATION;
  formation_id ← py_int v;
  match assoc formation_id formations_num with
  | Some formation => Return formation
  | None => Raise (KeyError (KInt formation_id))
  end.

(** *** The loop body of [deserialize] *)

(** Lines 532-537: the acting team.  [teams[0]] is [home_team] and
    [teams[1]] is [away_team].  The message of the error is an f-string
    that reads [event_data['team_id']] before the exception object
    exists. *)
Definition resolve_team (home_team away_team : Team) (event_data : EventData.t) : Exc Team :=
  if String.eqb (EventData.contestantId event_data) (team_id home_team) then
    Return home_team
  else if String.eqb (EventData.contestantId event_data) (team_id away_team) then
    Return away_team
  else
    match EventData.team_id event_data with
    | None => Raise (KeyError (KStr "team_id"))
    | Some v => Raise (DeserializationError ("Unknown team_id " ++ v)%string)
    end.

(** Lines 594-601: the corrected timestamp of a goal. *)
Definition goal_timestamp (g : GenericEventKwargs EventData.t) (type_id : Z)
    (raw_qualifiers : RawQualifiers) (period_start : datetime)
    : Exc (GenericEventKwargs EventData.t) :=
  if type_id =? EVENT_TYPE_SHOT_GOAL then
    match raw_qualifiers !! 374 with
    | Some v =>
        match v with
        | None => Raise AttributeError
        | Some s =>
            corrected ← try_parsing_date (replace_space_T s ++ "Z")%string;
            Return (set_timestamp g (corrected - period_start))
        end
    | None => Return g
    end
  else Return g.

(** Lines 569-658: the event-type dispatcher.  [coordinates] is
    [generic_event_kwargs["coordinates"]] (always a [Point] here) and
    [period_start] is [period.start_timestamp]. *)
Definition dispatch (generic_event_kwargs : GenericEventKwargs EventData.t)
    (type_id : Z) (raw_qualifiers : RawQualifiers) (outcome : Z)
    (coordinates : Point) (period_start : datetime) : Exc (Event EventData.t) :=
  if type_id =? EVENT_TYPE_PASS then
    kw ← _parse_pass raw_qualifiers outcome;
    Return (build_pass generic_event_kwargs (PassKwargs.result kw)
              (PassKwargs.receiver_coordinates kw) (PassKwargs.qualifiers kw))
  else if type_id =? EVENT_TYPE_OFFSIDE_PASS then
    kw ← _parse_offside_pass raw_qualifiers;
    Return (build_pass generic_event_kwargs (PassKwargs.result kw)
              (PassKwargs.receiver_coordinates kw) (PassKwargs.qualifiers kw))
  else if type_id =? EVENT_TYPE_TAKE_ON then
    let kw := _parse_take_on outcome in
    Return (build_take_on generic_event_kwargs (TakeOnKwargs.result kw))
  else if bool_decide (type_id ∈ SHOT_EVENTS) then
    g ← goal_timestamp generic_event_kwargs type_id raw_qualifiers period_start;
    let kw := _parse_shot raw_qualifiers type_id coordinates in
    Return (build_shot (set_coordinates g (Some (ShotKwargs.coordinates kw)))
              (ShotKwargs.result kw) (Some (ShotKwargs.qualifiers kw)))
  else if type_id =? EVENT_TYPE_RECOVERY then
    Return (build_recovery generic_event_kwargs)
  else if type_id =? EVENT_TYPE_FOUL_COMMITTED then
    Return (build_foul_committed generic_event_kwargs)
  else if bool_decide (type_id ∈ BALL_OUT_EVENTS) then
    Return (build_ball_out (set_ball_state generic_event_kwargs DEAD))
  else if type_id =? EVENT_TYPE_FORMATION_CHANGE then
    formation ← _parse_formation_change raw_qualifiers;
    Return (build_formation_change generic_event_kwargs formation)
  else if type_id =? EVENT_TYPE_CARD then
    let g := set_ball_state generic_event_kwargs DEAD in
    let kw := _parse_card raw_qualifiers in
    Return (build_card g (CardKwargs.qualifiers kw) (CardKwargs.card_type kw))
  else
    Return (build_generic generic_event_kwargs (_get_event_type_name type_id)).

(** The event types with a branch of their own in the dispatcher. *)
Definition DISPATCHED_EVENTS : list Z :=
  [ EVENT_TYPE_PASS; EVENT_TYPE_OFFSIDE_PASS; EVENT_TYPE_TAKE_ON;
    EVENT_TYPE_SHOT_MISS; EVENT_TYPE_SHOT_POST; EVENT_TYPE_SHOT_SAVED;
    EVENT_TYPE_SHOT_GOAL; EVENT_TYPE_RECOVERY; EVENT_TYPE_FOUL_COMMITTED;
    EVENT_TYPE_BALL_OUT; EVENT_TYPE_CORNER_AWARDED;
    EVENT_TYPE_FORMATION_CHANGE; EVENT_TYPE_CARD ].

(** The event types whose branch calls [_get_event_qualifiers] (through
    [_parse_pass], [_parse_offside_pass], [_parse_shot] and
    [_parse_card]). *)
Definition QUALIFIED_EVENTS : list Z :=
  [ EVENT_TYPE_PASS; EVENT_TYPE_OFFSIDE_PASS; EVENT_TYPE_SHOT_MISS;
    EVENT_TYPE_SHOT_POST; EVENT_TYPE_SHOT_SAVED; EVENT_TYPE_SHOT_GOAL;
    EVENT_TYPE_CARD ].

(** The dispatcher as a relation between the event type and the event
    built, one rule per branch; [dispatch_dispatched] and
    [dispatched_dispatch] relate it to [dispatch]. *)
Inductive dispatched (g : GenericEventKwargs EventData.t)
    (raw_qualifiers : RawQualifiers) (outcome : Z) (coordinates : Point)
    (period_start : datetime) : Z -> Event EventData.t -> Prop :=
| dispatched_pass rc :
    receiver_point raw_qualifiers = Return rc ->
    dispatched g raw_qualifiers outcome coordinates period_start EVENT_TYPE_PASS
      (build_pass g
         (if outcome =? 0 then PassResult.INCOMPLETE else PassResult.COMPLETE)
         rc (_get_event_qualifiers raw_qualifiers))
| dispatched_offside_pass rc :
    receiver_point raw_qualifiers = Return rc ->
    dispatched g raw_qualifiers outcome coordinates period_start EVENT_TYPE_OFFSIDE_PASS
      (build_pass g PassResult.OFFSIDE rc (_get_event_qualifiers raw_qualifiers))
| dispatched_take_on :
    dispatched g raw_qualifiers outcome coordinates period_start EVENT_TYPE_TAKE_ON
      (build_take_on g
         (if outcome =? 0 then TakeOnResult.INCOMPLETE else TakeOnResult.COMPLETE))
| dispatched_shot type_id g' :
    type_id ∈ SHOT_EVENTS ->
    goal_timestamp g type_id raw_qualifiers period_start = Return g' ->
    dispatched g raw_qualifiers outcome coordinates period_start type_id
      (build_shot
         (set_coordinates g'
            (Some (ShotKwargs.coordinates (_parse_shot raw_qualifiers type_id coordinates))))
         (ShotKwargs.result (_parse_shot raw_qualifiers type_id coordinates))
         (Some (_get_event_qualifiers raw_qualifiers)))
| dispatched_recovery :
    dispatched g raw_qualifiers outcome coordinates period_start EVENT_TYPE_RECOVERY
      (build_recovery g)
| dispatched_foul_committed :
    dispatched g raw_qualifiers outcome coordinates period_start EVENT_TYPE_FOUL_COMMITTED
      (build_foul_committed g)
| dispatched_ball_out type_id :
    type_id ∈ BALL_OUT_EVENTS ->
    dispatched g raw_qualifiers outcome coordinates period_start type_id
      (build_ball_out (set_ball_state g DEAD))
| dispatched_formation_change formation :
    _parse_formation_change raw_qualifiers = Return formation ->
    dispatched g raw_qualifiers outcome coordinates period_start EVENT_TYPE_FORMATION_CHANGE
      (build_formation_change g formation)
| dispatched_card :
    dispatched g raw_qualifiers outcome coordinates period_start EVENT_TYPE_CARD
      (build_card (set_ball_state g DEAD) (_get_event_qualifiers raw_qualifiers)
         (CardKwargs.card_type (_parse_card raw_qualifiers)))
| dispatched_generic type_id :
    type_id ∉ DISPATCHED_EVENTS ->
    dispatched g raw_qualifiers outcome coordinates period_start type_id
      (build_generic g (_get_event_type_name type_id)).

(** [for period in periods: if period.id == period_id: break]: the first
    period with that id, with its position. *)
Definition find_period (periods : list Period.t) (period_id : Z) : option (nat * Period.t) :=
  list_find (fun p => Period.id p = period_id) periods.

(** Lines 552-553: the possession tracker. *)
Definition update_possession (possession_team : option Team) (type_id : Z)
    (team : Team) : option Team :=
  if bool_decide (type_id ∈ BALL_OWNING_EVENTS) then Some team
  else possession_team.

(** Lines 548-567: the player and [generic_event_kwargs]. *)
Definition make_generic_event_kwargs (i : nat) (period_start timestamp : datetime)
    (possession_team : option Team) (team : Team) (event_data : EventData.t)
    : GenericEventKwargs EventData.t :=
  let player :=
    match EventData.playerId event_data with
    | Some player_id => get_player_by_id team player_id
    | None => None
    end in
  {| period := i;
     timestamp := timestamp - period_start;
     ball_owning_team := possession_team;
     ball_state := ALIVE;
     event_id := EventData.id event_data;
     team := Some team;
     player := player;
     coordinates :=
       Some {| x := EventData.x event_data; y := EventData.y event_data |};
     raw_event := event_data |}.

(** What one iteration of the loop does, before the inclusion filter. *)
Inductive Outcome :=
| Skipped
| PeriodUpdated (periods : list Period.t)
| Built (possession_team : option Team) (event : Event EventData.t).

(** Lines 507-658. *)
Definition process_record (home_team away_team : Team)
    (periods : list Period.t) (possession_team : option Team)
    (event_data : EventData.t) : Exc Outcome :=
  let type_id := EventData.typeId event_data in
  timestamp ← try_parsing_date (EventData.timeStamp event_data);
  let period_id := EventData.periodId event_data in
  match find_period periods period_id with
  | None => Return Skipped
  | Some (i, period) =>
      if type_id =? EVENT_TYPE_START_PERIOD then
        Return (PeriodUpdated (<[i := Period.set_start period timestamp]> periods))
      else if type_id =? EVENT_TYPE_END_PERIOD then
        Return (PeriodUpdated (<[i := Period.set_end period timestamp]> periods))
      else
        match Period.start_timestamp period with
        | None => Return Skipped
        | Some period_start =>
            team ← resolve_team home_team away_team event_data;
            let coordinates :=
              {| x := EventData.x event_data; y := EventData.y event_data |} in
            let outcome := EventData.outcome event_data in
            let raw_qualifiers := raw_qualifiers_of (EventData.qualifier event_data) in
            let possession_team := update_possession possession_team type_id team in
            let generic_event_kwargs :=
              make_generic_event_kwargs i period_start timestamp possession_team
                team event_data in
            event ← dispatch generic_event_kwargs type_id raw_qualifiers
                      outcome coordinates period_start;
            Return (Built possession_team event)
        end
  end.

(** A record is retained in [periods] when the loop body takes it to the
    dispatcher: its timestamp parses, it is no period marker, the first
    period with its id has a start timestamp and its team is one of the
    two sides. *)
Definition retained (home_team away_team : Team) (periods : list Period.t)
    (event_data : EventData.t) (timestamp : datetime) (i : nat)
    (period_start : datetime) (team : Team) : Prop :=
  try_parsing_date (EventData.timeStamp event_data) = Return timestamp /\
  EventData.typeId event_data <> EVENT_TYPE_START_PERIOD /\
  EventData.typeId event_data <> EVENT_TYPE_END_PERIOD /\
  (exists period,
      find_period periods (EventData.periodId event_data) = Some (i, period) /\
      Period.start_timestamp period = Some period_start) /\
  resolve_team home_team away_team event_data = Return team.

(** The state the loop carries. *)
Record State := {
  periods : list Period.t;
  possession_team : option Team;
  events : list (Event EventData.t)
}.

(** Lines 504-505, after the periods of the MA1 document. *)
Definition initial_state (periods0 : list Period.t) : State :=
  {| periods := periods0; possession_team := None; events := [] |}.

(** Lines 660-661. *)
Definition append_event (events : list (Event EventData.t)) (event : Event EventData.t) :=
  if should_include_event event then (events ++ [transform_event event])%list
  else events.

Definition loop_body (home_team away_team : Team) (st : State)
    (event_data : EventData.t) : Exc State :=
  o ← process_record home_team away_team (periods st) (possession_team st) event_data;
  Return
    match o with
    | Skipped => st
    | PeriodUpdated periods' =>
        {| periods := periods'; possession_team := possession_team st;
           events := events st |}
    | Built possession_team' event =>
        {| periods := periods st; possession_team := possession_team';
           events := append_event (events st) event |}
    end.

(** Lines 495-503. *)
Fixpoint parse_periods (period_data : list PeriodData.t) : Exc (list Period.t) :=
  match period_data with
  | [] => Return []
  | per :: rest =>
      start ← try_parsing_date (PeriodData.start per);
      stop ← try_parsing_date (PeriodData.end_ per);
      periods ← parse_periods rest;
      Return ({| Period.id := PeriodData.id per;
                 Period.start_timestamp := Some start;
                 Period.end_timestamp := Some stop |} :: periods)
  end.

(** [deserialize], from the teams [_parse_team] built (lineup parsing is
    outside the model), the period list of the MA1 document and the event
    list of the MA3 document. *)
Definition deserialize (home_team away_team : Team)
    (period_data : list PeriodData.t) (event : list EventData.t)
    : Exc (EventDataset EventData.t) :=
  if (length (players home_team) =? 0)%nat || (length (players away_team) =? 0)%nat then
    Raise (DeserializationError "LineUp incomplete")
  else
    periods0 ← parse_periods period_data;
    st ← for_each (loop_body home_team away_team) (initial_state periods0) event;
    Return {| Domain.teams := [home_team; away_team];
              Domain.periods := periods st;
              Domain.records := events st |}.

End Deserializer.

End StatsPerform.

(** ** uefa/deserializer.py *)

Module Uefa.

Definition EVENT_TYPE_START_PERIOD := "START_PHASE".
Definition EVENT_TYPE_END_PERIOD := "END_PHASE".

Definition EVENT_TYPE_SHOT_WIDE := "SHOT_WIDE".

Definition PHASE_TO_PERIOD : list (string * Z) :=
  [ ("FIRST_HALF", 1); ("SECOND_HALF", 2) ].

Definition BALL_OWNING_EVENTS : list string := [EVENT_TYPE_SHOT_WIDE].

(** [event_elm["primaryActor"]]: the id of its "team" and of its "person",
    both optional. *)
Module Actor.
Record t := { team : option string; person : option string }.
End Actor.

(** One element of the event document; "timestamp", "primaryActor" and
    "fieldPosition" are optional keys, and the coordinates are JSON
    numbers. *)
Module EventElm.
Record t := {
  id : string;
  phase : string;
  type : string;
  timestamp : option string;
  primaryActor : option Actor.t;
  fieldPosition : option (float * float)
}.
End EventElm.

(** [PHASE_TO_PERIOD[phase]] *)
Fixpoint phase_to_period (d : list (string * Z)) (phase : string) : Exc Z :=
  match d with
  | [] => Raise (KeyError (KStr phase))
  | (k, v) :: d' => if String.eqb phase k then Return v else phase_to_period d' phase
  end.

(** [periods[n]] for a non-negative [n] *)
Definition period_at (periods : list Period.t) (n : Z) : Exc (nat * Period.t) :=
  match periods !! Z.to_nat n with
  | Some p => Return (Z.to_nat n, p)
  | None => Raise IndexError
  end.

(** [fromisoformat s] is [datetime.fromisoformat(s)], [None] when it
    raises [ValueError]; the other collaborators are as for Stats
    Perform. *)
Class Collaborators := {
  fromisoformat : string -> option datetime;
  get_player_by_id : Team -> string -> option Player;
  should_include_event : Event EventElm.t -> bool;
  transform_event : Event EventElm.t -> Event EventElm.t
}.

Section Deserializer.

Context `{Collaborators}.

(** Lines 185-200: the acting team and player. *)
Definition resolve_actor (home_team away_team : Team) (event_elm : EventElm.t)
    : Exc (option Team * option Player) :=
  match EventElm.primaryActor event_elm with
  | Some actor =>
      match Actor.team actor with
      | Some tid =>
          team ←
            (if String.eqb tid (team_id home_team) then Return home_team
             else if String.eqb tid (team_id away_team) then Return away_team
             else Raise (DeserializationError ("Unknown team_id " ++ tid)%string));
          let player :=
            match Actor.person actor with
            | Some pid => get_player_by_id team pid
            | None => None
            end in
          Return (Some team, player)
      | None => Return (None, None)
      end
  | None => Return (None, None)
  end.

(** The state the loop carries: [possession_team] is a local of
    [deserialize], assigned afresh in every iteration that builds an
    event. *)
Record State := {
  periods : list Period.t;
  possession_team : option Team;
  events : list (Event EventElm.t)
}.

Definition append_event (events : list (Event EventElm.t)) (event : Event EventElm.t) :=
  if should_include_event event then (events ++ [transform_event event])%list
  else events.

(** Lines 183-240: an event that is no period marker. *)
Definition build_event (home_team away_team : Team) (periods : list Period.t)
    (timestamp : datetime) (event_elm : EventElm.t)
    : Exc (option Team * Event EventElm.t) :=
  let event_id := EventElm.id event_elm in
  let type_id := EventElm.type event_elm in
  n ← phase_to_period PHASE_TO_PERIOD (EventElm.phase event_elm);
  '(i, period) ← period_at periods (n - 1);
  '(team, player) ← resolve_actor home_team away_team event_elm;
  let coordinates :=
    match EventElm.fieldPosition event_elm with
    | Some (cx, cy) => Some {| x := cx; y := cy |}
    | None => None
    end in
  (* lines 208-210 *)
  let possession_team : option Team := None in
  let possession_team :=
    if bool_decide (type_id ∈ BALL_OWNING_EVENTS) then team else possession_team in
  relative ←
    match Period.start_timestamp period with
    | Some period_start => Return (timestamp - period_start)
    | None => Raise TypeError
    end;
  let generic_event_kwargs :=
    {| period := i;
       timestamp := relative;
       ball_owning_team := possession_team;
       ball_state := ALIVE;
       event_id := event_id;
       team := team;
       player := player;
       coordinates := coordinates;
       raw_event := event_elm |} in
  let event :=
    if String.eqb type_id EVENT_TYPE_SHOT_WIDE then
      build_shot generic_event_kwargs (Some ShotResult.OFF_TARGET) None
    else
      build_generic generic_event_kwargs type_id in
  Return (possession_team, event).

(** Lines 160-161. *)
Definition initial_state : State :=
  {| periods := []; possession_team := None; events := [] |}.

(** Lines 163-243: the loop body. *)
Definition loop_body (home_team away_team : Team) (st : State)
    (event_elm : EventElm.t) : Exc State :=
  let type_id := EventElm.type event_elm in
  match EventElm.timestamp event_elm with
  | None => Return st
  | Some ts =>
      match fromisoformat ts with
      | None => Raise (ValueError "Invalid isoformat string")
      | Some timestamp =>
          if String.eqb type_id EVENT_TYPE_START_PERIOD then
            n ← phase_to_period PHASE_TO_PERIOD (EventElm.phase event_elm);
            Return {| periods :=
                        (periods st ++
                         [ {| Period.id := n;
                              Period.start_timestamp := Some timestamp;
                              Period.end_timestamp := None |} ])%list;
                      possession_team := possession_team st;
                      events := events st |}
          else if String.eqb type_id EVENT_TYPE_END_PERIOD then
            n ← phase_to_period PHASE_TO_PERIOD (EventElm.phase event_elm);
            '(i, period) ← period_at (periods st) (n - 1);
            Return {| periods := <[i := Period.set_end period timestamp]> (periods st);
                      possession_team := possession_team st;
                      events := events st |}
          else
            '(possession_team', event) ←
              build_event home_team away_team (periods st) timestamp event_elm;
            Return {| periods := periods st;
                      possession_team := possession_team';
                      events := append_event (events st) event |}
      end
  end.

(** [deserialize], from the teams [_parse_team] built and the event
    document, which is traversed from its end. *)
Definition deserialize (home_team away_team : Team) (event_data : list EventElm.t)
    : Exc (EventDataset EventElm.t) :=
  if (length (players home_team) =? 0)%nat || (length (players away_team) =? 0)%nat then
    Raise (DeserializationError "LineUp incomplete")
  else
    st ← for_each (loop_body home_team away_team) initial_state (rev event_data);
    Return {| Domain.teams := [home_team; away_team];
              Domain.periods := periods st;
              Domain.records := events st |}.

End Deserializer.

End Uefa.

(** ** The precedence chains in the words of the specification

    Section 4.3 of the specification: a chain is an ordered list of
    checks, each mapping raw codes to one canonical tag; the first check
    with a raw code present in the raw attributes wins.  The orders below
    are the ones the specification spells out, with the raw codes of the
    provider; they are compared with the functions of the deserializer in
    the theorems. *)

Module ChainSpec.

Import StatsPerform.

Definition Chain (T : Type) := list (list Z * T).

Definition setpiece_order : Chain SetPieceType :=
  [ ([6], CORNER_KICK); ([5; 26], FREE_KICK); ([9], PENALTY);
    ([107], THROW_IN); ([279], KICK_OFF); ([124], GOAL_KICK) ].

Definition bodypart_order : Chain BodyPart.t :=
  [ ([3], BodyPart.HEAD); ([15], BodyPart.HEAD); ([72], BodyPart.LEFT_FOOT);
    ([20], BodyPart.RIGHT_FOOT); ([21], BodyPart.OTHER) ].

Definition pass_order : Chain PassType.t :=
  [ ([2], PassType.CROSS); ([1], PassType.LONG_BALL);
    ([155], PassType.CHIPPED_PASS); ([4], PassType.THROUGH_BALL);
    ([157], PassType.LAUNCH); ([168], PassType.FLICK_ON);
    ([210], PassType.ASSIST); ([218], PassType.ASSIST_2ND) ].

Definition card_order : Chain CardType.t :=
  [ ([33], CardType.RED); ([31], CardType.FIRST_YELLOW);
    ([32], CardType.SECOND_YELLOW) ].

(** One of the raw codes of a check is present. *)
Definition present (raw_qualifiers : RawQualifiers) (codes : list Z) : bool :=
  existsb (contains raw_qualifiers) codes.

(** First match wins. *)
Fixpoint first_match {T} (chain : Chain T) (raw_qualifiers : RawQualifiers) : list T :=
  match chain with
  | [] => []
  | (codes, tag) :: rest =>
      if present raw_qualifiers codes then [tag]
      else first_match rest raw_qualifiers
  end.

End ChainSpec.

(** ** Sample collaborators and feeds

    Stand-ins used to run the deserializers on concrete feeds: the date
    and number parsers know a handful of literals, every event is
    included and the coordinate transform is the identity. *)

Module Samples.

Definition home : Team :=
  {| team_id := "t-home"; players := [ {| player_id := "p1" |} ] |}.
Definition away : Team :=
  {| team_id := "t-away"; players := [ {| player_id := "p2" |} ] |}.

Fixpoint lookup_str {V} (s : string) (d : list (string * V)) : option V :=
  match d with
  | [] => None
  | (k, v) :: d' => if String.eqb s k then Some v else lookup_str s d'
  end.

Definition find_player (team : Team) (pid : string) : option Player :=
  List.find (fun p => String.eqb (player_id p) pid) (players team).

(** Seconds after kick-off, in microseconds. *)
Definition sec (n : Z) : datetime := n * 1000000.

Definition known_dates : list (string * datetime) :=
  [ ("2024-05-01T18:00:00Z", sec 0);
    ("2024-05-01T18:00:02Z", sec 2);
    ("2024-05-01T18:00:05Z", sec 5);
    ("2024-05-01T18:00:07Z", sec 7);
    ("2024-05-01T18:00:09Z", sec 9);
    ("2024-05-01T18:01:30Z", sec 90) ].

#[local] Instance statsperform : StatsPerform.Collaborators := {|
  StatsPerform.strptime s fmt :=
    if String.eqb fmt "%Y-%m-%dT%H:%M:%SZ" then lookup_str s known_dates else None;
  StatsPerform.float_of_str s :=
    lookup_str s [ ("50.0", 50%float); ("10.5", 10.5%float) ];
  StatsPerform.int_of_str s := lookup_str s [ ("2", 2); ("4", 4) ];
  StatsPerform.get_player_by_id := find_player;
  StatsPerform.should_include_event _ := true;
  StatsPerform.transform_event e := e
|}.

#[local] Instance uefa : Uefa.Collaborators := {|
  Uefa.fromisoformat s :=
    lookup_str s [ ("2024-05-01T18:00:00+00:00", sec 0);
                   ("2024-05-01T18:00:05+00:00", sec 5);
                   ("2024-05-01T18:00:09+00:00", sec 9) ];
  Uefa.get_player_by_id := find_player;
  Uefa.should_include_event _ := true;
  Uefa.transform_event e := e
|}.

Import StatsPerform.

Definition q (code : Z) (v : option string) : QualifierElm.t :=
  {| QualifierElm.qualifierId := code; QualifierElm.value := v |}.

(** An MA3 record at (x, y) with outcome 1. *)
Definition record_at (x y : float) (id : string) (type_id period_id : Z)
    (time_stamp : string) (contestant : string)
    (qualifier : list QualifierElm.t) : EventData.t :=
  {| EventData.id := id; EventData.typeId := type_id;
     EventData.timeStamp := time_stamp; EventData.periodId := period_id;
     EventData.contestantId := contestant;
     EventData.x := x; EventData.y := y; EventData.outcome := 1;
     EventData.qualifier := qualifier;
     EventData.playerId := Some "p1"; EventData.team_id := None |}.

Definition record := record_at 50%float 50%float.

Definition period1 : PeriodData.t :=
  {| PeriodData.id := 1; PeriodData.start := "2024-05-01T18:00:00Z";
     PeriodData.end_ := "2024-05-01T18:01:30Z" |}.

Definition receiver_50_50 : list QualifierElm.t :=
  [ q 140 (Some "50.0"); q 141 (Some "50.0") ].

(** Start of period 1 at 0 s, a completed pass at 5 s, end of period 1 at
    90 s. *)
Definition feed_one_pass : list EventData.t :=
  [ record "e1" 32 1 "2024-05-01T18:00:00Z" "t-home" [];
    record "e2" 1 1 "2024-05-01T18:00:05Z" "t-home" receiver_50_50;
    record "e3" 30 1 "2024-05-01T18:01:30Z" "t-home" [] ].

End Samples.

Module Feeds.
Import Samples StatsPerform.

Definition start1 : EventData.t := record "e1" 32 1 "2024-05-01T18:00:00Z" "t-home" [].

(** The period list once the start of period 1 has been seen. *)
Definition started1 : list Period.t :=
  [ {| Period.id := 1; Period.start_timestamp := Some (sec 0);
       Period.end_timestamp := Some (sec 90) |} ].

(** A completed pass of the home team at 5 s. *)
Definition pass_home : EventData.t :=
  record "e2" 1 1 "2024-05-01T18:00:05Z" "t-home" receiver_50_50.

(** A red card (raw code 33) shown to the home team at 5 s. *)
Definition feed_red_card : list EventData.t :=
  [ start1; record "e2" 17 1 "2024-05-01T18:00:05Z" "t-home" [q 33 None] ].

(** A goal with the own-goal flag (raw code 28) at (90, 10). *)
Definition own_goal : EventData.t :=
  record_at 90%float 10%float "e2" 16 1 "2024-05-01T18:00:05Z" "t-home" [q 28 None].

(** A take-on whose raw qualifiers hold the corner code (6). *)
Definition take_on_corner : EventData.t :=
  record "e2" 3 1 "2024-05-01T18:00:05Z" "t-home" [q 6 None].

(** A pass whose slot 140 has no value and whose slot 141 is missing. *)
Definition pass_140_without_value : EventData.t :=
  record "e2" 1 1 "2024-05-01T18:00:05Z" "t-home" [q 140 None].

(** A pass with slot 141 only. *)
Definition pass_without_140 : EventData.t :=
  record "e2" 1 1 "2024-05-01T18:00:05Z" "t-home" [q 141 (Some "50.0")].

(** A pass of a team that is neither side; as every MA3 record it has no
    "team_id" key. *)
Definition pass_unknown_team : EventData.t :=
  record "e2" 1 1 "2024-05-01T18:00:05Z" "t-other" receiver_50_50.

(** A goal at 5 s whose slot 374 moves it to 2 s. *)
Definition goal_corrected : EventData.t :=
  record "e2" 16 1 "2024-05-01T18:00:05Z" "t-home"
    [q 374 (Some "2024-05-01 18:00:02")].

(** A pass of the home team at 5 s, then a foul by the away team at 7 s
    and a tackle (generic) by the away team at 9 s. *)
Definition feed_pass_then_fouls : list EventData.t :=
  [ start1;
    record "e2" 1 1 "2024-05-01T18:00:05Z" "t-home" receiver_50_50;
    record "e3" 4 1 "2024-05-01T18:00:07Z" "t-away" [];
    record "e4" 7 1 "2024-05-01T18:00:09Z" "t-away" [] ].

(** A record of period 2, which the MA1 document does not declare, between
    two records of period 1. *)
Definition feed_unknown_period : list EventData.t :=
  [ start1;
    record "e2" 4 1 "2024-05-01T18:00:05Z" "t-home" [];
    record "e3" 4 2 "2024-05-01T18:00:07Z" "t-home" [];
    record "e4" 4 1 "2024-05-01T18:00:09Z" "t-home" [] ].

Definition uefa_record (id phase type : string) (time_stamp : string)
    (team : option string) : Uefa.EventElm.t :=
  {| Uefa.EventElm.id := id; Uefa.EventElm.phase := phase;
     Uefa.EventElm.type := type; Uefa.EventElm.timestamp := Some time_stamp;
     Uefa.EventElm.primaryActor :=
       Some {| Uefa.Actor.team := team; Uefa.Actor.person := None |};
     Uefa.EventElm.fieldPosition := None |}.

(** The UEFA document lists the latest event first: a start of the first
    half at 0 s, a shot wide of the home team at 5 s and a foul of the
    home team at 9 s. *)
Definition uefa_shot_then_foul : list Uefa.EventElm.t :=
  [ uefa_record "u3" "FIRST_HALF" "FOUL" "2024-05-01T18:00:09+00:00" (Some "t-home");
    uefa_record "u2" "FIRST_HALF" "SHOT_WIDE" "2024-05-01T18:00:05+00:00" (Some "t-home");
    uefa_record "u1" "FIRST_HALF" "START_PHASE" "2024-05-01T18:00:00+00:00" None ].

(** The period list of a UEFA run once the first half has started. *)
Definition uefa_started : list Period.t :=
  [ {| Period.id := 1; Period.start_timestamp := Some (sec 0);
       Period.end_timestamp := None |} ].

(** A foul of the home team in the first half. *)
Definition uefa_foul : Uefa.EventElm.t :=
  uefa_record "u3" "FIRST_HALF" "FOUL" "2024-05-01T18:00:09+00:00" (Some "t-home").

(** A foul of the first half in a document with no start of the first
    half. *)
Definition uefa_no_start : list Uefa.EventElm.t :=
  [ uefa_record "u2" "FIRST_HALF" "FOUL" "2024-05-01T18:00:05+00:00" (Some "t-home") ].

(** A UEFA record of a team that is neither side. *)
Definition uefa_unknown_team : list Uefa.EventElm.t :=
  [ uefa_record "u2" "FIRST_HALF" "FOUL" "2024-05-01T18:00:05+00:00" (Some "t-other");
    uefa_record "u1" "FIRST_HALF" "START_PHASE" "2024-05-01T18:00:00+00:00" None ].

End Feeds.

(** ** The documents of a match: sides, line-ups and score

    The part of both [deserialize] methods that runs before the event
    loop.  The [Player] and [Team] objects are given here with every field
    the line-up parsers set; [to_domain] keeps of them what the event loop
    reads. *)

Inductive Ground := HOME | AWAY.

Module Position.
Record t := { position_id : option string; name : string }.
End Position.

(** [d[key]] for a key that a JSON object may lack. *)
Definition getkey {V} (key : string) (v : option V) : Exc V :=
  match v with
  | Some a => Return a
  | None => Raise (KeyError (KStr key))
  end.

(** [enumerate(l, start)] *)
Fixpoint enumerate {A} (start : nat) (l : list A) : list (nat * A) :=
  match l with
  | [] => []
  | a :: l' => (start, a) :: enumerate (S start) l'
  end.

Module StatsPerformMetadata.

Import StatsPerform.

(** Lines 210-235. *)
Definition formations_str : list (string * FormationType) :=
  [ ("442", FOUR_FOUR_TWO); ("41212", FOUR_ONE_TWO_ONE_TWO);
    ("433", FOUR_THREE_THREE); ("451", FOUR_FIVE_ONE);
    ("4411", FOUR_FOUR_ONE_ONE); ("4141", FOUR_ONE_FOUR_ONE);
    ("4231", FOUR_TWO_THREE_ONE); ("4321", FOUR_THREE_TWO_ONE);
    ("532", FIVE_THREE_TWO); ("541", FIVE_FOUR_ONE);
    ("352", THREE_FIVE_TWO); ("343", THREE_FOUR_THREE);
    ("31312", THREE_ONE_THREE_ONE_TWO); ("4222", FOUR_TWO_TWO_TWO);
    ("3511", THREE_FIVE_ONE_ONE); ("3421", THREE_FOUR_TWO_ONE);
    ("3412", THREE_FOUR_ONE_TWO); ("3142", THREE_ONE_FOUR_TWO);
    ("31213", THREE_ONE_TWO_ONE_THREE); ("4132", FOUR_ONE_THREE_TWO);
    ("4240", FOUR_TWO_FOUR_ZERO); ("4312", FOUR_THREE_ONE_TWO);
    ("3241", THREE_TWO_FOUR_ONE); ("3331", THREE_THREE_THREE_ONE) ].

(** [d[k]] for a dict literal with string keys. *)
Fixpoint getitem_str {V} (d : list (string * V)) (k : string) : Exc V :=
  match d with
  | [] => Raise (KeyError (KStr k))
  | (k', v) :: d' => if String.eqb k k' then Return v else getitem_str d' k
  end.

(** *** The MA1 document

    The keys [deserialize] and [_parse_team] read.  "formationPlace" and
    "subPosition" are read for some players only and are optional here;
    "shirtNumber" is a JSON integer, on which [int] is the identity. *)

Module ContestantData.
Record t := { id : string; name : string; position : string }.
End ContestantData.

Module PlayerData.
Record t := {
  playerId : string;
  shirtNumber : Z;
  firstName : string;
  lastName : string;
  position : string;
  formationPlace : option string;
  subPosition : option string
}.
End PlayerData.

Module LineupData.
Record t := { formationUsed : string; player : list PlayerData.t }.
End LineupData.

(** [ft_home] and [ft_away] are the two entries of
    ["liveData"]["matchDetails"]["scores"]["ft"]. *)
Module Metadata.
Record t := {
  contestant : list ContestantData.t;
  lineUp : list LineupData.t;
  ft_home : Z;
  ft_away : Z;
  period : list PeriodData.t
}.
End Metadata.

Module Lineup.
Record Player := {
  player_id : string;
  jersey_no : Z;
  first_name : string;
  last_name : string;
  starting : bool;
  position : Position.t
}.
Record Team := {
  team_id : string;
  name : string;
  ground : Ground;
  starting_formation : FormationType;
  players : list Player
}.
End Lineup.

Module Score.
Record t := { home : option Z; away : option Z }.
End Score.

(** Lines 355-371: the [Player] of one entry of the line-up.  The
    keyword arguments are evaluated in the order in which they are
    written. *)
Definition parse_player (player_data : PlayerData.t) : Exc Lineup.Player :=
  let substitute := String.eqb (PlayerData.position player_data) "Substitute" in
  position_id ←
    (if negb substitute then
       place ← getkey "formationPlace" (PlayerData.formationPlace player_data);
       Return (Some place)
     else Return None);
  name ←
    (if negb substitute then Return (PlayerData.position player_data)
     else getkey "subPosition" (PlayerData.subPosition player_data));
  Return {| Lineup.player_id := PlayerData.playerId player_data;
            Lineup.jersey_no := PlayerData.shirtNumber player_data;
            Lineup.first_name := PlayerData.firstName player_data;
            Lineup.last_name := PlayerData.lastName player_data;
            Lineup.starting := if negb substitute then true else false;
            Lineup.position :=
              {| Position.position_id := position_id; Position.name := name |} |}.

(** Lines 354-372: the body of the loop over the line-up. *)
Definition add_player (players : list Lineup.Player) (player_data : PlayerData.t)
    : Exc (list Lineup.Player) :=
  player ← parse_player player_data;
  Return (players ++ [player])%list.

(** Lines 345-374. *)
Definition _parse_team (team_data : ContestantData.t) (lineup_data : LineupData.t)
    : Exc Lineup.Team :=
  starting_formation ← getitem_str formations_str (LineupData.formationUsed lineup_data);
  players ← for_each add_player [] (LineupData.player lineup_data);
  Return {| Lineup.team_id := ContestantData.id team_data;
            Lineup.name := ContestantData.name team_data;
            Lineup.ground :=
              if String.eqb (ContestantData.position team_data) "home"
              then HOME else AWAY;
            Lineup.starting_formation := starting_formation;
            Lineup.players := players |}.

(** The locals of [deserialize] that the loop over the contestants
    assigns; [home_team] and [away_team] are unbound until then. *)
Record Locals := {
  home_score : option Z;
  away_score : option Z;
  home_team : option Lineup.Team;
  away_team : option Lineup.Team
}.

(** Lines 474-475. *)
Definition initial_locals : Locals :=
  {| home_score := None; away_score := None;
     home_team := None; away_team := None |}.

(** [metadata["liveData"]["lineUp"][idx]] *)
Definition lineup_at (metadata : Metadata.t) (idx : nat) : Exc LineupData.t :=
  match Metadata.lineUp metadata !! idx with
  | Some lineup_data => Return lineup_data
  | None => Raise IndexError
  end.

(** Lines 478-486: the body of the loop over the contestants. *)
Definition contestant_body (metadata : Metadata.t) (st : Locals)
    (item : nat * ContestantData.t) : Exc Locals :=
  let '(idx, contestant) := item in
  if String.eqb (ContestantData.position contestant) "home" then
    let home_score := Metadata.ft_home metadata in
    lineup_data ← lineup_at metadata idx;
    home_team ← _parse_team contestant lineup_data;
    Return {| home_score := Some home_score; away_score := away_score st;
              home_team := Some home_team; away_team := away_team st |}
  else if String.eqb (ContestantData.position contestant) "away" then
    let away_score := Metadata.ft_home metadata in
    lineup_data ← lineup_at metadata idx;
    away_team ← _parse_team contestant lineup_data;
    Return {| home_score := home_score st; away_score := Some away_score;
              home_team := home_team st; away_team := Some away_team |}
  else
    Raise (DeserializationError
             ("Unknown side: " ++ ContestantData.position contestant)%string).

(** What [deserialize] can end with besides a value: an exception of the
    deserializers, or the [UnboundLocalError] of a local that was never
    assigned. *)
Inductive Failure :=
| Raised (e : Exception)
| UnboundLocalError (name : string).

(** What the event loop reads of a team. *)
Definition to_domain (team : Lineup.Team) : Team :=
  {| team_id := Lineup.team_id team;
     players :=
       (fun player => {| player_id := Lineup.player_id player |})
         <$> Lineup.players team |}.

Section Deserializer.

Context `{Collaborators}.

(** [deserialize] from the two parsed documents: lines 472-489, then the
    line-up check, the periods and the event loop. *)
Definition deserialize (metadata : Metadata.t) (eventdata : list EventData.t)
    : Failure + (Score.t * EventDataset EventData.t) :=
  match for_each (contestant_body metadata) initial_locals
          (enumerate 0 (Metadata.contestant metadata)) with
  | Raise e => inl (Raised e)
  | Return st =>
      let score := {| Score.home := home_score st; Score.away := away_score st |} in
      match home_team st, away_team st with
      | None, _ => inl (UnboundLocalError "home_team")
      | Some _, None => inl (UnboundLocalError "away_team")
      | Some home_team, Some away_team =>
          match StatsPerform.deserialize (to_domain home_team) (to_domain away_team)
                  (Metadata.period metadata) eventdata with
          | Raise e => inl (Raised e)
          | Return dataset => inr (score, dataset)
          end
      end
  end.

End Deserializer.

(** What [parse_player] returns, field by field. *)
Definition player_of (player_data : PlayerData.t) (player : Lineup.Player) : Prop :=
  Lineup.player_id player = PlayerData.playerId player_data /\
  Lineup.jersey_no player = PlayerData.shirtNumber player_data /\
  Lineup.first_name player = PlayerData.firstName player_data /\
  Lineup.last_name player = PlayerData.lastName player_data /\
  (Lineup.starting player = true <->
   PlayerData.position player_data <> "Substitute") /\
  Position.position_id (Lineup.position player) =
    (if Lineup.starting player then PlayerData.formationPlace player_data
     else None) /\
  Some (Position.name (Lineup.position player)) =
    (if Lineup.starting player then Some (PlayerData.position player_data)
     else PlayerData.subPosition player_data).

Definition other (g : Ground) : Ground :=
  match g with HOME => AWAY | AWAY => HOME end.

(** The name of a side in the MA1 document, and what the loop over the
    contestants holds for it. *)
Definition side_name (g : Ground) : string :=
  match g with HOME => "home" | AWAY => "away" end.

Definition side_score (g : Ground) (st : Locals) : option Z :=
  match g with HOME => home_score st | AWAY => away_score st end.

Definition side_team (g : Ground) (st : Locals) : option Lineup.Team :=
  match g with HOME => home_team st | AWAY => away_team st end.

(** A player of the line-up whose optional key is present: the key that
    [_parse_team] reads for that player. *)
Definition well_keyed (player_data : PlayerData.t) : Prop :=
  if String.eqb (PlayerData.position player_data) "Substitute"
  then is_Some (PlayerData.subPosition player_data)
  else is_Some (PlayerData.formationPlace player_data).

(** [team] was parsed from the last contestant of side [g] and the entry
    of the line-up at that contestant's position. *)
Definition chosen (metadata : Metadata.t) (g : Ground) (team : Lineup.Team) : Prop :=
  exists (k : nat) contestant lineup_data,
    Metadata.contestant metadata !! k = Some contestant /\
    ContestantData.position contestant = side_name g /\
    (forall (k' : nat) contestant',
        (k < k')%nat -> Metadata.contestant metadata !! k' = Some contestant' ->
        ContestantData.position contestant' <> side_name g) /\
    Metadata.lineUp metadata !! k = Some lineup_data /\
    _parse_team contestant lineup_data = Return team.

(** Every contestant is parsed with the entry of "lineUp" at its
    position. *)
Definition parsed (metadata : Metadata.t) : Prop :=
  forall (k : nat) contestant,
    Metadata.contestant metadata !! k = Some contestant ->
    exists lineup_data team,
      Metadata.lineUp metadata !! k = Some lineup_data /\
      _parse_team contestant lineup_data = Return team.

End StatsPerformMetadata.

Module UefaLineup.

Import Uefa.

(** One entry of "field" or "bench": the keys [_parse_player] reads.
    "jerseyNumber" is handed on as it is. *)
Module PlayerElm.
Record t := {
  id : string;
  internationalName : string;
  jerseyNumber : Z;
  fieldPosition : string
}.
End PlayerElm.

(** "homeTeam" or "awayTeam": the keys [_parse_team] reads. *)
Module TeamElm.
Record t := {
  id : string;
  internationalName : string;
  field : list PlayerElm.t;
  bench : list PlayerElm.t
}.
End TeamElm.

Module LineupData.
Record t := { homeTeam : TeamElm.t; awayTeam : TeamElm.t }.
End LineupData.

Module Lineup.
Record Player := {
  player_id : string;
  name : string;
  jersey_no : Z;
  position : Position.t;
  starting : bool
}.
Record Team := {
  team_id : string;
  team_name : string;
  ground : Ground;
  players : list Player
}.
End Lineup.

(** Lines 63-76. *)
Definition _parse_player (player_elm : PlayerElm.t) (starting : bool) : Lineup.Player :=
  {| Lineup.player_id := PlayerElm.id player_elm;
     Lineup.name := PlayerElm.internationalName player_elm;
     Lineup.jersey_no := PlayerElm.jerseyNumber player_elm;
     Lineup.position :=
       {| Position.position_id := Some (PlayerElm.fieldPosition player_elm);
          Position.name := PlayerElm.fieldPosition player_elm |};
     Lineup.starting := starting |}.

(** Lines 79-92. *)
Definition _parse_team (team_elm : TeamElm.t) (ground : Ground) : Lineup.Team :=
  {| Lineup.team_id := TeamElm.id team_elm;
     Lineup.team_name := TeamElm.internationalName team_elm;
     Lineup.ground := ground;
     Lineup.players :=
       ((fun player_elm => _parse_player player_elm true) <$> TeamElm.field team_elm)
       ++ ((fun player_elm => _parse_player player_elm false) <$> TeamElm.bench team_elm) |}.

(** What the event loop reads of a team. *)
Definition to_domain (team : Lineup.Team) : Team :=
  {| team_id := Lineup.team_id team;
     players :=
       (fun player => {| player_id := Lineup.player_id player |})
         <$> Lineup.players team |}.

Section Deserializer.

Context `{Collaborators}.

(** [deserialize] from the two parsed documents: lines 153-155, then the
    line-up check and the event loop. *)
Definition deserialize (lineup_data : LineupData.t) (event_data : list EventElm.t)
    : Exc (EventDataset EventElm.t) :=
  let home_team := _parse_team (LineupData.homeTeam lineup_data) HOME in
  let away_team := _parse_team (LineupData.awayTeam lineup_data) AWAY in
  Uefa.deserialize (to_domain home_team) (to_domain away_team) event_data.

End Deserializer.

End UefaLineup.

(** ** Vocabulary of the properties *)

Definition started (p : Period.t) : Prop := is_Some (Period.start_timestamp p).
Definition ended (p : Period.t) : Prop := is_Some (Period.end_timestamp p).

#[global] Instance FormationType_eq_dec : EqDecision FormationType.
Proof. solve_decision. Defined.

Module StatsPerformTerms.

Import StatsPerform.

(** The event types built with a dead ball (lines 626-627 and 643-644). *)
Definition DEAD_BALL_EVENTS : list Z :=
  [ EVENT_TYPE_BALL_OUT; EVENT_TYPE_CORNER_AWARDED; EVENT_TYPE_CARD ].

(** The event types whose branch of the dispatcher can raise. *)
Definition FALLIBLE_EVENTS : list Z :=
  [ EVENT_TYPE_PASS; EVENT_TYPE_OFFSIDE_PASS; EVENT_TYPE_SHOT_GOAL;
    EVENT_TYPE_FORMATION_CHANGE ].

(** The exceptions of the parsers: anything but [IndexError] and
    [DeserializationError]. *)
Definition parser_error (err : Exception) : Prop :=
  match err with
  | IndexError | DeserializationError _ => False
  | _ => True
  end.

End StatsPerformTerms.

Module UefaTerms.

Import Uefa.

(** A record that opens a period: a [START_PHASE] with a timestamp. *)
Definition opens_period (r : EventElm.t) : Prop :=
  EventElm.type r = EVENT_TYPE_START_PERIOD /\ is_Some (EventElm.timestamp r).

#[global] Instance opens_period_dec r : Decision (opens_period r).
Proof. unfold opens_period. apply _. Defined.

(** What a period keeps once it is created: its id and its start. *)
Definition opening (p : Period.t) : Z * option datetime :=
  (Period.id p, Period.start_timestamp p).

Section Terms.

Context `{Collaborators}.

(** The opening that a [START_PHASE] record gives its period. *)
Definition opening_of (r : EventElm.t) (k : Z * option datetime) : Prop :=
  exists s ts,
    EventElm.timestamp r = Some s /\ fromisoformat s = Some ts /\
    phase_to_period PHASE_TO_PERIOD (EventElm.phase r) = Return k.1 /\
    k.2 = Some ts.

(** An emitted event, seen from the end of the run: it passed the
    inclusion filter, carries the id of its raw record, comes from no
    period marker, and its timestamp is relative to the start of the
    period it refers to in [periods]. *)
Definition emitted (periods : list Period.t) (e : Event EventElm.t) : Prop :=
  should_include_event e = true /\
  event_id (generic e) = EventElm.id (raw_event (generic e)) /\
  EventElm.type (raw_event (generic e)) <> EVENT_TYPE_START_PERIOD /\
  EventElm.type (raw_event (generic e)) <> EVENT_TYPE_END_PERIOD /\
  exists s ts n p start,
    EventElm.timestamp (raw_event (generic e)) = Some s /\
    fromisoformat s = Some ts /\
    phase_to_period PHASE_TO_PERIOD (EventElm.phase (raw_event (generic e)))
      = Return n /\
    period (generic e) = Z.to_nat (n - 1) /\
    periods !! period (generic e) = Some p /\
    Period.start_timestamp p = Some start /\
    timestamp (generic e) = ts - start.

End Terms.

End UefaTerms.

(** ** Sample documents *)

Module Documents.

Import Samples StatsPerform.

(** A pass of a team that is neither side, in a record that has a
    "team_id" key. *)
Definition pass_foreign_team : EventData.t :=
  {| EventData.id := "e2"; EventData.typeId := 1;
     EventData.timeStamp := "2024-05-01T18:00:05Z"; EventData.periodId := 1;
     EventData.contestantId := "t-other";
     EventData.x := 50%float; EventData.y := 50%float; EventData.outcome := 1;
     EventData.qualifier := receiver_50_50;
     EventData.playerId := Some "p1"; EventData.team_id := Some "t-other" |}.

(** An own goal (raw code 28) at x = 0.1, the binary64 number of the
    JSON number 0.1, and y = 50. *)
Definition own_goal_at_tenth : EventData.t :=
  record_at 0x1.999999999999ap-4%float 50%float "e2" 16 1 "2024-05-01T18:00:05Z"
    "t-home" [q 28 None].

(** A pass of period 1 at 5 s, followed by a start marker of period 1 at
    2 s. *)
Definition feed_pass_then_start : list EventData.t :=
  [ record "e1" 1 1 "2024-05-01T18:00:05Z" "t-home" receiver_50_50;
    record "e2" 32 1 "2024-05-01T18:00:02Z" "t-home" [] ].

(** A record of a type code outside the table of names. *)
Definition record_99 : EventData.t :=
  record "e2" 99 1 "2024-05-01T18:00:05Z" "t-home" [].

(** A card shown to the home team at 5 s. *)
Definition card_home : EventData.t :=
  record "e2" 17 1 "2024-05-01T18:00:05Z" "t-home" [q 33 None].

Import StatsPerformMetadata.

Definition keeper (id : string) : PlayerData.t :=
  {| PlayerData.playerId := id; PlayerData.shirtNumber := 1;
     PlayerData.firstName := "A"; PlayerData.lastName := "B";
     PlayerData.position := "Goalkeeper";
     PlayerData.formationPlace := Some "1"; PlayerData.subPosition := None |}.

Definition substitute (id : string) : PlayerData.t :=
  {| PlayerData.playerId := id; PlayerData.shirtNumber := 12;
     PlayerData.firstName := "C"; PlayerData.lastName := "D";
     PlayerData.position := "Substitute";
     PlayerData.formationPlace := None; PlayerData.subPosition := Some "Defender" |}.

Definition contestant_home : ContestantData.t :=
  {| ContestantData.id := "t-home"; ContestantData.name := "Home";
     ContestantData.position := "home" |}.

Definition contestant_away : ContestantData.t :=
  {| ContestantData.id := "t-away"; ContestantData.name := "Away";
     ContestantData.position := "away" |}.

Definition lineup_home : LineupData.t :=
  {| LineupData.formationUsed := "442";
     LineupData.player := [ keeper "p1"; substitute "p3" ] |}.

Definition lineup_away : LineupData.t :=
  {| LineupData.formationUsed := "433";
     LineupData.player := [ keeper "p2" ] |}.

(** A match that ended 2-1 for the home team. *)
Definition metadata : Metadata.t :=
  {| Metadata.contestant := [ contestant_home; contestant_away ];
     Metadata.lineUp := [ lineup_home; lineup_away ];
     Metadata.ft_home := 2; Metadata.ft_away := 1;
     Metadata.period := [ period1 ] |}.

(** The same match in a document that lists the away side only. *)
Definition metadata_away_only : Metadata.t :=
  {| Metadata.contestant := [ contestant_away ];
     Metadata.lineUp := [ lineup_away ];
     Metadata.ft_home := 2; Metadata.ft_away := 1;
     Metadata.period := [ period1 ] |}.

End Documents.

(** * Properties *)

(** ** The error monad and the loop *)

Lemma Exc_bind_Return {A B} (f : A -> Exc B) (m : Exc A) (b : B) :
  m ≫= f = Return b -> exists a, m = Return a /\ f a = Return b.
Proof. destruct m as [a|e]; simpl; [eauto | discriminate]. Qed.

Ltac inv_bind H :=
  let a := fresh "a" in
  let Ha := fresh "Ha" in
  apply Exc_bind_Return in H; destruct H as (a & Ha & H).

Lemma for_each_app {S R} (body : S -> R -> Exc S) (st : S) (l1 l2 : list R) :
  for_each body st (l1 ++ l2) = for_each body st l1 ≫= fun st' => for_each body st' l2.
Proof.
  revert st. induction l1 as [|r l1 IH]; intros st; simpl; [reflexivity|].
  destruct (body st r) as [st1|e]; simpl; [apply IH | reflexivity].
Qed.

(** An exception raised by the body at some record aborts the loop. *)
Lemma for_each_raise {S R} (body : S -> R -> Exc S) (st st' : S)
    (pre post : list R) (r : R) (e : Exception) :
  for_each body st pre = Return st' ->
  body st' r = Raise e ->
  for_each body st (pre ++ r :: post) = Raise e.
Proof.
  intros Hpre Hr. rewrite for_each_app, Hpre. simpl. rewrite Hr. reflexivity.
Qed.

(** ** The qualifier chains *)

Module ChainFacts.

Import StatsPerform ChainSpec.

Ltac unfold_codes :=
  unfold EVENT_QUALIFIER_GOAL_KICK, EVENT_QUALIFIER_FREE_KICK,
    EVENT_QUALIFIER_THROW_IN, EVENT_QUALIFIER_CORNER_KICK,
    EVENT_QUALIFIER_PENALTY, EVENT_QUALIFIER_KICK_OFF,
    EVENT_QUALIFIER_FREE_KICK_SHOT, EVENT_QUALIFIER_HEAD_PASS,
    EVENT_QUALIFIER_HEAD, EVENT_QUALIFIER_LEFT_FOOT,
    EVENT_QUALIFIER_RIGHT_FOOT, EVENT_QUALIFIER_OTHER_BODYPART,
    EVENT_QUALIFIER_LONG_BALL, EVENT_QUALIFIER_CROSS,
    EVENT_QUALIFIER_THROUGH_BALL, EVENT_QUALIFIER_CHIPPED_BALL,
    EVENT_QUALIFIER_LAUNCH, EVENT_QUALIFIER_FLICK_ON,
    EVENT_QUALIFIER_ASSIST, EVENT_QUALIFIER_ASSIST_2ND,
    EVENT_QUALIFIER_FIRST_YELLOW_CARD, EVENT_QUALIFIER_SECOND_YELLOW_CARD,
    EVENT_QUALIFIER_RED_CARD in *.

Ltac case_codes raw :=
  unfold_codes;
  repeat match goal with
         | |- context [contains raw ?k] => destruct (contains raw k)
         end;
  try reflexivity.

Lemma setpiece_refines (raw : RawQualifiers) :
  _get_event_setpiece_qualifiers raw = SetPieceQualifier <$> first_match setpiece_order raw.
Proof.
  unfold _get_event_setpiece_qualifiers, setpiece_order, first_match, present, existsb.
  case_codes raw.
Qed.

Lemma bodypart_refines (raw : RawQualifiers) :
  _get_event_bodypart_qualifiers raw = BodyPartQualifier <$> first_match bodypart_order raw.
Proof.
  unfold _get_event_bodypart_qualifiers, bodypart_order, first_match, present, existsb.
  case_codes raw.
Qed.

Lemma pass_refines (raw : RawQualifiers) :
  _get_event_pass_qualifiers raw = PassQualifier <$> first_match pass_order raw.
Proof.
  unfold _get_event_pass_qualifiers, pass_order, first_match, present, existsb.
  case_codes raw.
Qed.

Lemma card_refines (raw : RawQualifiers) :
  _get_event_card_qualifiers raw = CardQualifier <$> first_match card_order raw.
Proof.
  unfold _get_event_card_qualifiers, card_order, first_match, present, existsb.
  case_codes raw.
Qed.

Section FirstMatch.
Context {T : Type}.
Implicit Types (chain pre post : Chain T) (raw : RawQualifiers).

Lemma first_match_skip pre chain raw :
  Forall (fun check => present raw check.1 = false) pre ->
  first_match (pre ++ chain) raw = first_match chain raw.
Proof.
  induction 1 as [|[codes tag] pre Habsent _ IH]; simpl in *; [reflexivity|].
  rewrite Habsent. exact IH.
Qed.

Lemma first_match_wins pre post raw (hi : list Z * T) :
  Forall (fun check => present raw check.1 = false) pre ->
  present raw hi.1 = true ->
  first_match (pre ++ hi :: post) raw = [hi.2].
Proof.
  intros Hpre Hhi. rewrite first_match_skip by assumption.
  destruct hi as [codes tag]; simpl in *. rewrite Hhi. reflexivity.
Qed.

Lemma first_match_none chain raw :
  Forall (fun check => present raw check.1 = false) chain ->
  first_match chain raw = [].
Proof.
  intros H. rewrite <- (app_nil_r chain). rewrite first_match_skip by assumption.
  reflexivity.
Qed.

Lemma first_match_length chain raw : (length (first_match chain raw) <= 1)%nat.
Proof.
  induction chain as [|[codes tag] chain IH]; simpl; [lia|].
  destruct (present raw codes); simpl; lia.
Qed.

End FirstMatch.

(** C6: in every chain the first check, in the order of the
    specification, with a raw code present decides the qualifier, whatever
    lower-priority codes are present as well, and a chain attaches at most
    one qualifier.  The set-piece order is corner, free kick (raw codes 5
    and 26), penalty, throw-in, kick-off, goal kick; the pass order is
    cross, long ball, chipped, through ball, launch, flick-on, assist,
    second assist. *)
Theorem chain_precedence (raw : RawQualifiers) :
  (forall pre hi post,
      setpiece_order = pre ++ hi :: post ->
      Forall (fun check => present raw check.1 = false) pre ->
      present raw hi.1 = true ->
      _get_event_setpiece_qualifiers raw = [SetPieceQualifier hi.2]) /\
  (forall pre hi post,
      pass_order = pre ++ hi :: post ->
      Forall (fun check => present raw check.1 = false) pre ->
      present raw hi.1 = true ->
      _get_event_pass_qualifiers raw = [PassQualifier hi.2]) /\
  (forall pre hi post,
      bodypart_order = pre ++ hi :: post ->
      Forall (fun check => present raw check.1 = false) pre ->
      present raw hi.1 = true ->
      _get_event_bodypart_qualifiers raw = [BodyPartQualifier hi.2]) /\
  (forall pre hi post,
      card_order = pre ++ hi :: post ->
      Forall (fun check => present raw check.1 = false) pre ->
      present raw hi.1 = true ->
      _get_event_card_qualifiers raw = [CardQualifier hi.2]) /\
  (length (_get_event_setpiece_qualifiers raw) <= 1 /\
   length (_get_event_pass_qualifiers raw) <= 1 /\
   length (_get_event_bodypart_qualifiers raw) <= 1 /\
   length (_get_event_card_qualifiers raw) <= 1)%nat.
Proof.
  split; [|split; [|split; [|split]]].
  - intros pre hi post Heq Hpre Hhi.
    rewrite setpiece_refines, Heq, first_match_wins by assumption. reflexivity.
  - intros pre hi post Heq Hpre Hhi.
    rewrite pass_refines, Heq, first_match_wins by assumption. reflexivity.
  - intros pre hi post Heq Hpre Hhi.
    rewrite bodypart_refines, Heq, first_match_wins by assumption. reflexivity.
  - intros pre hi post Heq Hpre Hhi.
    rewrite card_refines, Heq, first_match_wins by assumption. reflexivity.
  - rewrite setpiece_refines, pass_refines, bodypart_refines, card_refines.
    rewrite !length_fmap. repeat split; apply first_match_length.
Qed.

(** A free kick (raw code 26) and a goal kick (124) on one event: only the
    free kick is attached; a long ball (1) and an assist (210): only the
    long ball. *)
Lemma chain_precedence_witness :
  let raw := raw_qualifiers_of [Samples.q 124 None; Samples.q 26 None;
                                Samples.q 210 None; Samples.q 1 None] in
  _get_event_setpiece_qualifiers raw = [SetPieceQualifier FREE_KICK] /\
  _get_event_pass_qualifiers raw = [PassQualifier PassType.LONG_BALL].
Proof.
  intros raw.
  destruct (chain_precedence raw) as (Hset & Hpass & _).
  split.
  - apply (Hset [([6], CORNER_KICK)] ([5; 26], FREE_KICK)
             [([9], PENALTY); ([107], THROW_IN); ([279], KICK_OFF); ([124], GOAL_KICK)]).
    + reflexivity.
    + repeat constructor.
    + vm_compute. reflexivity.
  - apply (Hpass [([2], PassType.CROSS)] ([1], PassType.LONG_BALL)
             [([155], PassType.CHIPPED_PASS); ([4], PassType.THROUGH_BALL);
              ([157], PassType.LAUNCH); ([168], PassType.FLICK_ON);
              ([210], PassType.ASSIST); ([218], PassType.ASSIST_2ND)]).
    + reflexivity.
    + repeat constructor.
    + vm_compute. reflexivity.
Defined.

End ChainFacts.

(** ** Stats Perform: the parsers and the dispatcher *)

Module StatsPerformFacts.

Import StatsPerform ChainSpec.

(** [n in qualifiers] never holds for a raw code [n]. *)
Lemma int_in_qualifiers_false (n : Z) (qs : list Qualifier) :
  int_in_qualifiers n qs = false.
Proof. induction qs as [|q qs IH]; simpl; [reflexivity | exact IH]. Qed.

(** X8: [_parse_card] tests the raw codes against the canonical
    qualifiers, so no branch of its card-type chain is ever taken, while
    the card chain of the qualifiers is evaluated on the raw codes. *)
Theorem _parse_card_card_type (raw : RawQualifiers) :
  CardKwargs.card_type (_parse_card raw) = None /\
  CardKwargs.qualifiers (_parse_card raw) = _get_event_qualifiers raw.
Proof.
  unfold _parse_card; simpl. rewrite !int_in_qualifiers_false. split; reflexivity.
Qed.

Section WithCollaborators.

Context `{Collaborators}.

Implicit Types (g : GenericEventKwargs EventData.t) (raw : RawQualifiers)
  (e : Event EventData.t) (c : Point).

Lemma dispatch_shot g raw type_id outcome c start :
  type_id ∈ SHOT_EVENTS ->
  dispatch g type_id raw outcome c start =
  goal_timestamp g type_id raw start ≫= fun g' =>
    Return (build_shot
              (set_coordinates g' (Some (ShotKwargs.coordinates (_parse_shot raw type_id c))))
              (ShotKwargs.result (_parse_shot raw type_id c))
              (Some (ShotKwargs.qualifiers (_parse_shot raw type_id c)))).
Proof.
  unfold SHOT_EVENTS. rewrite !elem_of_cons, elem_of_nil.
  intros [->|[->|[->|[->|[]]]]]; reflexivity.
Qed.

Lemma goal_timestamp_Return g g' raw type_id start :
  goal_timestamp g type_id raw start = Return g' ->
  exists ts, g' = set_timestamp g ts.
Proof.
  unfold goal_timestamp.
  destruct (type_id =? EVENT_TYPE_SHOT_GOAL).
  - destruct (raw !! 374) as [[s|]|]; [|discriminate|].
    + intros Hc. inv_bind Hc. injection Hc as <-. eauto.
    + intros [= <-]. exists (timestamp g). destruct g; reflexivity.
  - intros [= <-]. exists (timestamp g). destruct g; reflexivity.
Qed.

(** C7, as amended: the shot builder.  A goal with raw code 28 is an own
    goal at the mirrored coordinates (100 - x, 100 - y), each a
    floating-point subtraction; a goal without it is a goal at the
    coordinates of the record, and the other shot kinds have no result;
    the built shot event carries that result and those coordinates; it is
    built whenever the goal has no timestamp correction to parse.
    Mirroring takes (90, 10) to (10, 90) and (10, 90) back to (90, 10). *)
Theorem own_goal_mirroring raw c :
  (contains raw 28 = true ->
   _parse_shot raw EVENT_TYPE_SHOT_GOAL c =
   {| ShotKwargs.coordinates := {| x := 100 - x c; y := 100 - y c |}%float;
      ShotKwargs.result := Some ShotResult.OWN_GOAL;
      ShotKwargs.qualifiers := _get_event_qualifiers raw |}) /\
  (contains raw 28 = false ->
   _parse_shot raw EVENT_TYPE_SHOT_GOAL c =
   {| ShotKwargs.coordinates := c;
      ShotKwargs.result := Some ShotResult.GOAL;
      ShotKwargs.qualifiers := _get_event_qualifiers raw |}) /\
  (forall type_id,
      type_id <> EVENT_TYPE_SHOT_GOAL ->
      _parse_shot raw type_id c =
      {| ShotKwargs.coordinates := c;
         ShotKwargs.result := None;
         ShotKwargs.qualifiers := _get_event_qualifiers raw |}) /\
  (forall g type_id outcome start e,
      type_id ∈ SHOT_EVENTS ->
      dispatch g type_id raw outcome c start = Return e ->
      kind e = SHOT /\
      result e = OfShot <$> ShotKwargs.result (_parse_shot raw type_id c) /\
      coordinates (generic e) = Some (ShotKwargs.coordinates (_parse_shot raw type_id c))) /\
  (forall g type_id outcome start,
      type_id ∈ SHOT_EVENTS ->
      type_id <> EVENT_TYPE_SHOT_GOAL \/ raw !! 374 = None ->
      exists e, dispatch g type_id raw outcome c start = Return e) /\
  mirror {| x := 90; y := 10 |} = {| x := 10; y := 90 |} /\
  mirror {| x := 10; y := 90 |} = {| x := 90; y := 10 |}.
Proof.
  split; [|split; [|split; [|split; [|split; [|split]]]]].
  - intros H28. unfold _parse_shot. simpl. rewrite H28. reflexivity.
  - intros H28. unfold _parse_shot. simpl. rewrite H28. reflexivity.
  - intros type_id Hne. unfold _parse_shot.
    destruct (Z.eqb_spec type_id EVENT_TYPE_SHOT_GOAL); [contradiction | reflexivity].
  - intros g type_id outcome start e Hin Hd.
    rewrite dispatch_shot in Hd by assumption.
    inv_bind Hd. injection Hd as <-. simpl. auto.
  - intros g type_id outcome start Hin Hok.
    rewrite dispatch_shot by assumption.
    assert (goal_timestamp g type_id raw start = Return g) as ->.
    { unfold goal_timestamp. destruct Hok as [Hne | Hnone].
      - destruct (Z.eqb_spec type_id EVENT_TYPE_SHOT_GOAL); [contradiction | reflexivity].
      - rewrite Hnone. destruct (type_id =? EVENT_TYPE_SHOT_GOAL); reflexivity. }
    simpl. eauto.
  - reflexivity.
  - reflexivity.
Qed.

End WithCollaborators.

(** The own goal at (90, 10) of the sample feed is built at (10, 90). *)
Lemma own_goal_mirroring_witness :
  exists e,
    @dispatch Samples.statsperform
      (@make_generic_event_kwargs Samples.statsperform 0%nat 0 (Samples.sec 5)
         (Some Samples.home) Samples.home Feeds.own_goal)
      EVENT_TYPE_SHOT_GOAL (raw_qualifiers_of (EventData.qualifier Feeds.own_goal)) 1
      {| x := 90; y := 10 |} 0 = Return e /\
    result e = Some (OfShot ShotResult.OWN_GOAL) /\
    coordinates (generic e) = Some {| x := 10; y := 90 |}.
Proof.
  set (raw := raw_qualifiers_of (EventData.qualifier Feeds.own_goal)).
  set (c := {| x := 90; y := 10 |}%float).
  destruct (@own_goal_mirroring Samples.statsperform raw c)
    as (Hown & _ & _ & Hbuilt & Htotal & _).
  destruct (Htotal
              (@make_generic_event_kwargs Samples.statsperform 0%nat 0 (Samples.sec 5)
                 (Some Samples.home) Samples.home Feeds.own_goal) EVENT_TYPE_SHOT_GOAL 1 0)
    as [e He].
  { repeat constructor. }
  { right. reflexivity. }
  exists e. split; [exact He|].
  destruct (Hbuilt _ EVENT_TYPE_SHOT_GOAL 1 0 e ltac:(repeat constructor) He) as (_ & Hres & Hco).
  rewrite Hres, Hco, Hown by reflexivity. split; reflexivity.
Defined.

(** C7, counterexample: the subtractions of line 311 round.  The own goal
    of the sample record at x = 0.1 is built at the mirrored point, and
    mirroring that point again gives an x below 0.1: mirroring twice does
    not return the original point. *)
Lemma mirroring_twice_moves_the_point :
  let c := {| x := EventData.x Documents.own_goal_at_tenth;
              y := EventData.y Documents.own_goal_at_tenth |} in
  let raw := raw_qualifiers_of (EventData.qualifier Documents.own_goal_at_tenth) in
  contains raw 28 = true /\
  ShotKwargs.coordinates (_parse_shot raw EVENT_TYPE_SHOT_GOAL c) = mirror c /\
  ShotKwargs.result (_parse_shot raw EVENT_TYPE_SHOT_GOAL c)
    = Some ShotResult.OWN_GOAL /\
  (x (mirror (mirror c)) <? x c)%float = true /\
  mirror (mirror c) <> c.
Proof.
  intros c raw. repeat split; try reflexivity.
  intros Heq. apply (f_equal (fun p => (x p <? x c)%float)) in Heq.
  vm_compute in Heq. discriminate.
Qed.

(** *** Passes and the two receiver slots *)

Section Passes.

Context `{Collaborators}.

Implicit Types (g : GenericEventKwargs EventData.t) (raw : RawQualifiers)
  (e : Event EventData.t) (c : Point).

Lemma _parse_pass_eq raw outcome :
  _parse_pass raw outcome =
  receiver_point raw ≫= fun rc =>
    Return {| PassKwargs.result :=
                if outcome =? 0 then PassResult.INCOMPLETE else PassResult.COMPLETE;
              PassKwargs.receiver_coordinates := rc;
              PassKwargs.qualifiers := _get_event_qualifiers raw |}.
Proof.
  unfold _parse_pass.
  destruct (outcome =? 0); simpl; destruct (receiver_point raw); reflexivity.
Qed.

Lemma receiver_point_Return raw sx sy px py :
  raw !! 140 = Some (Some sx) -> float_of_str sx = Some px ->
  raw !! 141 = Some (Some sy) -> float_of_str sy = Some py ->
  receiver_point raw = Return {| x := px; y := py |}.
Proof.
  intros H140 Hx H141 Hy. unfold receiver_point, getitem, py_float.
  rewrite H140. simpl. rewrite Hx. simpl. rewrite H141. simpl. rewrite Hy.
  reflexivity.
Qed.

Lemma receiver_point_no_140 raw :
  raw !! 140 = None -> receiver_point raw = Raise (KeyError (KInt 140)).
Proof. intros H140. unfold receiver_point, getitem. rewrite H140. reflexivity. Qed.

Lemma receiver_point_no_141 raw v px :
  raw !! 140 = Some v -> py_float v = Return px -> raw !! 141 = None ->
  receiver_point raw = Raise (KeyError (KInt 141)).
Proof.
  intros H140 Hx H141. unfold receiver_point, getitem.
  rewrite H140. simpl. rewrite Hx. simpl. rewrite H141. reflexivity.
Qed.

Lemma receiver_point_needs_slots raw rc :
  receiver_point raw = Return rc -> is_Some (raw !! 140) /\ is_Some (raw !! 141).
Proof.
  unfold receiver_point, getitem. intros Hr.
  destruct (raw !! 140) as [v|]; [|discriminate]. simpl in Hr.
  destruct (py_float v); [|discriminate]. simpl in Hr.
  destruct (raw !! 141) as [w|]; [|discriminate]. eauto.
Qed.

Lemma receiver_point_raised raw :
  raw !! 140 = None \/ raw !! 141 = None -> raised (receiver_point raw).
Proof.
  intros Hlack. destruct (receiver_point raw) as [rc|err] eqn:Hr.
  - apply receiver_point_needs_slots in Hr as [[v Hv] [w Hw]].
    destruct Hlack; congruence.
  - exists err. reflexivity.
Qed.

Lemma dispatch_pass g raw outcome c start :
  dispatch g EVENT_TYPE_PASS raw outcome c start =
  receiver_point raw ≫= fun rc =>
    Return (build_pass g
              (if outcome =? 0 then PassResult.INCOMPLETE else PassResult.COMPLETE)
              rc (_get_event_qualifiers raw)).
Proof.
  unfold dispatch. simpl. rewrite _parse_pass_eq.
  destruct (receiver_point raw); reflexivity.
Qed.

Lemma dispatch_offside_pass g raw outcome c start :
  dispatch g EVENT_TYPE_OFFSIDE_PASS raw outcome c start =
  receiver_point raw ≫= fun rc =>
    Return (build_pass g PassResult.OFFSIDE rc (_get_event_qualifiers raw)).
Proof.
  unfold dispatch, _parse_offside_pass. simpl.
  destruct (receiver_point raw); reflexivity.
Qed.

Lemma receiver_point_inv raw rc :
  receiver_point raw = Return rc ->
  exists sx sy px py,
    raw !! 140 = Some (Some sx) /\ float_of_str sx = Some px /\
    raw !! 141 = Some (Some sy) /\ float_of_str sy = Some py /\
    rc = {| x := px; y := py |}.
Proof.
  unfold receiver_point, getitem, py_float. intros Hr.
  destruct (raw !! 140) as [[sx|]|]; try discriminate. simpl in Hr.
  destruct (float_of_str sx) as [px|] eqn:Hx; try discriminate. simpl in Hr.
  destruct (raw !! 141) as [[sy|]|]; try discriminate. simpl in Hr.
  destruct (float_of_str sy) as [py|] eqn:Hy; try discriminate. simpl in Hr.
  injection Hr as <-. exists sx, sy, px, py. repeat split; assumption.
Qed.

(** C8: a pass is COMPLETE when the outcome flag is not zero and
    INCOMPLETE when it is zero, an offside pass is OFFSIDE whatever the
    flag, and in all cases the receiver coordinates are the numbers of the
    raw slots 140 and 141: with the two slots present the events are built
    so, and every pass or offside pass that is built has them so. *)
Theorem pass_result_and_receiver g raw outcome c start :
  (forall sx sy px py,
      raw !! 140 = Some (Some sx) -> float_of_str sx = Some px ->
      raw !! 141 = Some (Some sy) -> float_of_str sy = Some py ->
      dispatch g EVENT_TYPE_PASS raw outcome c start =
        Return (build_pass g
                  (if outcome =? 0 then PassResult.INCOMPLETE else PassResult.COMPLETE)
                  {| x := px; y := py |} (_get_event_qualifiers raw)) /\
      dispatch g EVENT_TYPE_OFFSIDE_PASS raw outcome c start =
        Return (build_pass g PassResult.OFFSIDE {| x := px; y := py |}
                  (_get_event_qualifiers raw))) /\
  (forall e,
      dispatch g EVENT_TYPE_PASS raw outcome c start = Return e ->
      kind e = PASS /\
      result e =
        Some (OfPass (if outcome =? 0 then PassResult.INCOMPLETE
                      else PassResult.COMPLETE)) /\
      exists sx sy px py,
        raw !! 140 = Some (Some sx) /\ float_of_str sx = Some px /\
        raw !! 141 = Some (Some sy) /\ float_of_str sy = Some py /\
        receiver_coordinates e = Some {| x := px; y := py |}) /\
  (forall e,
      dispatch g EVENT_TYPE_OFFSIDE_PASS raw outcome c start = Return e ->
      kind e = PASS /\
      result e = Some (OfPass PassResult.OFFSIDE) /\
      exists sx sy px py,
        raw !! 140 = Some (Some sx) /\ float_of_str sx = Some px /\
        raw !! 141 = Some (Some sy) /\ float_of_str sy = Some py /\
        receiver_coordinates e = Some {| x := px; y := py |}).
Proof.
  split; [|split].
  - intros sx sy px py H140 Hx H141 Hy.
    rewrite dispatch_pass, dispatch_offside_pass.
    rewrite (receiver_point_Return raw sx sy px py) by assumption.
    split; reflexivity.
  - intros e Hd. rewrite dispatch_pass in Hd. inv_bind Hd. injection Hd as <-.
    destruct (receiver_point_inv _ _ Ha) as (sx & sy & px & py & ? & ? & ? & ? & ->).
    repeat split. exists sx, sy, px, py. auto.
  - intros e Hd. rewrite dispatch_offside_pass in Hd. inv_bind Hd. injection Hd as <-.
    destruct (receiver_point_inv _ _ Ha) as (sx & sy & px & py & ? & ? & ? & ? & ->).
    repeat split. exists sx, sy, px, py. auto.
Qed.

End Passes.

(** An incomplete pass (outcome 0) with the slots 140 and 141 at "50.0"
    and "10.5" has the receiver coordinates (50, 10.5). *)
Lemma pass_result_and_receiver_witness :
  let raw := raw_qualifiers_of [Samples.q 140 (Some "50.0"); Samples.q 141 (Some "10.5")] in
  let g := @make_generic_event_kwargs Samples.statsperform 0%nat 0 (Samples.sec 5)
             (Some Samples.home) Samples.home Feeds.start1 in
  @dispatch Samples.statsperform g EVENT_TYPE_PASS raw 0 {| x := 50; y := 50 |} 0 =
    Return (build_pass g PassResult.INCOMPLETE {| x := 50; y := 10.5 |} []) /\
  @dispatch Samples.statsperform g EVENT_TYPE_OFFSIDE_PASS raw 0 {| x := 50; y := 50 |} 0 =
    Return (build_pass g PassResult.OFFSIDE {| x := 50; y := 10.5 |} []).
Proof.
  intros raw g.
  apply (proj1 (@pass_result_and_receiver Samples.statsperform g raw 0
                  {| x := 50; y := 50 |} 0) "50.0" "10.5" 50%float 10.5%float);
    reflexivity.
Defined.

(** *** The dispatcher, branch by branch *)

Section Dispatcher.

Context `{Collaborators}.

Implicit Types (g : GenericEventKwargs EventData.t) (raw : RawQualifiers)
  (e : Event EventData.t) (c : Point).

Lemma _parse_take_on_result outcome :
  TakeOnKwargs.result (_parse_take_on outcome) =
  if outcome =? 0 then TakeOnResult.INCOMPLETE else TakeOnResult.COMPLETE.
Proof. unfold _parse_take_on. destruct (outcome =? 0); reflexivity. Qed.

Lemma _parse_shot_qualifiers raw type_id c :
  ShotKwargs.qualifiers (_parse_shot raw type_id c) = _get_event_qualifiers raw.
Proof.
  unfold _parse_shot.
  destruct (type_id =? EVENT_TYPE_SHOT_GOAL); [destruct (contains raw 28)|];
    reflexivity.
Qed.

Lemma dispatch_dispatched g raw outcome c start type_id e :
  dispatch g type_id raw outcome c start = Return e ->
  dispatched g raw outcome c start type_id e.
Proof.
  intros Hd.
  destruct (decide (type_id = EVENT_TYPE_PASS)) as [->|N1].
  { rewrite dispatch_pass in Hd. inv_bind Hd. injection Hd as <-.
    by constructor. }
  destruct (decide (type_id = EVENT_TYPE_OFFSIDE_PASS)) as [->|N2].
  { rewrite dispatch_offside_pass in Hd. inv_bind Hd. injection Hd as <-.
    by constructor. }
  destruct (decide (type_id = EVENT_TYPE_TAKE_ON)) as [->|N3].
  { injection Hd as <-. rewrite _parse_take_on_result. constructor. }
  destruct (decide (type_id ∈ SHOT_EVENTS)) as [Hshot|Nshot].
  { rewrite dispatch_shot in Hd by assumption. inv_bind Hd. injection Hd as <-.
    rewrite _parse_shot_qualifiers. by apply dispatched_shot. }
  unfold dispatch in Hd.
  rewrite (proj2 (Z.eqb_neq _ _) N1), (proj2 (Z.eqb_neq _ _) N2),
    (proj2 (Z.eqb_neq _ _) N3), (bool_decide_eq_false_2 _ Nshot) in Hd.
  destruct (Z.eqb_spec type_id EVENT_TYPE_RECOVERY) as [->|N49].
  { injection Hd as <-. constructor. }
  destruct (Z.eqb_spec type_id EVENT_TYPE_FOUL_COMMITTED) as [->|N4].
  { injection Hd as <-. constructor. }
  destruct (bool_decide (type_id ∈ BALL_OUT_EVENTS)) eqn:Hout.
  { injection Hd as <-. apply bool_decide_eq_true_1 in Hout. by constructor. }
  apply bool_decide_eq_false_1 in Hout.
  destruct (Z.eqb_spec type_id EVENT_TYPE_FORMATION_CHANGE) as [->|N40].
  { inv_bind Hd. injection Hd as <-. by constructor. }
  destruct (Z.eqb_spec type_id EVENT_TYPE_CARD) as [->|N17].
  { injection Hd as <-. constructor. }
  injection Hd as <-. apply dispatched_generic.
  unfold DISPATCHED_EVENTS, SHOT_EVENTS, BALL_OUT_EVENTS in *.
  rewrite !elem_of_cons, elem_of_nil in *. tauto.
Qed.

Lemma dispatched_dispatch g raw outcome c start type_id e :
  dispatched g raw outcome c start type_id e ->
  dispatch g type_id raw outcome c start = Return e.
Proof.
  destruct 1 as [rc Hrc|rc Hrc| |t g' Hshot Hg'| | |t Hout|f Hf| |t Hnot].
  - rewrite dispatch_pass, Hrc. reflexivity.
  - rewrite dispatch_offside_pass, Hrc. reflexivity.
  - unfold dispatch; simpl. rewrite _parse_take_on_result. reflexivity.
  - rewrite dispatch_shot, Hg', _parse_shot_qualifiers by assumption. reflexivity.
  - reflexivity.
  - reflexivity.
  - unfold BALL_OUT_EVENTS in Hout. rewrite !elem_of_cons, elem_of_nil in Hout.
    destruct Hout as [->|[->|[]]]; reflexivity.
  - unfold dispatch; simpl. rewrite Hf. reflexivity.
  - reflexivity.
  - unfold DISPATCHED_EVENTS in Hnot. rewrite !not_elem_of_cons in Hnot.
    destruct Hnot as (N1 & N2 & N3 & N13 & N14 & N15 & N16 & N49 & N4 & N5 & N6 & N40 & N17 & _).
    unfold dispatch.
    rewrite (proj2 (Z.eqb_neq _ _) N1), (proj2 (Z.eqb_neq _ _) N2),
      (proj2 (Z.eqb_neq _ _) N3), (proj2 (Z.eqb_neq _ _) N49),
      (proj2 (Z.eqb_neq _ _) N4), (proj2 (Z.eqb_neq _ _) N40),
      (proj2 (Z.eqb_neq _ _) N17).
    rewrite !bool_decide_eq_false_2; [reflexivity | |].
    + unfold BALL_OUT_EVENTS. rewrite !not_elem_of_cons. auto using not_elem_of_nil.
    + unfold SHOT_EVENTS. rewrite !not_elem_of_cons. auto using not_elem_of_nil.
Qed.

(** The dispatcher leaves the period, the possession value, the team and
    the identifier of the generic keywords as they are. *)
Lemma dispatch_frame g raw outcome c start type_id e :
  dispatch g type_id raw outcome c start = Return e ->
  period (generic e) = period g /\
  ball_owning_team (generic e) = ball_owning_team g /\
  team (generic e) = team g /\
  event_id (generic e) = event_id g /\
  raw_event (generic e) = raw_event g.
Proof.
  intros Hd%dispatch_dispatched.
  destruct Hd as [rc Hrc|rc Hrc| |t g' Hshot Hg'| | |t Hout|f Hf| |t Hnot];
    simpl; auto.
  apply goal_timestamp_Return in Hg' as [ts ->]. simpl. auto.
Qed.

End Dispatcher.

(** *** The loop *)

Section Loop.

Context `{Collaborators}.

Implicit Types (g : GenericEventKwargs EventData.t) (raw : RawQualifiers)
  (e : Event EventData.t) (c : Point) (r : EventData.t) (st : State)
  (home away : Team).

Lemma process_record_retained home away periods poss r ts i start team :
  retained home away periods r ts i start team ->
  process_record home away periods poss r =
  dispatch
    (make_generic_event_kwargs i start ts
       (update_possession poss (EventData.typeId r) team) team r)
    (EventData.typeId r) (raw_qualifiers_of (EventData.qualifier r))
    (EventData.outcome r) {| x := EventData.x r; y := EventData.y r |} start
  ≫= fun e => Return (Built (update_possession poss (EventData.typeId r) team) e).
Proof.
  intros (Hts & Nstart & Nend & (p & Hfind & Hstart) & Hteam).
  unfold process_record. rewrite Hts; simpl. rewrite Hfind.
  rewrite (proj2 (Z.eqb_neq _ _) Nstart), (proj2 (Z.eqb_neq _ _) Nend).
  rewrite Hstart, Hteam. reflexivity.
Qed.

Lemma process_record_Built home away periods poss r poss' e :
  process_record home away periods poss r = Return (Built poss' e) ->
  exists ts i start team,
    retained home away periods r ts i start team /\
    poss' = update_possession poss (EventData.typeId r) team /\
    dispatch (make_generic_event_kwargs i start ts poss' team r)
      (EventData.typeId r) (raw_qualifiers_of (EventData.qualifier r))
      (EventData.outcome r) {| x := EventData.x r; y := EventData.y r |} start
    = Return e.
Proof.
  unfold process_record. intros Hp.
  destruct (try_parsing_date (EventData.timeStamp r)) as [ts|] eqn:Hts;
    [simpl in Hp | discriminate].
  destruct (find_period periods (EventData.periodId r)) as [[i p]|] eqn:Hfind;
    [|discriminate].
  destruct (Z.eqb_spec (EventData.typeId r) EVENT_TYPE_START_PERIOD);
    [discriminate|].
  destruct (Z.eqb_spec (EventData.typeId r) EVENT_TYPE_END_PERIOD);
    [discriminate|].
  destruct (Period.start_timestamp p) as [start|] eqn:Hstart; [|discriminate].
  destruct (resolve_team home away r) as [team|] eqn:Hteam;
    [simpl in Hp | discriminate].
  inv_bind Hp. injection Hp as <- <-.
  exists ts, i, start, team. repeat split; eauto.
Qed.

(** A record whose period is not tracked is skipped. *)
Lemma process_record_unknown_period home away periods poss r ts :
  try_parsing_date (EventData.timeStamp r) = Return ts ->
  find_period periods (EventData.periodId r) = None ->
  process_record home away periods poss r = Return Skipped.
Proof.
  intros Hts Hfind. unfold process_record. rewrite Hts; simpl. rewrite Hfind.
  reflexivity.
Qed.

(** A record that is no marker and whose period has no start timestamp is
    skipped. *)
Lemma process_record_not_started home away periods poss r ts i p :
  try_parsing_date (EventData.timeStamp r) = Return ts ->
  find_period periods (EventData.periodId r) = Some (i, p) ->
  EventData.typeId r <> EVENT_TYPE_START_PERIOD ->
  EventData.typeId r <> EVENT_TYPE_END_PERIOD ->
  Period.start_timestamp p = None ->
  process_record home away periods poss r = Return Skipped.
Proof.
  intros Hts Hfind Nstart Nend Hnone. unfold process_record.
  rewrite Hts; simpl. rewrite Hfind.
  rewrite (proj2 (Z.eqb_neq _ _) Nstart), (proj2 (Z.eqb_neq _ _) Nend), Hnone.
  reflexivity.
Qed.

(** A skipped record leaves the whole state as it is. *)
Lemma loop_body_Skipped home away st r :
  process_record home away (periods st) (possession_team st) r = Return Skipped ->
  loop_body home away st r = Return st.
Proof. intros Hp. unfold loop_body. rewrite Hp. reflexivity. Qed.

Lemma loop_body_raise home away st r ts i start team err :
  retained home away (periods st) r ts i start team ->
  dispatch
    (make_generic_event_kwargs i start ts
       (update_possession (possession_team st) (EventData.typeId r) team) team r)
    (EventData.typeId r) (raw_qualifiers_of (EventData.qualifier r))
    (EventData.outcome r) {| x := EventData.x r; y := EventData.y r |} start
  = Raise err ->
  loop_body home away st r = Raise err.
Proof.
  intros Hret Hd. unfold loop_body.
  rewrite (process_record_retained _ _ _ _ _ _ _ _ _ Hret), Hd. reflexivity.
Qed.

Lemma deserialize_raise home away period_data periods0 pre r post st err :
  players home <> [] -> players away <> [] ->
  parse_periods period_data = Return periods0 ->
  for_each (loop_body home away) (initial_state periods0) pre = Return st ->
  loop_body home away st r = Raise err ->
  deserialize home away period_data (pre ++ r :: post) = Raise err.
Proof.
  intros Hh Ha Hper Hpre Hr. unfold deserialize.
  destruct (players home); [contradiction|].
  destruct (players away); [contradiction|]. simpl.
  rewrite Hper; simpl.
  rewrite (for_each_raise _ _ _ _ _ _ _ Hpre Hr). reflexivity.
Qed.

(** Every record of the output is the transform of an event that the
    dispatcher built for some record of the feed, in the state the loop
    had reached before that record. *)
Lemma events_provenance home away rs : forall st st' e',
  for_each (loop_body home away) st rs = Return st' ->
  e' ∈ events st' ->
  e' ∈ events st \/
  exists pre r post st_r poss' e,
    rs = pre ++ r :: post /\
    for_each (loop_body home away) st pre = Return st_r /\
    process_record home away (periods st_r) (possession_team st_r) r
      = Return (Built poss' e) /\
    should_include_event e = true /\
    e' = transform_event e.
Proof.
  induction rs as [|r rs IH]; intros st st' e' Hrun Hin; simpl in Hrun.
  - injection Hrun as <-. by left.
  - inv_bind Hrun. rename a into st1.
    destruct (IH _ _ _ Hrun Hin) as [Hin1 | (pre & r' & post & st_r & poss' & e & -> & Hpre & Hp & Hinc & ->)].
    + unfold loop_body in Ha. inv_bind Ha. injection Ha as <-.
      destruct a as [|periods'|poss' e]; simpl in Hin1; [by left | by left |].
      unfold append_event in Hin1.
      destruct (should_include_event e) eqn:Hinc; [|by left].
      apply elem_of_app in Hin1 as [Hold | Hnew]; [by left|].
      apply list_elem_of_singleton in Hnew as ->.
      right. exists [], r, rs, st, poss', e. by repeat split.
    + right. exists (r :: pre), r', post, st_r, poss', e.
      repeat split; try done. simpl. rewrite Ha. exact Hpre.
Qed.

Lemma dispatch_timestamp g raw outcome c start type_id e :
  dispatch g type_id raw outcome c start = Return e ->
  match (if type_id =? EVENT_TYPE_SHOT_GOAL then raw !! 374 else None) with
  | Some v =>
      exists s corrected,
        v = Some s /\
        try_parsing_date (replace_space_T s ++ "Z")%string = Return corrected /\
        timestamp (generic e) = corrected - start
  | None => timestamp (generic e) = timestamp g
  end.
Proof.
  intros Hd%dispatch_dispatched.
  destruct Hd as [rc Hrc|rc Hrc| |t g' Hshot Hg'| | |t Hout|f Hf| |t Hnot];
    try reflexivity.
  - unfold goal_timestamp in Hg'. simpl.
    destruct (t =? EVENT_TYPE_SHOT_GOAL).
    + destruct (raw !! 374) as [[s|]|]; [|discriminate|].
      * inv_bind Hg'. injection Hg' as <-. exists s, a. auto.
      * by injection Hg' as <-.
    + by injection Hg' as <-.
  - unfold BALL_OUT_EVENTS in Hout. rewrite !elem_of_cons, elem_of_nil in Hout.
    destruct Hout as [->|[->|[]]]; reflexivity.
  - assert (t <> EVENT_TYPE_SHOT_GOAL) as N16.
    { intros ->. apply Hnot. unfold DISPATCHED_EVENTS. repeat constructor. }
    rewrite (proj2 (Z.eqb_neq _ _) N16). reflexivity.
Qed.

Lemma dispatch_qualifiers g raw outcome c start type_id e :
  dispatch g type_id raw outcome c start = Return e ->
  qualifiers e =
  if bool_decide (type_id ∈ QUALIFIED_EVENTS) then Some (_get_event_qualifiers raw)
  else None.
Proof.
  intros Hd%dispatch_dispatched.
  destruct Hd as [rc Hrc|rc Hrc| |t g' Hshot Hg'| | |t Hout|f Hf| |t Hnot];
    try reflexivity.
  - unfold SHOT_EVENTS in Hshot. rewrite !elem_of_cons, elem_of_nil in Hshot.
    destruct Hshot as [->|[->|[->|[->|[]]]]]; reflexivity.
  - unfold BALL_OUT_EVENTS in Hout. rewrite !elem_of_cons, elem_of_nil in Hout.
    destruct Hout as [->|[->|[]]]; reflexivity.
  - rewrite bool_decide_eq_false_2; [reflexivity|].
    unfold DISPATCHED_EVENTS in Hnot. unfold QUALIFIED_EVENTS.
    rewrite !not_elem_of_cons in *. intuition.
Qed.

(** A marker overwrites one timestamp of the first period with its id;
    the first period with the id [k] stays where it is. *)
Lemma find_period_insert (periods : list Period.t) k (i j : nat) p q q' :
  find_period periods k = Some (i, p) ->
  periods !! j = Some q -> Period.id q' = Period.id q ->
  exists p',
    find_period (<[j := q']> periods) k = Some (i, p') /\
    p' = if decide (i = j) then q' else p.
Proof.
  unfold find_period. intros (Hi & Hid & Hfirst)%list_find_Some Hj Hq'.
  exists (if decide (i = j) then q' else p). split; [|reflexivity].
  apply list_find_Some. split; [|split].
  - destruct (decide (i = j)) as [->|Hne].
    + apply list_lookup_insert_eq. by eapply lookup_lt_Some.
    + by rewrite list_lookup_insert_ne.
  - destruct (decide (i = j)) as [->|Hne]; [|exact Hid].
    rewrite Hq'. congruence.
  - intros j' y Hy Hlt.
    destruct (decide (j = j')) as [->|Hne].
    + rewrite list_lookup_insert_eq in Hy by (by eapply lookup_lt_Some).
      injection Hy as <-. rewrite Hq'. by eapply Hfirst.
    + rewrite list_lookup_insert_ne in Hy by assumption. by eapply Hfirst.
Qed.

(** One iteration keeps the start of the first period with the id [k],
    unless its record is a start marker of that id. *)
Lemma loop_body_start_kept home away st r st' k i p :
  loop_body home away st r = Return st' ->
  find_period (periods st) k = Some (i, p) ->
  (EventData.typeId r = EVENT_TYPE_START_PERIOD -> EventData.periodId r <> k) ->
  exists p',
    find_period (periods st') k = Some (i, p') /\
    Period.start_timestamp p' = Period.start_timestamp p.
Proof.
  unfold loop_body. intros Hl Hfind Hstart. inv_bind Hl. injection Hl as <-.
  destruct a as [|periods'|poss' e]; simpl; [eauto| |eauto].
  unfold process_record in Ha.
  destruct (try_parsing_date (EventData.timeStamp r)) as [ts|]; [simpl in Ha | discriminate].
  destruct (find_period (periods st) (EventData.periodId r)) as [[j q]|] eqn:Hr;
    [|discriminate].
  assert (periods st !! j = Some q /\ Period.id q = EventData.periodId r) as [Hj Hq]
    by (unfold find_period in Hr; apply list_find_Some in Hr as (? & ? & _); auto).
  assert (periods st !! i = Some p) as Hi
    by (unfold find_period in Hfind; by apply list_find_Some in Hfind as (? & _)).
  destruct (Z.eqb_spec (EventData.typeId r) EVENT_TYPE_START_PERIOD) as [Hs|Ns].
  { injection Ha as <-.
    destruct (find_period_insert _ _ _ j _ q (Period.set_start q ts) Hfind Hj eq_refl)
      as (p' & Hp' & ->).
    eexists. split; [exact Hp'|].
    destruct (decide (i = j)) as [->|Hne]; [|reflexivity].
    exfalso. apply (Hstart Hs). rewrite <- Hq.
    unfold find_period in Hfind. apply list_find_Some in Hfind as (_ & Hid & _).
    congruence. }
  destruct (Z.eqb_spec (EventData.typeId r) EVENT_TYPE_END_PERIOD) as [He|Ne].
  { injection Ha as <-.
    destruct (find_period_insert _ _ _ j _ q (Period.set_end q ts) Hfind Hj eq_refl)
      as (p' & Hp' & ->).
    eexists. split; [exact Hp'|].
    destruct (decide (i = j)) as [->|Hne]; [|reflexivity].
    simpl. congruence. }
  destruct (Period.start_timestamp q); [|discriminate].
  destruct (resolve_team home away r); [simpl in Ha | discriminate].
  destruct (dispatch _ _ _ _ _ _); discriminate.
Qed.

Lemma for_each_start_kept home away k i rs : forall st st' p,
  for_each (loop_body home away) st rs = Return st' ->
  find_period (periods st) k = Some (i, p) ->
  Forall (fun r => EventData.typeId r = EVENT_TYPE_START_PERIOD ->
                   EventData.periodId r <> k) rs ->
  exists p',
    find_period (periods st') k = Some (i, p') /\
    Period.start_timestamp p' = Period.start_timestamp p.
Proof.
  induction rs as [|r rs IH]; intros st st' p Hrun Hfind Hall; simpl in Hrun.
  - injection Hrun as <-. eauto.
  - inv_bind Hrun. apply Forall_cons in Hall as [Hr Hall].
    destruct (loop_body_start_kept _ _ _ _ _ _ _ _ Ha Hfind Hr) as (p1 & Hfind1 & Hs1).
    destruct (IH _ _ _ Hrun Hfind1 Hall) as (p' & Hfind' & Hs').
    exists p'. split; [exact Hfind' | congruence].
Qed.

(** C9, as amended: every record of the output is the transform of an
    event built for a record of the feed, and the relative timestamp of
    that event is the absolute timestamp of the record minus the start
    timestamp that the period of the record (the first tracked period
    with its id, to which the event refers) had when the record was
    processed; for a goal (type 16) whose raw qualifiers hold slot 374 it
    is instead the date parsed from that slot (with the blank replaced by
    "T" and "Z" appended) minus that start timestamp.  That start is the
    start of the same period in the returned dataset when no start marker
    of the period follows the record in the feed. *)
Theorem relative_timestamp home away period_data event ds e' :
  deserialize home away period_data event = Return ds ->
  e' ∈ records ds ->
  exists pre r post periods0 st poss' e ts i p start,
    event = pre ++ r :: post /\
    parse_periods period_data = Return periods0 /\
    for_each (loop_body home away) (initial_state periods0) pre = Return st /\
    process_record home away (periods st) (possession_team st) r
      = Return (Built poss' e) /\
    e' = transform_event e /\
    try_parsing_date (EventData.timeStamp r) = Return ts /\
    find_period (periods st) (EventData.periodId r) = Some (i, p) /\
    period (generic e) = i /\
    Period.start_timestamp p = Some start /\
    match (if EventData.typeId r =? EVENT_TYPE_SHOT_GOAL
           then raw_qualifiers_of (EventData.qualifier r) !! 374 else None) with
    | Some v =>
        exists s corrected,
          v = Some s /\
          try_parsing_date (replace_space_T s ++ "Z")%string = Return corrected /\
          timestamp (generic e) = corrected - start
    | None => timestamp (generic e) = ts - start
    end /\
    (Forall (fun r' => EventData.typeId r' = EVENT_TYPE_START_PERIOD ->
                       EventData.periodId r' <> EventData.periodId r) post ->
     exists p',
       Domain.periods ds !! period (generic e) = Some p' /\
       Period.start_timestamp p' = Some start).
Proof.
  unfold deserialize. intros Hd Hin.
  destruct (_ || _); [discriminate|].
  inv_bind Hd. rename a into periods0, Ha into Hper.
  inv_bind Hd. rename a into st', Ha into Hrun.
  injection Hd as <-. simpl in Hin.
  destruct (events_provenance _ _ _ _ _ _ Hrun Hin)
    as [Hnil | (pre & r & post & st & poss' & e & -> & Hpre & Hp & _ & ->)].
  { simpl in Hnil. by apply elem_of_nil in Hnil. }
  destruct (process_record_Built _ _ _ _ _ _ _ Hp)
    as (ts & i & start & team & Hret & _ & Hdisp).
  destruct Hret as (Hts & _ & _ & (p & Hfind & Hstart) & _).
  assert (period (generic e) = i) as Hperiod
    by (by destruct (dispatch_frame _ _ _ _ _ _ _ Hdisp) as (-> & _)).
  exists pre, r, post, periods0, st, poss', e, ts, i, p, start.
  split; [reflexivity|]. split; [exact Hper|]. split; [exact Hpre|].
  split; [exact Hp|]. split; [reflexivity|]. split; [exact Hts|].
  split; [exact Hfind|]. split; [exact Hperiod|]. split; [exact Hstart|].
  split; [apply dispatch_timestamp in Hdisp; exact Hdisp|].
  intros Hpost. simpl.
  rewrite for_each_app, Hpre in Hrun. cbn [mbind Exc_bind for_each] in Hrun.
  inv_bind Hrun. rename a into st1, Ha into Hl.
  assert (periods st1 = periods st) as Hsame.
  { unfold loop_body in Hl. rewrite Hp in Hl. by injection Hl as <-. }
  rewrite <- Hsame in Hfind.
  destruct (for_each_start_kept _ _ _ _ _ _ _ _ Hrun Hfind Hpost) as (p' & Hfind' & Hs').
  exists p'. rewrite Hperiod. split; [|congruence].
  unfold find_period in Hfind'. by apply list_find_Some in Hfind' as (? & _).
Qed.

(** C5, as amended: the event built for a retained record carries the
    results of the four chains, in the order set piece, body part, pass,
    card, when the record is a pass, an offside pass, a shot or a card;
    for every other kind (take-on, recovery, foul, ball out, formation
    change, generic) its qualifiers are null.  A chain none of whose raw
    codes is present contributes no qualifier. *)
Theorem qualifiers_by_event_kind home away periods poss r poss' e :
  process_record home away periods poss r = Return (Built poss' e) ->
  let raw := raw_qualifiers_of (EventData.qualifier r) in
  (EventData.typeId r ∈ QUALIFIED_EVENTS ->
   qualifiers e =
   Some (_get_event_setpiece_qualifiers raw ++ _get_event_bodypart_qualifiers raw
         ++ _get_event_pass_qualifiers raw ++ _get_event_card_qualifiers raw)) /\
  (EventData.typeId r ∉ QUALIFIED_EVENTS -> qualifiers e = None) /\
  (Forall (fun check => present raw check.1 = false) setpiece_order ->
   _get_event_setpiece_qualifiers raw = []) /\
  (Forall (fun check => present raw check.1 = false) bodypart_order ->
   _get_event_bodypart_qualifiers raw = []) /\
  (Forall (fun check => present raw check.1 = false) pass_order ->
   _get_event_pass_qualifiers raw = []) /\
  (Forall (fun check => present raw check.1 = false) card_order ->
   _get_event_card_qualifiers raw = []).
Proof.
  intros Hp raw.
  destruct (process_record_Built _ _ _ _ _ _ _ Hp)
    as (ts & i & start & team & _ & _ & Hdisp).
  apply dispatch_qualifiers in Hdisp. fold raw in Hdisp.
  split; [|split; [|split; [|split; [|split]]]].
  - intros Hin. by rewrite Hdisp, bool_decide_eq_true_2.
  - intros Hnot. by rewrite Hdisp, bool_decide_eq_false_2.
  - intros Habs. by rewrite ChainFacts.setpiece_refines, ChainFacts.first_match_none.
  - intros Habs. by rewrite ChainFacts.bodypart_refines, ChainFacts.first_match_none.
  - intros Habs. by rewrite ChainFacts.pass_refines, ChainFacts.first_match_none.
  - intros Habs. by rewrite ChainFacts.card_refines, ChainFacts.first_match_none.
Qed.

(** C10, as amended: a pass or offside pass that reaches its builder
    without slot 140, or with a slot 140 that converts to a number and
    without slot 141, aborts the whole call with the [KeyError] of the
    missing slot; whenever one of the two slots is missing the call
    raises and builds nothing, and the pass builders return only when both
    slots are present. *)
Theorem missing_receiver_slot_aborts
    home away period_data periods0 pre r post st ts i start team :
  players home <> [] -> players away <> [] ->
  parse_periods period_data = Return periods0 ->
  for_each (loop_body home away) (initial_state periods0) pre = Return st ->
  retained home away (periods st) r ts i start team ->
  EventData.typeId r = EVENT_TYPE_PASS \/
  EventData.typeId r = EVENT_TYPE_OFFSIDE_PASS ->
  let raw := raw_qualifiers_of (EventData.qualifier r) in
  let call := deserialize home away period_data (pre ++ r :: post) in
  (raw !! 140 = None -> call = Raise (KeyError (KInt 140))) /\
  (forall v px,
      raw !! 140 = Some v -> py_float v = Return px -> raw !! 141 = None ->
      call = Raise (KeyError (KInt 141))) /\
  (raw !! 140 = None \/ raw !! 141 = None -> raised call) /\
  (forall outcome kw,
      _parse_pass raw outcome = Return kw \/ _parse_offside_pass raw = Return kw ->
      is_Some (raw !! 140) /\ is_Some (raw !! 141)).
Proof.
  intros Hh Ha Hper Hpre Hret Htype raw call.
  assert (forall err, receiver_point raw = Raise err -> call = Raise err) as Habort.
  { intros err Hrc. unfold call.
    eapply deserialize_raise; eauto.
    eapply loop_body_raise; eauto. fold raw.
    destruct Htype as [-> | ->].
    - rewrite dispatch_pass, Hrc. reflexivity.
    - rewrite dispatch_offside_pass, Hrc. reflexivity. }
  split; [|split; [|split]].
  - intros H140. by apply Habort, receiver_point_no_140.
  - intros v px H140 Hx H141. by eapply Habort, receiver_point_no_141.
  - intros Hlack. destruct (receiver_point_raised raw Hlack) as [err Herr].
    exists err. by apply Habort.
  - intros outcome kw [Hk | Hk].
    + rewrite _parse_pass_eq in Hk. inv_bind Hk.
      by eapply receiver_point_needs_slots.
    + unfold _parse_offside_pass in Hk. inv_bind Hk.
      by eapply receiver_point_needs_slots.
Qed.

End Loop.

(** *** Possession and skipped records *)

Section Possession.

Context `{Collaborators}.

Implicit Types (e : Event EventData.t) (r : EventData.t) (st : State)
  (home away : Team).

Lemma built_possession home away periods poss r poss' e :
  process_record home away periods poss r = Return (Built poss' e) ->
  ball_owning_team (generic e) = poss' /\
  (EventData.typeId r ∈ BALL_OWNING_EVENTS -> poss' = team (generic e)) /\
  (EventData.typeId r ∉ BALL_OWNING_EVENTS -> poss' = poss).
Proof.
  intros Hp.
  destruct (process_record_Built _ _ _ _ _ _ _ Hp)
    as (ts & i & start & tm & _ & Hposs & Hdisp).
  destruct (dispatch_frame _ _ _ _ _ _ _ Hdisp) as (_ & Hown & Hteam & _).
  simpl in Hown, Hteam. rewrite Hown, Hteam. split; [reflexivity|].
  unfold update_possession in Hposs. split; intros Hin.
  - by rewrite bool_decide_eq_true_2 in Hposs.
  - by rewrite bool_decide_eq_false_2 in Hposs.
Qed.

Lemma loop_body_possession home away st r st' :
  loop_body home away st r = Return st' ->
  (EventData.typeId r ∉ BALL_OWNING_EVENTS ->
   possession_team st' = possession_team st) /\
  (forall poss' e,
      process_record home away (periods st) (possession_team st) r
        = Return (Built poss' e) ->
      possession_team st' = poss').
Proof.
  unfold loop_body. intros Hl. inv_bind Hl. injection Hl as <-. split.
  - intros Hnot. destruct a as [|periods'|poss' e]; try reflexivity.
    simpl. by apply (built_possession _ _ _ _ _ _ _ Ha).
  - intros poss' e Hp. rewrite Hp in Ha. by injection Ha as <-.
Qed.

(** X1: the possession tracker of the Stats Perform loop.  The value
    starts as null; a record whose type is not possession-transferring
    leaves it as it is; a record that builds an event sets it to the
    acting team when its type is possession-transferring, and the event
    built carries the resulting value as its ball-owning team. *)
Theorem possession_tracking home away st r st' :
  loop_body home away st r = Return st' ->
  (EventData.typeId r ∉ BALL_OWNING_EVENTS ->
   possession_team st' = possession_team st) /\
  (forall poss' e,
      process_record home away (periods st) (possession_team st) r
        = Return (Built poss' e) ->
      possession_team st' = poss' /\
      ball_owning_team (generic e) = poss' /\
      (EventData.typeId r ∈ BALL_OWNING_EVENTS -> poss' = team (generic e)) /\
      (EventData.typeId r ∉ BALL_OWNING_EVENTS -> poss' = possession_team st)) /\
  (forall periods0, possession_team (initial_state periods0) = None).
Proof.
  intros Hl. destruct (loop_body_possession _ _ _ _ _ Hl) as (Hkeep & Hset).
  split; [exact Hkeep|]. split; [|reflexivity].
  intros poss' e Hp. split; [by eapply Hset|].
  by apply (built_possession _ _ _ _ _ _ _ Hp).
Qed.

Lemma no_transfer_keeps_null home away rs : forall st st',
  Forall (fun r => EventData.typeId r ∉ BALL_OWNING_EVENTS) rs ->
  for_each (loop_body home away) st rs = Return st' ->
  possession_team st = None ->
  possession_team st' = None.
Proof.
  induction rs as [|r rs IH]; intros st st' Hall Hrun Hnone; simpl in Hrun.
  - by injection Hrun as <-.
  - inv_bind Hrun. apply Forall_cons in Hall as [Hr Hall].
    apply (IH _ _ Hall Hrun).
    destruct (loop_body_possession _ _ _ _ _ Ha) as (Hkeep & _).
    by rewrite Hkeep.
Qed.

(** X2: a feed without possession-transferring records leaves the
    possession value null, and every event it emits was built with a null
    ball-owning team. *)
Theorem no_transfer_no_possession home away periods0 rs st' :
  Forall (fun r => EventData.typeId r ∉ BALL_OWNING_EVENTS) rs ->
  for_each (loop_body home away) (initial_state periods0) rs = Return st' ->
  possession_team st' = None /\
  forall e', e' ∈ events st' ->
    exists e, e' = transform_event e /\ ball_owning_team (generic e) = None.
Proof.
  intros Hall Hrun. split.
  - by apply (no_transfer_keeps_null _ _ _ _ _ Hall Hrun).
  - intros e' Hin.
    destruct (events_provenance _ _ _ _ _ _ Hrun Hin)
      as [Hnil | (pre & r & post & st & poss' & e & -> & Hpre & Hp & _ & ->)].
    { simpl in Hnil. by apply elem_of_nil in Hnil. }
    exists e. split; [reflexivity|].
    apply Forall_app in Hall as [Hall_pre Hall_post].
    apply Forall_cons in Hall_post as [Hr _].
    destruct (built_possession _ _ _ _ _ _ _ Hp) as (-> & _ & Hkeep).
    rewrite (Hkeep Hr).
    by apply (no_transfer_keeps_null _ _ _ _ _ Hall_pre Hpre).
Qed.

(** X3: a record whose timestamp parses and whose period is not tracked,
    or is tracked without a start timestamp (the record being no marker), is
    dropped without an error, and the rest of the feed is processed as if
    the record were not there. *)
Theorem untracked_period_is_skipped home away st0 pre r post st ts :
  for_each (loop_body home away) st0 pre = Return st ->
  try_parsing_date (EventData.timeStamp r) = Return ts ->
  find_period (periods st) (EventData.periodId r) = None \/
  (exists i p,
      find_period (periods st) (EventData.periodId r) = Some (i, p) /\
      Period.start_timestamp p = None /\
      EventData.typeId r <> EVENT_TYPE_START_PERIOD /\
      EventData.typeId r <> EVENT_TYPE_END_PERIOD) ->
  loop_body home away st r = Return st /\
  for_each (loop_body home away) st0 (pre ++ r :: post) =
  for_each (loop_body home away) st0 (pre ++ post).
Proof.
  intros Hpre Hts Hcase.
  assert (loop_body home away st r = Return st) as Hskip.
  { apply loop_body_Skipped. destruct Hcase as [Hnone | (i & p & Hfind & Hstart & N32 & N30)].
    - by eapply process_record_unknown_period.
    - by eapply process_record_not_started. }
  split; [exact Hskip|].
  rewrite !for_each_app, Hpre. simpl. rewrite Hskip. reflexivity.
Qed.

(** X7: in the Stats Perform loop a team that is neither side raises: the
    [KeyError] of "team_id" when the record has no such key, and the
    [DeserializationError] when it has one. *)
Theorem resolve_team_unknown home away r :
  EventData.contestantId r <> team_id home ->
  EventData.contestantId r <> team_id away ->
  resolve_team home away r =
  match EventData.team_id r with
  | None => Raise (KeyError (KStr "team_id"))
  | Some v => Raise (DeserializationError ("Unknown team_id " ++ v)%string)
  end.
Proof.
  intros Nh Na. unfold resolve_team.
  rewrite (proj2 (String.eqb_neq _ _) Nh), (proj2 (String.eqb_neq _ _) Na).
  reflexivity.
Qed.

End Possession.

(** *** The sample feeds *)

Section Runs.

Import Samples Feeds.

#[local] Existing Instance Samples.statsperform.

(** The goal of the sample feed, recorded at 5 s and corrected to 2 s by
    its slot 374, is emitted with a relative timestamp that fits the
    theorem. *)
Lemma relative_timestamp_witness :
  exists ds e',
    deserialize home away [period1] [start1; goal_corrected] = Return ds /\
    records ds = [e'] /\
    exists pre r post periods0 st poss' e ts i p start,
      [start1; goal_corrected] = pre ++ r :: post /\
      parse_periods [period1] = Return periods0 /\
      for_each (loop_body home away) (initial_state periods0) pre = Return st /\
      process_record home away (periods st) (possession_team st) r
        = Return (Built poss' e) /\
      e' = transform_event e /\
      try_parsing_date (EventData.timeStamp r) = Return ts /\
      find_period (periods st) (EventData.periodId r) = Some (i, p) /\
      period (generic e) = i /\
      Period.start_timestamp p = Some start /\
      match (if EventData.typeId r =? EVENT_TYPE_SHOT_GOAL
             then raw_qualifiers_of (EventData.qualifier r) !! 374 else None) with
      | Some v =>
          exists s corrected,
            v = Some s /\
            try_parsing_date (replace_space_T s ++ "Z")%string = Return corrected /\
            timestamp (generic e) = corrected - start
      | None => timestamp (generic e) = ts - start
      end /\
      (Forall (fun r' => EventData.typeId r' = EVENT_TYPE_START_PERIOD ->
                         EventData.periodId r' <> EventData.periodId r) post ->
       exists p',
         Domain.periods ds !! period (generic e) = Some p' /\
         Period.start_timestamp p' = Some start).
Proof.
  destruct (deserialize home away [period1] [start1; goal_corrected])
    as [ds|] eqn:Hd; [|vm_compute in Hd; discriminate].
  destruct (records ds) as [|e' [|]] eqn:Hrec;
    try (vm_compute in Hd; injection Hd as <-; discriminate).
  exists ds, e'. split; [reflexivity|]. split; [exact Hrec|].
  apply (relative_timestamp home away [period1] [start1; goal_corrected] ds e' Hd).
  rewrite Hrec. left.
Defined.

(** C9, counterexample: a start marker that follows an event resets the
    start of the period the event refers to and leaves the event as it
    is.  In the feed with a pass of period 1 at 5 s and then a start
    marker of period 1 at 2 s, the pass is emitted with the relative
    timestamp 5 s, taken from the start the MA1 document declares (0 s),
    while the period it refers to starts at 2 s in the returned dataset:
    the timestamp is not the absolute timestamp minus that start. *)
Lemma start_marker_after_event :
  exists ds e p,
    deserialize home away [period1] Documents.feed_pass_then_start = Return ds /\
    records ds = [e] /\
    try_parsing_date (EventData.timeStamp (raw_event (generic e))) = Return (sec 5) /\
    Domain.periods ds !! period (generic e) = Some p /\
    Period.start_timestamp p = Some (sec 2) /\
    timestamp (generic e) = sec 5 /\
    timestamp (generic e) <> sec 5 - sec 2.
Proof.
  destruct (deserialize home away [period1] Documents.feed_pass_then_start)
    as [ds|] eqn:Hd; [|vm_compute in Hd; discriminate].
  vm_compute in Hd. injection Hd as <-.
  do 3 eexists. repeat split; try reflexivity. discriminate.
Qed.

(** The take-on of the sample feed is retained and carries no
    qualifiers. *)
Lemma qualifiers_by_event_kind_witness :
  exists poss' e,
    process_record home away started1 None take_on_corner = Return (Built poss' e) /\
    qualifiers e = None.
Proof.
  destruct (process_record home away started1 None take_on_corner)
    as [[| |poss' e]|] eqn:Hp; try (vm_compute in Hp; discriminate).
  exists poss', e. split; [reflexivity|].
  destruct (qualifiers_by_event_kind home away started1 None take_on_corner poss' e Hp)
    as (_ & Hnone & _).
  apply Hnone. unfold QUALIFIED_EVENTS. rewrite !not_elem_of_cons.
  repeat split; try discriminate. apply not_elem_of_nil.
Defined.

(** C5, counterexample: the take-on of the sample feed has the corner code
    (6) among its raw qualifiers, for which the set-piece chain yields a
    corner kick, and the event built for it has null qualifiers. *)
Lemma take_on_carries_no_qualifiers :
  exists ds e,
    deserialize home away [period1] [start1; take_on_corner] = Return ds /\
    records ds = [e] /\
    kind e = TAKE_ON /\
    _get_event_setpiece_qualifiers (raw_qualifiers_of (EventData.qualifier take_on_corner))
      = [SetPieceQualifier CORNER_KICK] /\
    qualifiers e = None /\
    qualifiers e <>
      Some (_get_event_qualifiers (raw_qualifiers_of (EventData.qualifier take_on_corner))).
Proof.
  eexists. eexists. split; [vm_compute; reflexivity|].
  split; [reflexivity|]. repeat split. discriminate.
Qed.

(** The pass of the sample feed without slot 140 aborts the call with
    [KeyError(140)]. *)
Lemma missing_receiver_slot_aborts_witness :
  deserialize home away [period1] ([start1] ++ pass_without_140 :: [])
    = Raise (KeyError (KInt 140)).
Proof.
  refine (proj1 (missing_receiver_slot_aborts home away [period1] started1
                   [start1] pass_without_140 [] (initial_state started1)
                   (sec 5) 0%nat (sec 0) home _ _ _ _ _ _) _).
  - discriminate.
  - discriminate.
  - reflexivity.
  - reflexivity.
  - repeat split; try discriminate.
    exists {| Period.id := 1; Period.start_timestamp := Some (sec 0);
              Period.end_timestamp := Some (sec 90) |}.
    split; reflexivity.
  - left. reflexivity.
  - reflexivity.
Defined.

(** C10, counterexample: a pass whose slot 140 is present without a value
    and whose slot 141 is missing aborts the call with the [TypeError] of
    [float(None)], not with a [KeyError]. *)
Lemma missing_slot_141_without_KeyError :
  raw_qualifiers_of (EventData.qualifier pass_140_without_value) !! 141 = None /\
  deserialize home away [period1] [start1; pass_140_without_value] = Raise TypeError /\
  ~ exists key,
      deserialize home away [period1] [start1; pass_140_without_value]
        = Raise (KeyError key).
Proof.
  split; [reflexivity|]. split; [reflexivity|].
  intros [key Hkey]. vm_compute in Hkey. discriminate.
Qed.

(** C3, at the failing input: a pass of a team that is neither side does
    abort the call, but with the [KeyError] of the key "team_id" that the
    error message reads, not with a [DeserializationError]. *)
Theorem unknown_team_raises_KeyError :
  EventData.contestantId pass_unknown_team <> team_id home /\
  EventData.contestantId pass_unknown_team <> team_id away /\
  deserialize home away [period1] [start1; pass_unknown_team]
    = Raise (KeyError (KStr "team_id")).
Proof. repeat split; [discriminate | discriminate]. Qed.

(** C4, at the failing input: the event built for a card with the red-card
    code (33) is a dead-ball card event with the qualifier RED, and its
    card type is null. *)
Theorem red_card_has_null_card_type :
  contains (raw_qualifiers_of [q 33 None]) EVENT_QUALIFIER_RED_CARD = true /\
  exists ds e,
    deserialize home away [period1] feed_red_card = Return ds /\
    records ds = [e] /\
    kind e = CARD /\
    ball_state (generic e) = DEAD /\
    qualifiers e = Some [CardQualifier CardType.RED] /\
    card_type e = None.
Proof.
  split; [reflexivity|].
  eexists. eexists. split; [vm_compute; reflexivity|]. repeat split.
Qed.

(** The scenario of the specification: a start of period 1 at 0 s, a
    completed pass at 5 s with the receiver slots at (50, 50) and the end
    of period 1 at 90 s give exactly one pass event, COMPLETE, 5 s after
    the start of its period, with the receiver at (50, 50). *)
Example one_pass_scenario :
  exists ds e,
    deserialize home away [period1] feed_one_pass = Return ds /\
    records ds = [e] /\
    kind e = PASS /\
    result e = Some (OfPass PassResult.COMPLETE) /\
    timestamp (generic e) = sec 5 /\
    receiver_coordinates e = Some {| x := 50; y := 50 |}.
Proof.
  eexists. eexists. split; [vm_compute; reflexivity|]. repeat split.
Qed.

Ltac solve_not_in :=
  rewrite !not_elem_of_cons; repeat split; try discriminate; apply not_elem_of_nil.

(** After the pass of the home team the possession value is the home
    team, and the pass carries it. *)
Lemma possession_tracking_witness :
  exists st' poss' e,
    loop_body home away (initial_state started1) pass_home = Return st' /\
    process_record home away started1 None pass_home = Return (Built poss' e) /\
    possession_team st' = Some home /\
    ball_owning_team (generic e) = Some home.
Proof.
  destruct (loop_body home away (initial_state started1) pass_home)
    as [st'|] eqn:Hl; [|vm_compute in Hl; discriminate].
  destruct (process_record home away started1 None pass_home)
    as [[| |poss' e]|] eqn:Hp; try (vm_compute in Hp; discriminate).
  exists st', poss', e. split; [reflexivity|]. split; [reflexivity|].
  destruct (possession_tracking home away (initial_state started1) pass_home st' Hl)
    as (_ & Hset & _).
  destruct (Hset poss' e Hp) as (-> & -> & _).
  vm_compute in Hp. injection Hp as <- _. split; reflexivity.
Defined.

(** The sample feed of three fouls leaves the possession value null. *)
Lemma no_transfer_no_possession_witness :
  exists st',
    for_each (loop_body home away) (initial_state started1) feed_unknown_period
      = Return st' /\
    possession_team st' = None.
Proof.
  destruct (for_each (loop_body home away) (initial_state started1) feed_unknown_period)
    as [st'|] eqn:Hrun; [|vm_compute in Hrun; discriminate].
  exists st'. split; [reflexivity|].
  apply (no_transfer_no_possession home away started1 feed_unknown_period st');
    [|exact Hrun].
  unfold feed_unknown_period, BALL_OWNING_EVENTS. repeat constructor; simpl; solve_not_in.
Defined.

(** The record of period 2 of the sample feed, which the period list does
    not hold, is dropped and the record after it is processed. *)
Lemma untracked_period_is_skipped_witness :
  for_each (loop_body home away) (initial_state started1)
    ([start1; record "e2" 4 1 "2024-05-01T18:00:05Z" "t-home" []]
     ++ record "e3" 4 2 "2024-05-01T18:00:07Z" "t-home" []
     :: [record "e4" 4 1 "2024-05-01T18:00:09Z" "t-home" []]) =
  for_each (loop_body home away) (initial_state started1)
    ([start1; record "e2" 4 1 "2024-05-01T18:00:05Z" "t-home" []]
     ++ [record "e4" 4 1 "2024-05-01T18:00:09Z" "t-home" []]).
Proof.
  destruct (for_each (loop_body home away) (initial_state started1)
              [start1; record "e2" 4 1 "2024-05-01T18:00:05Z" "t-home" []])
    as [st|] eqn:Hpre; [|vm_compute in Hpre; discriminate].
  refine (proj2 (untracked_period_is_skipped home away (initial_state started1) _ _ _
                   st (sec 7) Hpre _ _)).
  - reflexivity.
  - left. vm_compute in Hpre. injection Hpre as <-. reflexivity.
Defined.

(** The sample pass of the team "t-other" has no "team_id" key. *)
Lemma resolve_team_unknown_witness :
  resolve_team home away pass_unknown_team = Raise (KeyError (KStr "team_id")).
Proof.
  apply (resolve_team_unknown home away pass_unknown_team); discriminate.
Defined.

End Runs.

End StatsPerformFacts.

(** ** UEFA *)

Module UefaFacts.

Import Uefa.

Section Loop.

Context `{Collaborators}.

Implicit Types (e : Event EventElm.t) (r : EventElm.t) (st : State)
  (home away : Team).

(** X4: the ball-owning team of a UEFA event is decided by the event alone:
    the acting team for a possession-transferring type and null for every
    other type, whatever came before. *)
Theorem build_event_possession home away periods ts r poss e :
  build_event home away periods ts r = Return (poss, e) ->
  ball_owning_team (generic e) = poss /\
  poss = if bool_decide (EventElm.type r ∈ BALL_OWNING_EVENTS)
         then team (generic e) else None.
Proof.
  unfold build_event. intros Hb.
  inv_bind Hb. inv_bind Hb. destruct a0 as [i p].
  inv_bind Hb. destruct a0 as [tm pl].
  inv_bind Hb. injection Hb as <- <-.
  destruct (String.eqb (EventElm.type r) EVENT_TYPE_SHOT_WIDE); simpl; auto.
Qed.

(** The relative timestamp of a UEFA event is its absolute timestamp minus
    the start timestamp of the period at the position of its phase. *)
Lemma build_event_timestamp home away periods ts r poss e :
  build_event home away periods ts r = Return (poss, e) ->
  exists n p start,
    phase_to_period PHASE_TO_PERIOD (EventElm.phase r) = Return n /\
    periods !! Z.to_nat (n - 1) = Some p /\
    period (generic e) = Z.to_nat (n - 1) /\
    Period.start_timestamp p = Some start /\
    timestamp (generic e) = ts - start.
Proof.
  unfold build_event. intros Hb.
  inv_bind Hb. rename a into n, Ha into Hn.
  inv_bind Hb. destruct a as [i p]. rename Ha into Hat.
  inv_bind Hb. destruct a as [tm pl]. rename Ha into Hactor.
  inv_bind Hb. rename a into relative, Ha into Hrel. injection Hb as <- <-.
  unfold period_at in Hat.
  destruct (periods !! Z.to_nat (n - 1)) as [p'|] eqn:Hp; [|discriminate].
  injection Hat as <- <-.
  destruct (Period.start_timestamp p') as [start|] eqn:Hstart; [|discriminate].
  injection Hrel as <-.
  exists n, p', start.
  destruct (String.eqb (EventElm.type r) EVENT_TYPE_SHOT_WIDE); simpl; auto.
Qed.

(** X5: a UEFA event that is no marker, in a phase whose period has not
    been created, raises [IndexError]: nothing is skipped. *)
Theorem loop_body_no_period home away st r s ts n :
  EventElm.timestamp r = Some s ->
  fromisoformat s = Some ts ->
  EventElm.type r <> EVENT_TYPE_START_PERIOD ->
  EventElm.type r <> EVENT_TYPE_END_PERIOD ->
  phase_to_period PHASE_TO_PERIOD (EventElm.phase r) = Return n ->
  periods st !! Z.to_nat (n - 1) = None ->
  loop_body home away st r = Raise IndexError.
Proof.
  intros Hs Hts Nstart Nend Hphase Hnone. unfold loop_body.
  rewrite Hs, Hts.
  rewrite (proj2 (String.eqb_neq _ _) Nstart), (proj2 (String.eqb_neq _ _) Nend).
  unfold build_event. rewrite Hphase; simpl.
  unfold period_at. rewrite Hnone. reflexivity.
Qed.

(** X6: in the UEFA loop a team that is neither side raises
    [DeserializationError] with its message. *)
Theorem resolve_actor_unknown home away r actor tid :
  EventElm.primaryActor r = Some actor ->
  Actor.team actor = Some tid ->
  tid <> team_id home -> tid <> team_id away ->
  resolve_actor home away r =
  Raise (DeserializationError ("Unknown team_id " ++ tid)%string).
Proof.
  intros Hactor Hteam Nh Na. unfold resolve_actor. rewrite Hactor, Hteam.
  rewrite (proj2 (String.eqb_neq _ _) Nh), (proj2 (String.eqb_neq _ _) Na).
  reflexivity.
Qed.

End Loop.

Section Runs.

Import Samples Feeds.

#[local] Existing Instance Samples.uefa.
#[local] Existing Instance Samples.statsperform.

(** C1, at the failing input: in the UEFA feed with a shot wide of the
    home team followed by a foul, the shot is emitted with the home team
    as ball-owning team and the foul, built after it, with a null
    ball-owning team; the Stats Perform loop keeps the home team on the
    two events that follow a pass of the home team. *)
Theorem uefa_possession_is_not_carried :
  (exists ds,
      Uefa.deserialize home away uefa_shot_then_foul = Return ds /\
      map (fun e => (event_id (generic e), ball_owning_team (generic e))) (records ds)
        = [ ("u2", Some home); ("u3", None) ]) /\
  (exists ds,
      StatsPerform.deserialize home away [period1] feed_pass_then_fouls = Return ds /\
      map (fun e => (event_id (generic e), ball_owning_team (generic e))) (records ds)
        = [ ("e2", Some home); ("e3", Some home); ("e4", Some home) ]).
Proof.
  split; eexists; (split; [vm_compute; reflexivity | reflexivity]).
Qed.

(** C2, at the failing input: a UEFA event of the first half in a feed
    without a start of the first half aborts the call with [IndexError];
    the Stats Perform loop drops the record of an undeclared period and
    emits the records around it. *)
Theorem uefa_event_before_period_start_raises :
  Uefa.deserialize home away uefa_no_start = Raise IndexError /\
  (exists ds,
      StatsPerform.deserialize home away [period1] feed_unknown_period = Return ds /\
      map (fun e => event_id (generic e)) (records ds) = [ "e2"; "e4" ]).
Proof.
  split; [reflexivity|].
  eexists. split; [vm_compute; reflexivity | reflexivity].
Qed.

(** The foul of the sample feed is built with a null ball-owning team
    whatever the loop has seen before. *)
Lemma build_event_possession_witness :
  exists poss e,
    build_event home away uefa_started (sec 9) uefa_foul = Return (poss, e) /\
    ball_owning_team (generic e) = None.
Proof.
  destruct (build_event home away uefa_started (sec 9) uefa_foul)
    as [[poss e]|] eqn:Hb; [|vm_compute in Hb; discriminate].
  exists poss, e. split; [reflexivity|].
  destruct (build_event_possession home away uefa_started (sec 9) uefa_foul poss e Hb)
    as (-> & ->).
  reflexivity.
Defined.

(** A foul of the first half raises [IndexError] in the initial state. *)
Lemma loop_body_no_period_witness :
  loop_body home away initial_state uefa_foul = Raise IndexError.
Proof.
  apply (loop_body_no_period home away initial_state uefa_foul
           "2024-05-01T18:00:09+00:00" (sec 9) 1);
    try reflexivity; discriminate.
Defined.

(** The team "t-other" of the sample record is neither side. *)
Lemma resolve_actor_unknown_witness :
  resolve_actor home away
    (uefa_record "u2" "FIRST_HALF" "FOUL" "2024-05-01T18:00:05+00:00" (Some "t-other"))
  = Raise (DeserializationError "Unknown team_id t-other").
Proof.
  apply (resolve_actor_unknown home away _
           {| Actor.team := Some "t-other"; Actor.person := None |} "t-other");
    try reflexivity; discriminate.
Defined.

End Runs.

End UefaFacts.

(** ** More on the error monad and the loop *)

Module LoopFacts.

Lemma bind_raised {A B} (m : Exc A) (f : A -> Exc B) :
  (forall a, ~ raised (f a)) -> raised (m ≫= f) -> raised m.
Proof.
  intros Hf [err Herr]. destruct m as [a|err']; [|by eexists].
  exfalso. apply (Hf a). by exists err.
Qed.

Lemma bind_Raise_inv {A B} (m : Exc A) (f : A -> Exc B) err :
  m ≫= f = Raise err ->
  m = Raise err \/ exists a, m = Return a /\ f a = Raise err.
Proof. destruct m as [a|err']; simpl; [eauto | intros [= ->]; auto]. Qed.

Lemma for_each_Raise {S R} (body : S -> R -> Exc S) (items : list R) :
  forall (s : S) err,
  for_each body s items = Raise err ->
  exists (before : list R) (x : R) (after : list R) (s' : S),
    items = before ++ x :: after /\
    for_each body s before = Return s' /\
    body s' x = Raise err.
Proof.
  induction items as [|x items IH]; intros s err Hrun; simpl in Hrun; [discriminate|].
  apply bind_Raise_inv in Hrun as [Hx | (s1 & Hx & Hrun)].
  - exists [], x, items, s. auto.
  - destruct (IH _ _ Hrun) as (before & x' & after & s' & -> & Hpre & Hx').
    exists (x :: before), x', after, s'. repeat split; [|exact Hx'].
    simpl. rewrite Hx. exact Hpre.
Qed.

End LoopFacts.

(** ** Stats Perform: what the loop keeps *)

Module StatsPerformInvariants.

Import StatsPerform StatsPerformFacts.

Lemma find_period_Some (periods : list Period.t) period_id i p :
  find_period periods period_id = Some (i, p) ->
  periods !! i = Some p /\ Period.id p = period_id.
Proof. unfold find_period. intros (? & ? & _)%list_find_Some. auto. Qed.

Lemma find_period_None (periods : list Period.t) period_id :
  find_period periods period_id = None <-> period_id ∉ Period.id <$> periods.
Proof.
  unfold find_period. rewrite list_find_None, Forall_forall.
  rewrite list_elem_of_fmap. split.
  - intros Hall (p & -> & Hin). exact (Hall p Hin eq_refl).
  - intros Hnot p Hin Heq. apply Hnot. exists p. auto.
Qed.

Lemma insert_period_ids (periods : list Period.t) (i : nat) p p' :
  periods !! i = Some p -> Period.id p' = Period.id p ->
  Period.id <$> <[i := p']> periods = Period.id <$> periods.
Proof.
  intros Hi Hid.
  rewrite list_fmap_insert. apply list_insert_id.
  rewrite list_lookup_fmap, Hi, Hid. reflexivity.
Qed.

Section Loop.

Context `{Collaborators}.

Implicit Types (e : Event EventData.t) (r : EventData.t) (st : State)
  (home away : Team).

Lemma process_record_PeriodUpdated home away periods poss r periods' :
  process_record home away periods poss r = Return (PeriodUpdated periods') ->
  exists ts i p,
    try_parsing_date (EventData.timeStamp r) = Return ts /\
    find_period periods (EventData.periodId r) = Some (i, p) /\
    ((EventData.typeId r = EVENT_TYPE_START_PERIOD /\
      periods' = <[i := Period.set_start p ts]> periods) \/
     (EventData.typeId r = EVENT_TYPE_END_PERIOD /\
      periods' = <[i := Period.set_end p ts]> periods)).
Proof.
  unfold process_record. intros Hp.
  destruct (try_parsing_date (EventData.timeStamp r)) as [ts|] eqn:Hts;
    [simpl in Hp | discriminate].
  destruct (find_period periods (EventData.periodId r)) as [[i p]|] eqn:Hfind;
    [|discriminate].
  exists ts, i, p. split; [reflexivity|]. split; [reflexivity|].
  destruct (Z.eqb_spec (EventData.typeId r) EVENT_TYPE_START_PERIOD).
  { injection Hp as <-. auto. }
  destruct (Z.eqb_spec (EventData.typeId r) EVENT_TYPE_END_PERIOD).
  { injection Hp as <-. auto. }
  destruct (Period.start_timestamp p); [|discriminate].
  destruct (resolve_team home away r); [simpl in Hp | discriminate].
  destruct (dispatch _ _ _ _ _ _); discriminate.
Qed.

Lemma loop_body_periods home away st r st' :
  loop_body home away st r = Return st' ->
  Period.id <$> periods st' = Period.id <$> periods st /\
  (Forall started (periods st) -> Forall started (periods st')) /\
  (Forall ended (periods st) -> Forall ended (periods st')).
Proof.
  unfold loop_body. intros Hl. inv_bind Hl. injection Hl as <-.
  destruct a as [|periods'|poss' e]; simpl; auto.
  apply process_record_PeriodUpdated in Ha
    as (ts & i & p & _ & Hfind & Hcase).
  apply find_period_Some in Hfind as [Hi _].
  destruct Hcase as [[_ ->] | [_ ->]].
  - split; [by eapply insert_period_ids|]. split; intros Hall.
    + apply Forall_insert; [exact Hall | by eexists].
    + apply Forall_insert; [exact Hall|].
      exact (proj1 (Forall_lookup _ _) Hall _ _ Hi).
  - split; [by eapply insert_period_ids|]. split; intros Hall.
    + apply Forall_insert; [exact Hall|].
      exact (proj1 (Forall_lookup _ _) Hall _ _ Hi).
    + apply Forall_insert; [exact Hall | by eexists].
Qed.

Lemma for_each_periods home away rs : forall st st',
  for_each (loop_body home away) st rs = Return st' ->
  Period.id <$> periods st' = Period.id <$> periods st /\
  (Forall started (periods st) -> Forall started (periods st')) /\
  (Forall ended (periods st) -> Forall ended (periods st')).
Proof.
  induction rs as [|r rs IH]; intros st st' Hrun; simpl in Hrun.
  - injection Hrun as <-. auto.
  - inv_bind Hrun.
    destruct (loop_body_periods _ _ _ _ _ Ha) as (Hid1 & Hs1 & He1).
    destruct (IH _ _ Hrun) as (Hid2 & Hs2 & He2).
    split; [congruence | auto].
Qed.

Lemma parse_periods_spec period_data : forall periods0,
  parse_periods period_data = Return periods0 ->
  Period.id <$> periods0 = PeriodData.id <$> period_data /\
  Forall started periods0 /\ Forall ended periods0.
Proof.
  induction period_data as [|per rest IH]; intros periods0 Hp; simpl in Hp.
  - injection Hp as <-. auto.
  - inv_bind Hp. inv_bind Hp. inv_bind Hp. injection Hp as <-.
    destruct (IH _ Ha1) as (Hid & Hs & He).
    split; [by rewrite !fmap_cons, Hid|].
    split; constructor; try assumption; by eexists.
Qed.

(** X9: the periods of the output are the periods the MA1 document
    declares, in its order and with its identifiers, and each has a start
    and an end timestamp: the markers of the feed only overwrite
    timestamps, they never add, drop, reorder or renumber a period. *)
Theorem declared_periods_are_kept home away period_data event ds :
  deserialize home away period_data event = Return ds ->
  Period.id <$> Domain.periods ds = PeriodData.id <$> period_data /\
  Forall started (Domain.periods ds) /\
  Forall ended (Domain.periods ds).
Proof.
  unfold deserialize. intros Hd.
  destruct (_ || _); [discriminate|].
  inv_bind Hd. rename a into periods0, Ha into Hper.
  inv_bind Hd. rename a into st', Ha into Hrun. injection Hd as <-. simpl.
  destruct (parse_periods_spec _ _ Hper) as (Hid & Hs & He).
  destruct (for_each_periods _ _ _ _ _ Hrun) as (Hid' & Hs' & He').
  split; [by rewrite Hid'|]. auto.
Qed.

(** X10: in a run of [deserialize], a record whose timestamp parses is
    dropped exactly when its period id is not declared in the MA1
    document: every declared period has a start timestamp from the outset,
    so the test for a period that has not started never fires. *)
Theorem skipped_iff_undeclared home away period_data periods0 pre st r ts :
  parse_periods period_data = Return periods0 ->
  for_each (loop_body home away) (initial_state periods0) pre = Return st ->
  try_parsing_date (EventData.timeStamp r) = Return ts ->
  process_record home away (periods st) (possession_team st) r = Return Skipped <->
  EventData.periodId r ∉ PeriodData.id <$> period_data.
Proof.
  intros Hper Hpre Hts.
  destruct (parse_periods_spec _ _ Hper) as (Hid & Hs & _).
  destruct (for_each_periods _ _ _ _ _ Hpre) as (Hid' & Hs' & _).
  simpl in Hid', Hs'. rewrite <- Hid, <- Hid', <- find_period_None.
  split.
  - unfold process_record. rewrite Hts; simpl.
    destruct (find_period (periods st) (EventData.periodId r))
      as [[i p]|] eqn:Hfind; [|reflexivity].
    destruct (EventData.typeId r =? EVENT_TYPE_START_PERIOD); [discriminate|].
    destruct (EventData.typeId r =? EVENT_TYPE_END_PERIOD); [discriminate|].
    apply find_period_Some in Hfind as [Hi _].
    destruct (proj1 (Forall_lookup _ _) (Hs' Hs) _ _ Hi) as [start Hstart].
    rewrite Hstart.
    destruct (resolve_team home away r); [simpl | discriminate].
    destruct (dispatch _ _ _ _ _ _); discriminate.
  - intros Hnone. by eapply process_record_unknown_period.
Qed.

Lemma for_each_filter_declared home away ids rs : forall st,
  Period.id <$> periods st = ids ->
  Forall (fun r => EventData.periodId r ∉ ids ->
                   exists ts, try_parsing_date (EventData.timeStamp r) = Return ts) rs ->
  for_each (loop_body home away) st rs =
  for_each (loop_body home away) st
    (filter (fun r => EventData.periodId r ∈ ids) rs).
Proof.
  induction rs as [|r rs IH]; intros st Hids Hall; [reflexivity|].
  apply Forall_cons in Hall as [Hr Hall].
  destruct (decide (EventData.periodId r ∈ ids)) as [Hin|Hnot].
  - rewrite filter_cons_True by assumption. simpl.
    destruct (loop_body home away st r) as [st1|err] eqn:Hl; [simpl | reflexivity].
    apply IH; [|assumption].
    destruct (loop_body_periods _ _ _ _ _ Hl) as (-> & _). exact Hids.
  - rewrite filter_cons_False by assumption. simpl.
    destruct (Hr Hnot) as [ts Hts].
    rewrite (loop_body_Skipped home away st r); [simpl; by apply IH|].
    eapply process_record_unknown_period; [exact Hts|].
    apply find_period_None. by rewrite Hids.
Qed.

(** X11: the records of undeclared periods are invisible.  When the
    timestamps of those records parse, deserializing a feed and
    deserializing it without the records whose period id the MA1 document
    does not declare give the same result, an exception included. *)
Theorem undeclared_records_are_invisible home away period_data event :
  Forall (fun r => EventData.periodId r ∉ PeriodData.id <$> period_data ->
                   exists ts, try_parsing_date (EventData.timeStamp r) = Return ts)
         event ->
  deserialize home away period_data event =
  deserialize home away period_data
    (filter (fun r => EventData.periodId r ∈ PeriodData.id <$> period_data) event).
Proof.
  intros Hall. unfold deserialize.
  destruct (_ || _); [reflexivity|].
  destruct (parse_periods period_data) as [periods0|err] eqn:Hper; [simpl | reflexivity].
  destruct (parse_periods_spec _ _ Hper) as (Hid & _).
  rewrite (for_each_filter_declared home away (PeriodData.id <$> period_data) event);
    [reflexivity | exact Hid | exact Hall].
Qed.

Lemma for_each_events home away rs : forall st st',
  for_each (loop_body home away) st rs = Return st' ->
  exists es,
    events st' = events st ++ (transform_event <$> es) /\
    (fun e => raw_event (generic e)) <$> es `sublist_of` rs /\
    Forall (fun e =>
              should_include_event e = true /\
              event_id (generic e) = EventData.id (raw_event (generic e)) /\
              EventData.typeId (raw_event (generic e)) <> EVENT_TYPE_START_PERIOD /\
              EventData.typeId (raw_event (generic e)) <> EVENT_TYPE_END_PERIOD) es.
Proof.
  induction rs as [|r rs IH]; intros st st' Hrun; simpl in Hrun.
  - injection Hrun as <-. exists []. rewrite app_nil_r. repeat split; constructor.
  - inv_bind Hrun. rename a into st1, Ha into Hl.
    destruct (IH _ _ Hrun) as (es & Hev & Hsub & Hall).
    unfold loop_body in Hl. inv_bind Hl. injection Hl as <-.
    destruct a as [|periods'|poss' e]; simpl in Hev.
    + exists es. split; [exact Hev|]. split; [by apply sublist_cons | exact Hall].
    + exists es. split; [exact Hev|]. split; [by apply sublist_cons | exact Hall].
    + unfold append_event in Hev.
      destruct (should_include_event e) eqn:Hinc.
      * destruct (process_record_Built _ _ _ _ _ _ _ Ha)
          as (ts & i & start & tm & (_ & N32 & N30 & _) & _ & Hdisp).
        destruct (dispatch_frame _ _ _ _ _ _ _ Hdisp) as (_ & _ & _ & Hid & Hraw).
        simpl in Hid, Hraw.
        exists (e :: es). split; [by rewrite Hev, <- app_assoc|].
        split; [rewrite fmap_cons, Hraw; by apply sublist_skip|].
        constructor; [|exact Hall]. rewrite Hid, Hraw. auto.
      * exists es. split; [exact Hev|]. split; [by apply sublist_cons | exact Hall].
Qed.

(** X12: the output keeps the order of the feed and never invents an
    event.  The records of a successful call are the transforms of built
    events that passed the inclusion filter, and the raw records these
    events refer to form a subsequence of the feed; each event carries the
    identifier of its raw record, and none comes from a period marker. *)
Theorem output_is_subsequence home away period_data event ds :
  deserialize home away period_data event = Return ds ->
  exists es,
    records ds = transform_event <$> es /\
    (fun e => raw_event (generic e)) <$> es `sublist_of` event /\
    Forall (fun e =>
              should_include_event e = true /\
              event_id (generic e) = EventData.id (raw_event (generic e)) /\
              EventData.typeId (raw_event (generic e)) <> EVENT_TYPE_START_PERIOD /\
              EventData.typeId (raw_event (generic e)) <> EVENT_TYPE_END_PERIOD) es.
Proof.
  unfold deserialize. intros Hd.
  destruct (_ || _); [discriminate|].
  inv_bind Hd. inv_bind Hd. injection Hd as <-. simpl.
  destruct (for_each_events _ _ _ _ _ Ha0) as (es & Hev & Hsub & Hall).
  exists es. auto.
Qed.

End Loop.

Section Runs.

Import Samples Feeds.

#[local] Existing Instance Samples.statsperform.

(** The sample feed with one pass keeps the one declared period. *)
Lemma declared_periods_are_kept_witness :
  exists ds,
    deserialize home away [period1] feed_one_pass = Return ds /\
    Period.id <$> Domain.periods ds = [1].
Proof.
  destruct (deserialize home away [period1] feed_one_pass) as [ds|] eqn:Hd;
    [|vm_compute in Hd; discriminate].
  exists ds. split; [reflexivity|].
  exact (proj1 (declared_periods_are_kept home away [period1] feed_one_pass ds Hd)).
Defined.

(** After the start of period 1, a foul of period 2 is dropped: the MA1
    document declares period 1 only. *)
Lemma skipped_iff_undeclared_witness :
  exists st,
    for_each (loop_body home away) (initial_state started1) [start1] = Return st /\
    process_record home away (periods st) (possession_team st)
      (record "e3" 4 2 "2024-05-01T18:00:07Z" "t-home" []) = Return Skipped.
Proof.
  destruct (for_each (loop_body home away) (initial_state started1) [start1])
    as [st|] eqn:Hpre; [|vm_compute in Hpre; discriminate].
  exists st. split; [reflexivity|].
  refine (proj2 (skipped_iff_undeclared home away [period1] started1 [start1] st
                   (record "e3" 4 2 "2024-05-01T18:00:07Z" "t-home" []) (sec 7)
                   _ Hpre _) _).
  - reflexivity.
  - reflexivity.
  - simpl. rewrite !not_elem_of_cons. split; [discriminate | apply not_elem_of_nil].
Defined.

(** The sample feed with a record of period 2 gives what the feed without
    that record gives. *)
Lemma undeclared_records_are_invisible_witness :
  deserialize home away [period1] feed_unknown_period =
  deserialize home away [period1]
    (filter (fun r => EventData.periodId r ∈ PeriodData.id <$> [period1])
            feed_unknown_period).
Proof.
  apply (undeclared_records_are_invisible home away [period1] feed_unknown_period).
  unfold feed_unknown_period.
  repeat (apply Forall_cons_2; [intros _; eexists; reflexivity|]).
  apply Forall_nil_2.
Defined.

(** The records of the sample feed with a pass and two fouls. *)
Lemma output_is_subsequence_witness :
  exists ds es,
    deserialize home away [period1] feed_pass_then_fouls = Return ds /\
    records ds = transform_event <$> es /\
    (fun e => raw_event (generic e)) <$> es `sublist_of` feed_pass_then_fouls.
Proof.
  destruct (deserialize home away [period1] feed_pass_then_fouls) as [ds|] eqn:Hd;
    [|vm_compute in Hd; discriminate].
  destruct (output_is_subsequence home away [period1] feed_pass_then_fouls ds Hd)
    as (es & Hrec & Hsub & _).
  exists ds, es. auto.
Defined.

End Runs.

End StatsPerformInvariants.

(** ** Stats Perform: the dispatcher and its failures *)

Module StatsPerformDispatch.

Import StatsPerform StatsPerformTerms StatsPerformFacts LoopFacts.

Ltac neq_eqb :=
  repeat match goal with
         | N : ?t <> ?k |- context [Z.eqb ?t ?k] =>
             rewrite (proj2 (Z.eqb_neq t k) N)
         end.

Section Dispatcher.

Context `{Collaborators}.

Implicit Types (g : GenericEventKwargs EventData.t) (raw : RawQualifiers)
  (e : Event EventData.t) (c : Point) (r : EventData.t).

Lemma dispatch_total g raw outcome c start type_id :
  type_id ∉ FALLIBLE_EVENTS ->
  exists e, dispatch g type_id raw outcome c start = Return e.
Proof.
  unfold FALLIBLE_EVENTS. rewrite !not_elem_of_cons.
  intros (N1 & N2 & N16 & N40 & _).
  unfold dispatch, goal_timestamp. neq_eqb.
  destruct (type_id =? EVENT_TYPE_TAKE_ON); [eauto|].
  destruct (bool_decide (type_id ∈ SHOT_EVENTS)); [simpl; eauto|].
  destruct (type_id =? EVENT_TYPE_RECOVERY); [eauto|].
  destruct (type_id =? EVENT_TYPE_FOUL_COMMITTED); [eauto|].
  destruct (bool_decide (type_id ∈ BALL_OUT_EVENTS)); [eauto|].
  destruct (type_id =? EVENT_TYPE_CARD); eauto.
Qed.

(** X13: the dispatcher can fail in four branches only.  It raises only
    for a pass or an offside pass whose receiver slots cannot be read, for
    a goal that has a slot 374, and for a formation change whose formation
    cannot be read; for every other type code, known or not, it builds an
    event. *)
Theorem dispatch_failures g raw outcome c start type_id :
  raised (dispatch g type_id raw outcome c start) ->
  ((type_id = EVENT_TYPE_PASS \/ type_id = EVENT_TYPE_OFFSIDE_PASS) /\
   raised (receiver_point raw)) \/
  (type_id = EVENT_TYPE_SHOT_GOAL /\ is_Some (raw !! 374)) \/
  (type_id = EVENT_TYPE_FORMATION_CHANGE /\ raised (_parse_formation_change raw)).
Proof.
  intros Hr.
  destruct (decide (type_id = EVENT_TYPE_PASS)) as [->|N1].
  { left. split; [by left|]. rewrite dispatch_pass in Hr.
    revert Hr. apply bind_raised. intros rc [err Herr]. discriminate. }
  destruct (decide (type_id = EVENT_TYPE_OFFSIDE_PASS)) as [->|N2].
  { left. split; [by right|]. rewrite dispatch_offside_pass in Hr.
    revert Hr. apply bind_raised. intros rc [err Herr]. discriminate. }
  destruct (decide (type_id = EVENT_TYPE_SHOT_GOAL)) as [->|N16].
  { right. left. split; [reflexivity|].
    destruct (raw !! 374) as [v|] eqn:H374; [by eexists|]. exfalso.
    destruct Hr as [err Herr]. unfold dispatch, goal_timestamp in Herr.
    simpl in Herr. rewrite H374 in Herr. discriminate. }
  destruct (decide (type_id = EVENT_TYPE_FORMATION_CHANGE)) as [->|N40].
  { right. right. split; [reflexivity|]. unfold dispatch in Hr. simpl in Hr.
    revert Hr. apply bind_raised. intros f [err Herr]. discriminate. }
  exfalso.
  destruct (dispatch_total g raw outcome c start type_id) as [e He].
  { unfold FALLIBLE_EVENTS. rewrite !not_elem_of_cons.
    repeat split; try assumption. apply not_elem_of_nil. }
  destruct Hr as [err Herr]. congruence.
Qed.

(** X14: the ball state of an emitted event is fixed by its type code: it
    is DEAD for a ball out (5), a corner awarded (6) and a card (17), and
    ALIVE for every other type. *)
Theorem ball_state_by_type home away periods poss r poss' e :
  process_record home away periods poss r = Return (Built poss' e) ->
  ball_state (generic e) =
  if bool_decide (EventData.typeId r ∈ DEAD_BALL_EVENTS) then DEAD else ALIVE.
Proof.
  intros Hp.
  destruct (process_record_Built _ _ _ _ _ _ _ Hp)
    as (ts & i & start & tm & _ & _ & Hdisp).
  apply dispatch_dispatched in Hdisp.
  destruct Hdisp as [rc Hrc|rc Hrc| |t g' Hshot Hg'| | |t Hout|f Hf| |t Hnot];
    try reflexivity.
  - apply goal_timestamp_Return in Hg' as [ts' ->]. simpl.
    unfold SHOT_EVENTS in Hshot. rewrite !elem_of_cons, elem_of_nil in Hshot.
    destruct Hshot as [->|[->|[->|[->|[]]]]]; reflexivity.
  - unfold BALL_OUT_EVENTS in Hout. rewrite !elem_of_cons, elem_of_nil in Hout.
    destruct Hout as [->|[->|[]]]; reflexivity.
  - rewrite bool_decide_eq_false_2; [reflexivity|].
    unfold DISPATCHED_EVENTS in Hnot. unfold DEAD_BALL_EVENTS.
    rewrite !not_elem_of_cons in *. intuition.
Qed.

Lemma try_parsing_date_error s err :
  try_parsing_date s = Raise err -> parser_error err.
Proof.
  unfold try_parsing_date.
  destruct (strptime s _); [discriminate|].
  destruct (strptime s _); [discriminate|]. by intros [= <-].
Qed.

Lemma py_float_error v err : py_float v = Raise err -> parser_error err.
Proof.
  unfold py_float. destruct v as [s|]; [|by intros [= <-]].
  destruct (float_of_str s); [discriminate | by intros [= <-]].
Qed.

Lemma receiver_point_error raw err :
  receiver_point raw = Raise err -> parser_error err.
Proof.
  unfold receiver_point, getitem. intros Hr.
  destruct (raw !! 140) as [v|]; [simpl in Hr | by injection Hr as <-].
  apply bind_Raise_inv in Hr as [Hr | (px & _ & Hr)]; [by eapply py_float_error|].
  destruct (raw !! 141) as [w|]; [simpl in Hr | by injection Hr as <-].
  apply bind_Raise_inv in Hr as [Hr | (py & _ & Hr)]; [by eapply py_float_error|].
  discriminate.
Qed.

Lemma goal_timestamp_error g type_id raw start err :
  goal_timestamp g type_id raw start = Raise err -> parser_error err.
Proof.
  unfold goal_timestamp.
  destruct (type_id =? EVENT_TYPE_SHOT_GOAL); [|discriminate].
  destruct (raw !! 374) as [[s|]|]; [|by intros [= <-]|discriminate].
  intros Hr. apply bind_Raise_inv in Hr as [Hr | (d & _ & Hr)];
    [by eapply try_parsing_date_error | discriminate].
Qed.

Lemma py_int_error v err : py_int v = Raise err -> parser_error err.
Proof.
  unfold py_int. destruct v as [s|]; [|by intros [= <-]].
  destruct (int_of_str s); [discriminate | by intros [= <-]].
Qed.

Lemma _parse_formation_change_error raw err :
  _parse_formation_change raw = Raise err -> parser_error err.
Proof.
  unfold _parse_formation_change. intros Hr.
  apply bind_Raise_inv in Hr as [Hr | (v & _ & Hr)].
  { unfold getitem in Hr. destruct (raw !! _); [discriminate | by injection Hr as <-]. }
  apply bind_Raise_inv in Hr as [Hr | (n & _ & Hr)]; [by eapply py_int_error|].
  destruct (assoc n formations_num); [discriminate | by injection Hr as <-].
Qed.

Lemma dispatch_error g raw outcome c start type_id err :
  dispatch g type_id raw outcome c start = Raise err -> parser_error err.
Proof.
  intros Hd.
  destruct (decide (type_id = EVENT_TYPE_PASS)) as [->|N1].
  { rewrite dispatch_pass in Hd.
    apply bind_Raise_inv in Hd as [Hd | (? & _ & Hd)];
      [by eapply receiver_point_error | discriminate]. }
  destruct (decide (type_id = EVENT_TYPE_OFFSIDE_PASS)) as [->|N2].
  { rewrite dispatch_offside_pass in Hd.
    apply bind_Raise_inv in Hd as [Hd | (? & _ & Hd)];
      [by eapply receiver_point_error | discriminate]. }
  destruct (decide (type_id = EVENT_TYPE_SHOT_GOAL)) as [->|N16].
  { rewrite dispatch_shot in Hd by repeat constructor.
    apply bind_Raise_inv in Hd as [Hd | (? & _ & Hd)];
      [by eapply goal_timestamp_error | discriminate]. }
  destruct (decide (type_id = EVENT_TYPE_FORMATION_CHANGE)) as [->|N40].
  { unfold dispatch in Hd. simpl in Hd.
    apply bind_Raise_inv in Hd as [Hd | (? & _ & Hd)];
      [by eapply _parse_formation_change_error | discriminate]. }
  exfalso.
  destruct (dispatch_total g raw outcome c start type_id) as [e He].
  { unfold FALLIBLE_EVENTS. rewrite !not_elem_of_cons.
    repeat split; try assumption. apply not_elem_of_nil. }
  congruence.
Qed.

Lemma process_record_Raise home away periods poss r err :
  process_record home away periods poss r = Raise err ->
  parser_error err \/ resolve_team home away r = Raise err.
Proof.
  unfold process_record. intros Hp.
  apply bind_Raise_inv in Hp as [Hp | (ts & _ & Hp)];
    [left; by eapply try_parsing_date_error|].
  destruct (find_period periods (EventData.periodId r)) as [[i p]|]; [|discriminate].
  destruct (EventData.typeId r =? EVENT_TYPE_START_PERIOD); [discriminate|].
  destruct (EventData.typeId r =? EVENT_TYPE_END_PERIOD); [discriminate|].
  destruct (Period.start_timestamp p); [|discriminate].
  apply bind_Raise_inv in Hp as [Hp | (tm & _ & Hp)]; [by right|].
  apply bind_Raise_inv in Hp as [Hp | (? & _ & Hp)];
    [left; by eapply dispatch_error | discriminate].
Qed.

Lemma parse_periods_error period_data : forall err,
  parse_periods period_data = Raise err -> parser_error err.
Proof.
  induction period_data as [|per rest IH]; intros err Hp; simpl in Hp; [discriminate|].
  apply bind_Raise_inv in Hp as [Hp | (? & _ & Hp)];
    [by eapply try_parsing_date_error|].
  apply bind_Raise_inv in Hp as [Hp | (? & _ & Hp)];
    [by eapply try_parsing_date_error|].
  apply bind_Raise_inv in Hp as [Hp | (? & _ & Hp)]; [by apply IH | discriminate].
Qed.

Lemma parser_error_kind err :
  parser_error err ->
  err <> IndexError /\ forall text, err <> DeserializationError text.
Proof. destruct err; simpl; intros Hp; try contradiction; split; try discriminate. Qed.

(** X15: what a failing call can raise.  [deserialize] never raises
    [IndexError]; when it raises [DeserializationError], the message is
    either "LineUp incomplete" or "Unknown team_id " followed by the value
    of the "team_id" key of a record of the feed whose "contestantId" is
    neither side, so a record without that key cannot produce it. *)
Theorem deserialize_errors home away period_data event err :
  deserialize home away period_data event = Raise err ->
  err <> IndexError /\
  forall msg,
    err = DeserializationError msg ->
    msg = "LineUp incomplete" \/
    exists r v,
      r ∈ event /\
      EventData.team_id r = Some v /\
      EventData.contestantId r <> team_id home /\
      EventData.contestantId r <> team_id away /\
      msg = ("Unknown team_id " ++ v)%string.
Proof.
  unfold deserialize. intros Hd.
  destruct (_ || _).
  { injection Hd as <-. split; [discriminate|]. intros msg [= <-]. by left. }
  apply bind_Raise_inv in Hd as [Hd | (periods0 & _ & Hd)].
  { apply parse_periods_error, parser_error_kind in Hd as [Hi Hd].
    split; [exact Hi | intros msg Hmsg; by destruct (Hd msg)]. }
  apply bind_Raise_inv in Hd as [Hd | (? & _ & Hd)]; [|discriminate].
  apply for_each_Raise in Hd as (pre & r & post & st & -> & _ & Hr).
  unfold loop_body in Hr.
  apply bind_Raise_inv in Hr as [Hr | (? & _ & Hr)]; [|discriminate].
  apply process_record_Raise in Hr as [Hr | Hr].
  { apply parser_error_kind in Hr as [Hi Hr].
    split; [exact Hi | intros msg Hmsg; by destruct (Hr msg)]. }
  unfold resolve_team in Hr.
  destruct (String.eqb_spec (EventData.contestantId r) (team_id home)) as [|Nh];
    [discriminate|].
  destruct (String.eqb_spec (EventData.contestantId r) (team_id away)) as [|Na];
    [discriminate|].
  destruct (EventData.team_id r) as [v|] eqn:Hv; injection Hr as <-.
  - split; [discriminate|]. intros msg [= <-]. right. exists r, v.
    repeat split; try assumption. apply elem_of_app. right. left.
  - split; [discriminate | intros msg; discriminate].
Qed.

End Dispatcher.

Section Runs.

Import Samples Feeds Documents.

#[local] Existing Instance Samples.statsperform.

(** The dispatcher fails on the sample pass without slot 140 because its
    receiver slots cannot be read. *)
Lemma dispatch_failures_witness :
  raised (receiver_point (raw_qualifiers_of (EventData.qualifier pass_without_140))).
Proof.
  destruct (dispatch_failures
              (make_generic_event_kwargs 0 (sec 0) (sec 5) None home pass_without_140)
              (raw_qualifiers_of (EventData.qualifier pass_without_140))
              1 {| x := 50%float; y := 50%float |} (sec 0) EVENT_TYPE_PASS)
    as [[_ Hr] | [[Hn _] | [Hn _]]].
  - exists (KeyError (KInt 140)). reflexivity.
  - exact Hr.
  - discriminate Hn.
  - discriminate Hn.
Defined.

(** The card of the sample feed is built with a dead ball. *)
Lemma ball_state_by_type_witness :
  exists poss e,
    process_record home away started1 None card_home = Return (Built poss e) /\
    ball_state (generic e) = DEAD.
Proof.
  destruct (process_record home away started1 None card_home)
    as [[| |poss e]|] eqn:Hp; try (vm_compute in Hp; discriminate).
  exists poss, e. split; [reflexivity|].
  rewrite (ball_state_by_type home away started1 None card_home poss e Hp).
  reflexivity.
Defined.

(** A pass of the team "t-other" in a record with a "team_id" key aborts
    the call with the message that names the key's value. *)
Lemma deserialize_errors_witness :
  exists r v,
    r ∈ [start1; pass_foreign_team] /\
    EventData.team_id r = Some v /\
    EventData.contestantId r <> team_id home /\
    EventData.contestantId r <> team_id away /\
    "Unknown team_id t-other" = ("Unknown team_id " ++ v)%string.
Proof.
  assert (deserialize home away [period1] [start1; pass_foreign_team] =
          Raise (DeserializationError "Unknown team_id t-other")) as Hd
    by reflexivity.
  destruct (proj2 (deserialize_errors home away [period1] [start1; pass_foreign_team]
                     _ Hd) _ eq_refl) as [Habs | Hex];
    [discriminate | exact Hex].
Defined.

End Runs.

End StatsPerformDispatch.

(** ** Stats Perform: the tables and the raw qualifier dict *)

Module StatsPerformTables.

Import StatsPerform StatsPerformFacts.

Lemma assoc_None {V} (k : Z) (d : list (Z * V)) :
  assoc k d = None <-> k ∉ d.*1.
Proof.
  induction d as [|[k' v] d IH]; simpl.
  - split; [intros _; apply not_elem_of_nil | reflexivity].
  - rewrite not_elem_of_cons. destruct (Z.eqb_spec k k') as [->|Hne].
    + split; [discriminate | intros [Hk _]; contradiction].
    + rewrite IH. tauto.
Qed.

Lemma assoc_Some {V} (k : Z) (d : list (Z * V)) (v : V) :
  assoc k d = Some v -> (k, v) ∈ d.
Proof.
  induction d as [|[k' v'] d IH]; simpl; [discriminate|].
  destruct (Z.eqb_spec k k') as [->|Hne].
  - intros [= ->]. left.
  - intros Hd. right. auto.
Qed.

Lemma assoc_inj {V} (d : list (Z * V)) (k1 k2 : Z) (v : V) :
  NoDup d.*2 -> assoc k1 d = Some v -> assoc k2 d = Some v -> k1 = k2.
Proof.
  intros Hnd H1%assoc_Some H2%assoc_Some.
  apply list_elem_of_lookup in H1 as [i Hi], H2 as [j Hj].
  assert (d.*2 !! i = Some v) as Hi2 by (by rewrite list_lookup_fmap, Hi).
  assert (d.*2 !! j = Some v) as Hj2 by (by rewrite list_lookup_fmap, Hj).
  assert (i = j) as -> by (eapply NoDup_lookup; eauto).
  congruence.
Qed.

Lemma formations_num_keys : formations_num.*1 = seqZ 2 24.
Proof. reflexivity. Qed.

Lemma event_type_names_keys : event_type_names.*1 = seqZ 1 77.
Proof. reflexivity. Qed.

Lemma raw_qualifiers_of_snoc qs q :
  raw_qualifiers_of (qs ++ [q]) =
  <[QualifierElm.qualifierId q := QualifierElm.value q]> (raw_qualifiers_of qs).
Proof. unfold raw_qualifiers_of. rewrite foldl_app. reflexivity. Qed.

(** X16: the dict of raw qualifiers.  A code is looked up to the value of
    the last element of the "qualifier" list with that id, and is absent
    when the list has no such element; so a code is present exactly when
    some element has it, whether or not the element has a value. *)
Theorem raw_qualifiers_of_lookup (qs : list QualifierElm.t) (code : Z) :
  raw_qualifiers_of qs !! code =
    QualifierElm.value <$>
      last (filter (fun q => QualifierElm.qualifierId q = code) qs) /\
  (contains (raw_qualifiers_of qs) code = true <->
   exists q, q ∈ qs /\ QualifierElm.qualifierId q = code).
Proof.
  assert (raw_qualifiers_of qs !! code =
          QualifierElm.value <$>
            last (filter (fun q => QualifierElm.qualifierId q = code) qs)) as Hlook.
  { induction qs as [|q qs IH] using rev_ind; [reflexivity|].
    rewrite raw_qualifiers_of_snoc, filter_app.
    destruct (decide (QualifierElm.qualifierId q = code)) as [Heq|Hne].
    - rewrite filter_cons_True by assumption. rewrite filter_nil, last_snoc.
      rewrite Heq. apply lookup_insert_eq.
    - rewrite filter_cons_False by assumption. rewrite filter_nil, app_nil_r.
      rewrite lookup_insert_ne by assumption. exact IH. }
  split; [exact Hlook|].
  unfold contains. rewrite bool_decide_eq_true, Hlook, fmap_is_Some.
  rewrite last_is_Some. split.
  - intros Hne.
    destruct (filter (fun q => QualifierElm.qualifierId q = code) qs)
      as [|q l] eqn:Hf; [contradiction|].
    assert (q ∈ filter (fun q => QualifierElm.qualifierId q = code) qs) as Hin
      by (rewrite Hf; left).
    apply list_elem_of_filter in Hin as [Hid Hin]. eauto.
  - intros (q & Hin & Hid) Hnil.
    assert (q ∈ filter (fun q => QualifierElm.qualifierId q = code) qs) as Hq
      by (by apply list_elem_of_filter).
    rewrite Hnil in Hq. by apply elem_of_nil in Hq.
Qed.

Section Tables.

Context `{Collaborators}.

(** X17: a formation change is decoded through [formations_num], whose
    codes are 2 to 25.  With a slot 130 that reads as the integer [n], the
    formation is found when [2 <= n <= 25] and the call aborts with
    [KeyError(n)] otherwise; without the slot it aborts with
    [KeyError(130)]; and two codes never decode to the same formation. *)
Theorem formation_change_codes (raw : RawQualifiers) :
  (raw !! 130 = None ->
   _parse_formation_change raw = Raise (KeyError (KInt 130))) /\
  (forall s n,
      raw !! 130 = Some (Some s) -> int_of_str s = Some n ->
      (2 <= n <= 25 -> exists f, _parse_formation_change raw = Return f) /\
      (~ 2 <= n <= 25 -> _parse_formation_change raw = Raise (KeyError (KInt n)))) /\
  (forall n1 n2 f,
      assoc n1 formations_num = Some f -> assoc n2 formations_num = Some f ->
      n1 = n2).
Proof.
  split; [|split].
  - intros Hnone. unfold _parse_formation_change, getitem.
    change EVENT_QUALIFIER_TEAM_FORMATION with 130. by rewrite Hnone.
  - intros s n Hs Hn.
    assert (_parse_formation_change raw =
            match assoc n formations_num with
            | Some f => Return f
            | None => Raise (KeyError (KInt n))
            end) as ->.
    { unfold _parse_formation_change, getitem, py_int.
      change EVENT_QUALIFIER_TEAM_FORMATION with 130.
      rewrite Hs. cbn [mbind Exc_bind]. rewrite Hn. reflexivity. }
    split; intros Hrange.
    + destruct (assoc n formations_num) as [f|] eqn:Hf; [eauto|].
      apply assoc_None in Hf. rewrite formations_num_keys, elem_of_seqZ in Hf. lia.
    + destruct (assoc n formations_num) as [f|] eqn:Hf; [|reflexivity].
      apply assoc_Some, (list_elem_of_fmap_2 fst) in Hf. cbn [fst] in Hf.
      rewrite formations_num_keys, elem_of_seqZ in Hf. lia.
  - intros n1 n2 f. apply assoc_inj.
    apply (bool_decide_unpack _). vm_compute. exact I.
Qed.

(** X18: the label of a generic event.  An event built by the dispatcher
    is named "unknown" exactly when its type code is outside 1..77; the
    codes 1 to 77 without a builder of their own get the name the table
    gives them, which is never "unknown". *)
Theorem unknown_event_name g raw outcome c start type_id e :
  dispatch g type_id raw outcome c start = Return e ->
  event_name e = Some "unknown" <-> ~ 1 <= type_id <= 77.
Proof.
  intros Hd%dispatch_dispatched.
  assert (forall t, _get_event_type_name t = "unknown" <-> ~ 1 <= t <= 77) as Hname.
  { intros t. unfold _get_event_type_name.
    destruct (assoc t event_type_names) as [name|] eqn:Ht; simpl.
    - pose proof (assoc_Some _ _ _ Ht) as Hin.
      pose proof (list_elem_of_fmap_2 fst _ _ Hin) as Hk. cbn [fst] in Hk.
      rewrite event_type_names_keys, elem_of_seqZ in Hk.
      split; [|lia]. intros ->. exfalso.
      apply (list_elem_of_fmap_2 snd) in Hin. cbn [snd] in Hin. revert Hin.
      apply (bool_decide_unpack _). vm_compute. exact I.
    - apply assoc_None in Ht. rewrite event_type_names_keys, elem_of_seqZ in Ht.
      split; [lia | reflexivity]. }
  assert (forall t, 1 <= t <= 77 -> None = Some "unknown" <-> ~ 1 <= t <= 77) as Hknown
    by (intros t Ht; split; [discriminate | contradiction]).
  destruct Hd as [rc Hrc|rc Hrc| |t g' Hshot Hg'| | |t Hout|f Hf| |t Hnot]; simpl.
  - apply Hknown. by compute.
  - apply Hknown. by compute.
  - apply Hknown. by compute.
  - apply Hknown.
    unfold SHOT_EVENTS in Hshot. rewrite !elem_of_cons, elem_of_nil in Hshot.
    destruct Hshot as [->|[->|[->|[->|[]]]]]; by compute.
  - apply Hknown. by compute.
  - apply Hknown. by compute.
  - apply Hknown.
    unfold BALL_OUT_EVENTS in Hout. rewrite !elem_of_cons, elem_of_nil in Hout.
    destruct Hout as [->|[->|[]]]; by compute.
  - apply Hknown. by compute.
  - apply Hknown. by compute.
  - rewrite <- Hname. split; [by intros [= ->] | by intros ->].
Qed.

End Tables.

Section Runs.

Import Samples Feeds Documents.

#[local] Existing Instance Samples.statsperform.

(** A record of type 99 is built as a generic event named "unknown". *)
Lemma unknown_event_name_witness :
  exists e,
    dispatch (make_generic_event_kwargs 0 (sec 0) (sec 5) None home record_99)
      99 ∅ 1 {| x := 50%float; y := 50%float |} (sec 0) = Return e /\
    event_name e = Some "unknown".
Proof.
  destruct (dispatch (make_generic_event_kwargs 0 (sec 0) (sec 5) None home record_99)
              99 ∅ 1 {| x := 50%float; y := 50%float |} (sec 0)) as [e|] eqn:Hd;
    [|vm_compute in Hd; discriminate].
  exists e. split; [reflexivity|].
  apply (proj2 (unknown_event_name _ _ _ _ _ _ _ Hd)). lia.
Defined.

End Runs.

End StatsPerformTables.

(** ** UEFA: what the loop keeps *)

Module UefaInvariants.

Import Uefa UefaTerms UefaFacts LoopFacts.

Lemma phase_to_period_range phase n :
  phase_to_period PHASE_TO_PERIOD phase = Return n -> n = 1 \/ n = 2.
Proof.
  unfold PHASE_TO_PERIOD; simpl.
  destruct (String.eqb phase "FIRST_HALF"); [intros [= <-]; auto|].
  destruct (String.eqb phase "SECOND_HALF"); [intros [= <-]; auto | discriminate].
Qed.

Lemma period_at_Some (periods : list Period.t) n i p :
  period_at periods n = Return (i, p) -> i = Z.to_nat n /\ periods !! i = Some p.
Proof.
  unfold period_at. destruct (periods !! Z.to_nat n) as [q|] eqn:Hq; [|discriminate].
  intros [= <- <-]. auto.
Qed.

Section Loop.

Context `{Collaborators}.

Implicit Types (e : Event EventElm.t) (r : EventElm.t) (st : State)
  (home away : Team).

(** The four ways an iteration ends normally. *)
Lemma loop_body_cases home away st r st' :
  loop_body home away st r = Return st' ->
  (EventElm.timestamp r = None /\ st' = st) \/
  (exists s ts,
      EventElm.timestamp r = Some s /\ fromisoformat s = Some ts /\
      ((EventElm.type r = EVENT_TYPE_START_PERIOD /\
        exists n,
          phase_to_period PHASE_TO_PERIOD (EventElm.phase r) = Return n /\
          st' = {| periods :=
                     periods st ++
                     [ {| Period.id := n; Period.start_timestamp := Some ts;
                          Period.end_timestamp := None |} ];
                   possession_team := possession_team st;
                   events := events st |}) \/
       (EventElm.type r <> EVENT_TYPE_START_PERIOD /\
        EventElm.type r = EVENT_TYPE_END_PERIOD /\
        exists n i p,
          phase_to_period PHASE_TO_PERIOD (EventElm.phase r) = Return n /\
          period_at (periods st) (n - 1) = Return (i, p) /\
          st' = {| periods := <[i := Period.set_end p ts]> (periods st);
                   possession_team := possession_team st;
                   events := events st |}) \/
       (EventElm.type r <> EVENT_TYPE_START_PERIOD /\
        EventElm.type r <> EVENT_TYPE_END_PERIOD /\
        exists poss e,
          build_event home away (periods st) ts r = Return (poss, e) /\
          st' = {| periods := periods st; possession_team := poss;
                   events := append_event (events st) e |}))).
Proof.
  unfold loop_body. intros Hl.
  destruct (EventElm.timestamp r) as [s|]; [|left; by injection Hl as <-].
  destruct (fromisoformat s) as [ts|] eqn:Hts; [|discriminate].
  right. exists s, ts. split; [reflexivity|]. split; [exact Hts|].
  destruct (String.eqb_spec (EventElm.type r) EVENT_TYPE_START_PERIOD) as [Hs|Ns].
  { left. split; [exact Hs|]. inv_bind Hl. injection Hl as <-. eauto. }
  right.
  destruct (String.eqb_spec (EventElm.type r) EVENT_TYPE_END_PERIOD) as [He|Ne].
  { left. split; [exact Ns|]. split; [exact He|].
    inv_bind Hl. rename a into n. inv_bind Hl. destruct a as [i p].
    injection Hl as <-. exists n, i, p. auto. }
  right. split; [exact Ns|]. split; [exact Ne|].
  inv_bind Hl. destruct a as [poss e]. injection Hl as <-. eauto.
Qed.

Lemma for_each_openings home away rs : forall st st',
  for_each (loop_body home away) st rs = Return st' ->
  exists ks,
    opening <$> periods st' = (opening <$> periods st) ++ ks /\
    Forall2 opening_of (filter opens_period rs) ks.
Proof.
  induction rs as [|r rs IH]; intros st st' Hrun; simpl in Hrun.
  - injection Hrun as <-. exists []. by rewrite app_nil_r.
  - inv_bind Hrun. rename a into st1, Ha into Hl.
    destruct (IH _ _ Hrun) as (ks & Hids & Hks).
    apply loop_body_cases in Hl
      as [[Hnone ->] | (s & ts & Hs & Hts &
           [(Hstart & n & Hn & ->) |
            [(Ns & _ & n & i & p & _ & Hat & ->) | (Ns & _ & poss & e & _ & ->)]])].
    + rewrite filter_cons_False; [eauto|].
      intros [_ [? Hsome]]. congruence.
    + rewrite filter_cons_True by (split; [exact Hstart | by eexists]).
      simpl in Hids. exists ((n, Some ts) :: ks).
      rewrite fmap_app in Hids. simpl in Hids. rewrite <- app_assoc in Hids.
      split; [exact Hids|]. constructor; [|exact Hks].
      exists s, ts. auto.
    + rewrite filter_cons_False by (intros [? _]; contradiction).
      apply period_at_Some in Hat as [_ Hi]. simpl in Hids.
      exists ks. split; [|exact Hks].
      rewrite Hids, list_fmap_insert. f_equal. apply list_insert_id.
      by rewrite list_lookup_fmap, Hi.
    + rewrite filter_cons_False by (intros [? _]; contradiction).
      simpl in Hids. eauto.
Qed.

(** X19: the periods of a UEFA run are made by its [START_PHASE] records
    and by nothing else.  The output has one period for each
    [START_PHASE] record with a timestamp, in the order in which the
    records are processed (the document from its end), with the number of
    the record's phase as id and the record's timestamp as start; an
    [END_PHASE] never adds a period or touches an id or a start, and a
    repeated [START_PHASE] of one phase gives a second period. *)
Theorem periods_from_start_records home away event_data ds :
  deserialize home away event_data = Return ds ->
  Forall2 (fun r p => opening_of r (opening p))
          (filter opens_period (rev event_data)) (Domain.periods ds).
Proof.
  unfold deserialize. intros Hd.
  destruct (_ || _); [discriminate|].
  inv_bind Hd. injection Hd as <-. simpl.
  destruct (for_each_openings _ _ _ _ _ Ha) as (ks & Hids & Hks).
  simpl in Hids. rewrite <- Hids, Forall2_fmap_r in Hks. exact Hks.
Qed.

(** Every period of a run has a start timestamp. *)
Lemma for_each_started home away rs : forall st st',
  for_each (loop_body home away) st rs = Return st' ->
  Forall started (periods st) -> Forall started (periods st').
Proof.
  intros st st' Hrun Hall.
  destruct (for_each_openings _ _ _ _ _ Hrun) as (ks & Hids & Hks).
  assert (Forall (fun k : Z * option datetime => is_Some k.2)
                 (opening <$> periods st')) as Hk.
  { rewrite Hids. apply Forall_app. split.
    - apply Forall_fmap. exact Hall.
    - clear Hids. induction Hks as [|r k rs' ks' (s & ts & _ & _ & _ & Hk) _ IH];
        constructor; [rewrite Hk; by eexists | exact IH]. }
  rewrite Forall_fmap in Hk. exact Hk.
Qed.


(** What [build_event] puts in the event it returns. *)
Lemma build_event_frame home away periods ts r poss e :
  build_event home away periods ts r = Return (poss, e) ->
  event_id (generic e) = EventElm.id r /\
  raw_event (generic e) = r /\
  ball_state (generic e) = ALIVE /\
  exists n p start,
    phase_to_period PHASE_TO_PERIOD (EventElm.phase r) = Return n /\
    period (generic e) = Z.to_nat (n - 1) /\
    periods !! period (generic e) = Some p /\
    Period.start_timestamp p = Some start /\
    timestamp (generic e) = ts - start.
Proof.
  intros Hb.
  destruct (build_event_timestamp _ _ _ _ _ _ _ Hb)
    as (n & p & start & Hn & Hp & Hper & Hstart & Hts).
  assert (event_id (generic e) = EventElm.id r /\ raw_event (generic e) = r /\
          ball_state (generic e) = ALIVE) as (Hid & Hraw & Hball).
  { unfold build_event in Hb.
    inv_bind Hb. inv_bind Hb. destruct a0 as [i q].
    inv_bind Hb. destruct a0 as [tm pl].
    inv_bind Hb. injection Hb as <- <-.
    destruct (String.eqb (EventElm.type r) EVENT_TYPE_SHOT_WIDE); simpl; auto. }
  repeat split; try assumption.
  exists n, p, start. rewrite Hper. auto.
Qed.

(** A period keeps its position and its opening to the end of the run. *)
Lemma for_each_lookup home away rs st st' (i : nat) p :
  for_each (loop_body home away) st rs = Return st' ->
  periods st !! i = Some p ->
  exists p', periods st' !! i = Some p' /\ opening p' = opening p.
Proof.
  intros Hrun Hi.
  destruct (for_each_openings _ _ _ _ _ Hrun) as (ks & Hids & _).
  assert ((opening <$> periods st') !! i = Some (opening p)) as Hk.
  { rewrite Hids. apply lookup_app_l_Some. by rewrite list_lookup_fmap, Hi. }
  rewrite list_lookup_fmap in Hk.
  destruct (periods st' !! i) as [p'|]; [|discriminate].
  simpl in Hk. exists p'. split; [reflexivity|]. by apply (inj Some).
Qed.

Lemma for_each_emitted home away rs : forall st st',
  for_each (loop_body home away) st rs = Return st' ->
  exists es,
    events st' = events st ++ (transform_event <$> es) /\
    (fun e => raw_event (generic e)) <$> es `sublist_of` rs /\
    Forall (emitted (periods st')) es.
Proof.
  induction rs as [|r rs IH]; intros st st' Hrun; simpl in Hrun.
  - injection Hrun as <-. exists []. rewrite app_nil_r. repeat split; constructor.
  - inv_bind Hrun. rename a into st1, Ha into Hl.
    destruct (IH _ _ Hrun) as (es & Hev & Hsub & Hall).
    apply loop_body_cases in Hl
      as [[Hnone ->] | (s & ts & Hs & Hts &
           [(Hstart & n & Hn & ->) |
            [(Ns & _ & n & i & p & _ & Hat & ->) | (Ns & Ne & poss & e & Hb & ->)]])];
      simpl in Hev;
      try (exists es; split; [exact Hev|]; split; [by apply sublist_cons | exact Hall]).
    unfold append_event in Hev.
    destruct (should_include_event e) eqn:Hinc;
      [|exists es; split; [exact Hev|]; split; [by apply sublist_cons | exact Hall]].
    destruct (build_event_frame _ _ _ _ _ _ _ Hb)
      as (Hid & Hraw & _ & n & p & start & Hn & Hper & Hp & Hstart & Hrel).
    destruct (for_each_lookup _ _ _ _ _ _ _ Hrun Hp) as (p' & Hp' & Hopen).
    exists (e :: es). split; [by rewrite Hev, <- app_assoc|].
    split; [rewrite fmap_cons, Hraw; by apply sublist_skip|].
    constructor; [|exact Hall].
    unfold emitted. rewrite Hid, Hraw. repeat split; try assumption.
    exists s, ts, n, p', start. repeat split; try assumption.
    injection Hopen as _ Hopen. by rewrite Hopen.
Qed.

(** X20: the UEFA output follows the document from its end and never
    invents an event.  The records of a successful call are the transforms
    of built events that passed the inclusion filter; the raw records of
    these events form a subsequence of the reversed document; each event
    carries the identifier of its raw record, and none comes from a
    [START_PHASE] or an [END_PHASE]. *)
Theorem uefa_output_is_subsequence home away event_data ds :
  deserialize home away event_data = Return ds ->
  exists es,
    records ds = transform_event <$> es /\
    (fun e => raw_event (generic e)) <$> es `sublist_of` rev event_data /\
    Forall (fun e =>
              should_include_event e = true /\
              event_id (generic e) = EventElm.id (raw_event (generic e)) /\
              EventElm.type (raw_event (generic e)) <> EVENT_TYPE_START_PERIOD /\
              EventElm.type (raw_event (generic e)) <> EVENT_TYPE_END_PERIOD) es.
Proof.
  unfold deserialize. intros Hd.
  destruct (_ || _); [discriminate|].
  inv_bind Hd. injection Hd as <-. simpl.
  destruct (for_each_emitted _ _ _ _ _ Ha) as (es & Hev & Hsub & Hall).
  exists es. split; [exact Hev|]. split; [exact Hsub|].
  eapply Forall_impl; [exact Hall|].
  intros e (? & ? & ? & ? & _). auto.
Qed.

(** X21: the timestamp of a UEFA event is relative to the period it
    refers to.  Every event of a successful call refers to the period at
    position [n - 1] of the output's period list, [n] being the number of
    its phase; that period exists and has a start, and the event's
    timestamp is the record's timestamp minus that start. *)
Theorem uefa_relative_timestamp home away event_data ds :
  deserialize home away event_data = Return ds ->
  exists es,
    records ds = transform_event <$> es /\
    Forall (fun e =>
              exists s ts n p start,
                EventElm.timestamp (raw_event (generic e)) = Some s /\
                fromisoformat s = Some ts /\
                phase_to_period PHASE_TO_PERIOD
                  (EventElm.phase (raw_event (generic e))) = Return n /\
                period (generic e) = Z.to_nat (n - 1) /\
                Domain.periods ds !! period (generic e) = Some p /\
                Period.start_timestamp p = Some start /\
                timestamp (generic e) = ts - start) es.
Proof.
  unfold deserialize. intros Hd.
  destruct (_ || _); [discriminate|].
  inv_bind Hd. injection Hd as <-. simpl.
  destruct (for_each_emitted _ _ _ _ _ Ha) as (es & Hev & _ & Hall).
  exists es. split; [exact Hev|].
  eapply Forall_impl; [exact Hall|].
  intros e (_ & _ & _ & _ & Hrel). exact Hrel.
Qed.

Lemma loop_body_no_timestamp home away st r :
  EventElm.timestamp r = None -> loop_body home away st r = Return st.
Proof. unfold loop_body. by intros ->. Qed.

Lemma for_each_filter_timestamp home away rs : forall st,
  for_each (loop_body home away) st rs =
  for_each (loop_body home away) st
    (filter (fun r => is_Some (EventElm.timestamp r)) rs).
Proof.
  induction rs as [|r rs IH]; intros st; [reflexivity|].
  destruct (EventElm.timestamp r) as [s|] eqn:Hs.
  - rewrite filter_cons_True by (simpl; rewrite Hs; by eexists). simpl.
    destruct (loop_body home away st r); [simpl; apply IH | reflexivity].
  - rewrite filter_cons_False by (simpl; rewrite Hs; by intros [? ?]).
    cbn [for_each]. rewrite (loop_body_no_timestamp home away st r Hs). apply IH.
Qed.

Lemma filter_rev {A} (P : A -> Prop) `{forall x, Decision (P x)} (l : list A) :
  filter P (rev l) = rev (filter P l).
Proof.
  induction l as [|x l IH]; [reflexivity|]. simpl rev. rewrite filter_app, IH.
  destruct (decide (P x)).
  - rewrite !filter_cons_True by assumption. reflexivity.
  - rewrite !filter_cons_False by assumption. rewrite filter_nil. apply app_nil_r.
Qed.

(** X22: a record without a timestamp is invisible.  Deserializing a
    document and deserializing it without the records that have no
    "timestamp" key give the same result, an exception included: such a
    record is skipped whatever its type and phase, a period marker
    included. *)
Theorem records_without_timestamp_are_invisible home away event_data :
  deserialize home away event_data =
  deserialize home away
    (filter (fun r => is_Some (EventElm.timestamp r)) event_data).
Proof.
  unfold deserialize. destruct (_ || _); [reflexivity|].
  by rewrite <- filter_rev, <- for_each_filter_timestamp.
Qed.


Lemma phase_to_period_Raise phase err :
  phase_to_period PHASE_TO_PERIOD phase = Raise err ->
  err = KeyError (KStr phase) /\ phase ∉ PHASE_TO_PERIOD.*1.
Proof.
  unfold PHASE_TO_PERIOD; simpl.
  destruct (String.eqb_spec phase "FIRST_HALF") as [|N1]; [discriminate|].
  destruct (String.eqb_spec phase "SECOND_HALF") as [|N2]; [discriminate|].
  intros [= <-]. split; [reflexivity|].
  rewrite !not_elem_of_cons. repeat split; try assumption. apply not_elem_of_nil.
Qed.

Lemma resolve_actor_Raise home away r err :
  resolve_actor home away r = Raise err ->
  exists actor tid,
    EventElm.primaryActor r = Some actor /\ Actor.team actor = Some tid /\
    tid <> team_id home /\ tid <> team_id away /\
    err = DeserializationError ("Unknown team_id " ++ tid)%string.
Proof.
  unfold resolve_actor. intros Hr.
  destruct (EventElm.primaryActor r) as [actor|]; [|discriminate].
  destruct (Actor.team actor) as [tid|] eqn:Htid; [|discriminate].
  destruct (String.eqb_spec tid (team_id home)) as [|Nh]; [discriminate|].
  destruct (String.eqb_spec tid (team_id away)) as [|Na]; [discriminate|].
  injection Hr as <-. exists actor, tid. auto.
Qed.

(** The ways an iteration fails. *)
Lemma loop_body_Raise home away st r err :
  loop_body home away st r = Raise err ->
  exists s,
    EventElm.timestamp r = Some s /\
    ((exists text, err = ValueError text) \/
     phase_to_period PHASE_TO_PERIOD (EventElm.phase r) = Raise err \/
     (exists n,
         phase_to_period PHASE_TO_PERIOD (EventElm.phase r) = Return n /\
         EventElm.type r <> EVENT_TYPE_START_PERIOD /\
         ((periods st !! Z.to_nat (n - 1) = None /\ err = IndexError) \/
          resolve_actor home away r = Raise err \/
          (err = TypeError /\ ~ Forall started (periods st))))).
Proof.
  unfold loop_body. intros Hl.
  destruct (EventElm.timestamp r) as [s|]; [|discriminate].
  exists s. split; [reflexivity|].
  destruct (fromisoformat s) as [ts|]; [|injection Hl as <-; left; by eexists].
  right.
  destruct (String.eqb_spec (EventElm.type r) EVENT_TYPE_START_PERIOD) as [Hs|Ns].
  { apply bind_Raise_inv in Hl as [Hl | (? & _ & Hl)]; [by left | discriminate]. }
  destruct (String.eqb_spec (EventElm.type r) EVENT_TYPE_END_PERIOD) as [He|Ne].
  { apply bind_Raise_inv in Hl as [Hl | (n & Hn & Hl)]; [by left|].
    right. exists n. split; [exact Hn|]. split; [exact Ns|]. left.
    unfold period_at in Hl.
    destruct (periods st !! Z.to_nat (n - 1)); [discriminate|].
    by injection Hl as <-. }
  apply bind_Raise_inv in Hl as [Hl | ([poss e] & _ & Hl)]; [|discriminate].
  unfold build_event in Hl.
  apply bind_Raise_inv in Hl as [Hl | (n & Hn & Hl)]; [by left|].
  right. exists n. split; [exact Hn|]. split; [exact Ns|].
  unfold period_at in Hl.
  destruct (periods st !! Z.to_nat (n - 1)) as [p|] eqn:Hp;
    [|injection Hl as <-; by left].
  right. cbn [mbind Exc_bind] in Hl.
  apply bind_Raise_inv in Hl as [Hl | ([tm pl] & _ & Hl)]; [by left|].
  right.
  destruct (Period.start_timestamp p) as [start|] eqn:Hstart; [discriminate|].
  injection Hl as <-. split; [reflexivity|].
  intros Hall. destruct (proj1 (Forall_lookup _ _) Hall _ _ Hp) as [? Hsome].
  congruence.
Qed.

(** X23: what a failing UEFA call can raise, and for which record.
    A [DeserializationError] is "LineUp incomplete" or names the team id
    of a record whose primary actor is neither side; a [KeyError] carries
    the phase of a record with a timestamp whose phase is not in
    [PHASE_TO_PERIOD]; an [IndexError] comes from a record that is no
    [START_PHASE], of a phase number [n], before which fewer than [n]
    periods have been opened. *)
Theorem uefa_deserialize_errors home away event_data err :
  deserialize home away event_data = Raise err ->
  (forall msg,
      err = DeserializationError msg ->
      msg = "LineUp incomplete" \/
      exists r actor tid,
        r ∈ event_data /\
        EventElm.primaryActor r = Some actor /\ Actor.team actor = Some tid /\
        tid <> team_id home /\ tid <> team_id away /\
        msg = ("Unknown team_id " ++ tid)%string) /\
  (forall key,
      err = KeyError key ->
      exists r,
        r ∈ event_data /\ is_Some (EventElm.timestamp r) /\
        key = KStr (EventElm.phase r) /\
        EventElm.phase r ∉ PHASE_TO_PERIOD.*1) /\
  (err = IndexError ->
   exists before r after n,
     rev event_data = before ++ r :: after /\
     EventElm.type r <> EVENT_TYPE_START_PERIOD /\
     phase_to_period PHASE_TO_PERIOD (EventElm.phase r) = Return n /\
     (length (filter opens_period before) <= Z.to_nat (n - 1))%nat).
Proof.
  unfold deserialize. intros Hd.
  destruct (_ || _).
  { injection Hd as <-. split; [intros msg [= <-]; by left|].
    split; [intros key|]; discriminate. }
  apply bind_Raise_inv in Hd as [Hd | (? & _ & Hd)]; [|discriminate].
  apply for_each_Raise in Hd as (before & r & after & st & Hsplit & Hpre & Hr).
  assert (r ∈ event_data) as Hin.
  { apply list_elem_of_In, in_rev. rewrite Hsplit. apply in_elt. }
  apply loop_body_Raise in Hr
    as (s & Hs & [[text ->] | [Hphase | (n & Hn & Ns & [[Hnone ->] | [Hactor | [-> Hall]]])]]).
  - split; [intros msg|split; [intros key|]]; discriminate.
  - apply phase_to_period_Raise in Hphase as [-> Hnot].
    split; [intros msg; discriminate|]. split; [|discriminate].
    intros key [= <-]. exists r. repeat split; try assumption. by eexists.
  - split; [intros msg; discriminate|]. split; [intros key; discriminate|].
    intros _. exists before, r, after, n. repeat split; try assumption.
    destruct (for_each_openings _ _ _ _ _ Hpre) as (ks & Hids & Hks).
    apply lookup_ge_None in Hnone.
    apply Forall2_length in Hks. simpl in Hids.
    assert (length ks = length (periods st)) as Hlen
      by (by rewrite <- Hids, length_fmap).
    lia.
  - apply resolve_actor_Raise in Hactor
      as (actor & tid & Hactor & Htid & Nh & Na & ->).
    split; [|split; [intros key|]; discriminate].
    intros msg [= <-]. right. exists r, actor, tid. auto 10.
  - exfalso. apply Hall. eapply for_each_started; [exact Hpre | constructor].
Qed.

End Loop.

Section Runs.

Import Samples Feeds.

#[local] Existing Instance Samples.uefa.

(** The one period of the sample document comes from its [START_PHASE]
    record. *)
Lemma periods_from_start_records_witness :
  exists ds,
    deserialize home away uefa_shot_then_foul = Return ds /\
    Forall2 (fun r p => opening_of r (opening p))
            (filter opens_period (rev uefa_shot_then_foul)) (Domain.periods ds).
Proof.
  destruct (deserialize home away uefa_shot_then_foul) as [ds|] eqn:Hd;
    [|vm_compute in Hd; discriminate].
  exists ds. split; [reflexivity|].
  exact (periods_from_start_records home away uefa_shot_then_foul ds Hd).
Defined.

(** The shot and the foul of the sample document, in the order of
    processing. *)
Lemma uefa_output_is_subsequence_witness :
  exists ds es,
    deserialize home away uefa_shot_then_foul = Return ds /\
    records ds = transform_event <$> es /\
    (fun e => raw_event (generic e)) <$> es `sublist_of` rev uefa_shot_then_foul.
Proof.
  destruct (deserialize home away uefa_shot_then_foul) as [ds|] eqn:Hd;
    [|vm_compute in Hd; discriminate].
  destruct (uefa_output_is_subsequence home away uefa_shot_then_foul ds Hd)
    as (es & Hrec & Hsub & _).
  exists ds, es. auto.
Defined.

(** The events of the sample document are timed from the start of the
    first half. *)
Lemma uefa_relative_timestamp_witness :
  exists ds es,
    deserialize home away uefa_shot_then_foul = Return ds /\
    records ds = transform_event <$> es /\
    Forall (fun e =>
              exists p start,
                Domain.periods ds !! period (generic e) = Some p /\
                Period.start_timestamp p = Some start) es.
Proof.
  destruct (deserialize home away uefa_shot_then_foul) as [ds|] eqn:Hd;
    [|vm_compute in Hd; discriminate].
  destruct (uefa_relative_timestamp home away uefa_shot_then_foul ds Hd)
    as (es & Hrec & Hall).
  exists ds, es. split; [reflexivity|]. split; [exact Hrec|].
  eapply Forall_impl; [exact Hall|].
  intros e (s & ts & n & p & start & _ & _ & _ & _ & Hp & Hstart & _).
  exists p, start. auto.
Defined.

(** The sample document with a foul of the team "t-other". *)
Lemma uefa_deserialize_errors_witness :
  exists r actor tid,
    r ∈ uefa_unknown_team /\
    EventElm.primaryActor r = Some actor /\ Actor.team actor = Some tid /\
    tid <> team_id home /\ tid <> team_id away /\
    "Unknown team_id t-other" = ("Unknown team_id " ++ tid)%string.
Proof.
  assert (deserialize home away uefa_unknown_team =
          Raise (DeserializationError "Unknown team_id t-other")) as Hd
    by reflexivity.
  destruct (proj1 (uefa_deserialize_errors home away uefa_unknown_team _ Hd)
              _ eq_refl) as [Habs | Hex];
    [discriminate | exact Hex].
Defined.

End Runs.

End UefaInvariants.

(** ** Stats Perform: sides, line-ups and score *)

Module StatsPerformMetadataFacts.

Import StatsPerform StatsPerformMetadata LoopFacts.

Lemma getitem_str_Return {V} (d : list (string * V)) (k : string) :
  (exists v, getitem_str d k = Return v) <-> k ∈ d.*1.
Proof.
  induction d as [|[k' v'] d IH]; simpl.
  - split; [intros [v Hv]; discriminate | intros Hin; by apply elem_of_nil in Hin].
  - rewrite elem_of_cons. destruct (String.eqb_spec k k') as [->|Hne].
    + split; [by left | by eexists].
    + rewrite IH. split; [by right | by intros [?|?]].
Qed.

Lemma getitem_str_Raise {V} (d : list (string * V)) (k : string) err :
  getitem_str d k = Raise err -> err = KeyError (KStr k).
Proof.
  induction d as [|[k' v'] d IH]; simpl; [by intros [= <-]|].
  destruct (String.eqb k k'); [discriminate | exact IH].
Qed.

Lemma parse_player_Return player_data player :
  parse_player player_data = Return player -> player_of player_data player.
Proof.
  unfold parse_player, player_of, getkey.
  destruct (String.eqb_spec (PlayerData.position player_data) "Substitute")
    as [Hsub|Hnot]; simpl.
  - destruct (PlayerData.subPosition player_data); [|discriminate].
    intros [= <-]; simpl. repeat split; try discriminate. by intros ?.
  - destruct (PlayerData.formationPlace player_data); [|discriminate].
    intros [= <-]; simpl. repeat split; auto.
Qed.

Lemma parse_player_well_keyed player_data :
  (exists player, parse_player player_data = Return player) <->
  well_keyed player_data.
Proof.
  unfold parse_player, well_keyed, getkey.
  destruct (String.eqb (PlayerData.position player_data) "Substitute"); simpl.
  - destruct (PlayerData.subPosition player_data); simpl.
    + split; [by eexists | by eexists].
    + split; [intros [? ?]; discriminate | by intros [? ?]].
  - destruct (PlayerData.formationPlace player_data); simpl.
    + split; [by eexists | by eexists].
    + split; [intros [? ?]; discriminate | by intros [? ?]].
Qed.

Lemma parse_player_Raise player_data err :
  parse_player player_data = Raise err ->
  err = KeyError (KStr "formationPlace") \/ err = KeyError (KStr "subPosition").
Proof.
  unfold parse_player, getkey.
  destruct (String.eqb (PlayerData.position player_data) "Substitute"); simpl.
  - destruct (PlayerData.subPosition player_data); [discriminate|].
    intros [= <-]. by right.
  - destruct (PlayerData.formationPlace player_data); [discriminate|].
    intros [= <-]. by left.
Qed.

Lemma add_players_Return player_list : forall players players',
  for_each add_player players player_list = Return players' ->
  exists parsed,
    players' = players ++ parsed /\
    Forall2 (fun player_data player => parse_player player_data = Return player)
            player_list parsed.
Proof.
  induction player_list as [|pd rest IH]; intros players players' Hrun;
    simpl in Hrun.
  - injection Hrun as <-. exists []. by rewrite app_nil_r.
  - inv_bind Hrun. unfold add_player in Ha. inv_bind Ha. injection Ha as <-.
    destruct (IH _ _ Hrun) as (parsed & -> & Hall).
    exists (a0 :: parsed). split; [by rewrite <- app_assoc|]. by constructor.
Qed.

Lemma add_players_total player_list : forall players,
  Forall well_keyed player_list ->
  exists players', for_each add_player players player_list = Return players'.
Proof.
  induction player_list as [|pd rest IH]; intros players Hall; [by eexists|].
  apply Forall_cons in Hall as [Hpd Hrest].
  apply parse_player_well_keyed in Hpd as [player Hplayer].
  assert (add_player players pd = Return (players ++ [player])) as Hadd
    by (unfold add_player; by rewrite Hplayer).
  cbn [for_each]. rewrite Hadd. by apply IH.
Qed.

Lemma add_players_Raise player_list : forall players err,
  for_each add_player players player_list = Raise err ->
  (err = KeyError (KStr "formationPlace") \/ err = KeyError (KStr "subPosition")) /\
  ~ Forall well_keyed player_list.
Proof.
  intros players err Hrun.
  apply for_each_Raise in Hrun as (before & pd & after & ? & -> & _ & Hpd).
  unfold add_player in Hpd.
  apply bind_Raise_inv in Hpd as [Hpd | (? & _ & Hpd)]; [|discriminate].
  split; [by eapply parse_player_Raise|].
  intros Hall. apply Forall_app in Hall as [_ Hall].
  apply Forall_cons in Hall as [Hkeyed _].
  apply parse_player_well_keyed in Hkeyed as [? ?]. congruence.
Qed.

(** X24: when [_parse_team] succeeds.  A team is parsed exactly when the
    formation string of its line-up is a key of [formations_str] and every
    player has the key read for it, "subPosition" for a substitute and
    "formationPlace" for any other player; otherwise the call aborts with
    the [KeyError] of the missing key. *)
Theorem _parse_team_succeeds_iff (team_data : ContestantData.t)
    (lineup_data : LineupData.t) :
  ((exists team, _parse_team team_data lineup_data = Return team) <->
   LineupData.formationUsed lineup_data ∈ formations_str.*1 /\
   Forall well_keyed (LineupData.player lineup_data)) /\
  (forall err,
      _parse_team team_data lineup_data = Raise err ->
      exists key,
        err = KeyError (KStr key) /\
        (key = LineupData.formationUsed lineup_data \/
         key = "formationPlace" \/ key = "subPosition")).
Proof.
  unfold _parse_team. split; [split|].
  - intros [team Hteam]. inv_bind Hteam. inv_bind Hteam.
    split; [apply getitem_str_Return; by eexists|].
    apply add_players_Return in Ha0 as (parsed & _ & Hall).
    eapply Forall2_Forall_l; [exact Hall|].
    apply Forall_forall. intros pd _ player Hplayer.
    apply parse_player_well_keyed. by eexists.
  - intros [Hkey Hall].
    apply getitem_str_Return in Hkey as [formation ->].
    destruct (add_players_total _ [] Hall) as [players' ->].
    by eexists.
  - intros err Hteam.
    apply bind_Raise_inv in Hteam as [Hteam | (? & _ & Hteam)].
    { apply getitem_str_Raise in Hteam as ->. eauto. }
    apply bind_Raise_inv in Hteam as [Hteam | (? & _ & Hteam)]; [|discriminate].
    apply add_players_Raise in Hteam as [[-> | ->] _]; eauto.
Qed.

(** X25: what [_parse_team] returns.  The team has the contestant's id
    and name and the ground of its position (HOME for "home", AWAY for
    anything else), and one player for each entry of the line-up, in the
    order of the line-up: a player starts exactly when its position is not
    "Substitute"; a starter has the formation place as position id and the
    position as position name, a substitute has no position id and the sub
    position as name. *)
Theorem _parse_team_players (team_data : ContestantData.t)
    (lineup_data : LineupData.t) (team : Lineup.Team) :
  _parse_team team_data lineup_data = Return team ->
  Lineup.team_id team = ContestantData.id team_data /\
  Lineup.name team = ContestantData.name team_data /\
  (Lineup.ground team = HOME <-> ContestantData.position team_data = "home") /\
  Forall2 player_of (LineupData.player lineup_data) (Lineup.players team).
Proof.
  unfold _parse_team. intros Hteam.
  inv_bind Hteam. inv_bind Hteam. injection Hteam as <-. simpl.
  split; [reflexivity|]. split; [reflexivity|]. split.
  - destruct (String.eqb_spec (ContestantData.position team_data) "home");
      split; try done.
  - apply add_players_Return in Ha0 as (parsed & -> & Hall). simpl.
    eapply Forall2_impl; [exact Hall|].
    intros pd player. apply parse_player_Return.
Qed.

Lemma _parse_team_length (team_data : ContestantData.t)
    (lineup_data : LineupData.t) (team : Lineup.Team) :
  _parse_team team_data lineup_data = Return team ->
  length (Lineup.players team) = length (LineupData.player lineup_data).
Proof.
  unfold _parse_team. intros Hteam.
  inv_bind Hteam. inv_bind Hteam. injection Hteam as <-. simpl.
  apply add_players_Return in Ha0 as (parsed & -> & Hall). simpl.
  symmetry. by eapply Forall2_length.
Qed.

(** *** The loop over the contestants *)

Lemma contestant_body_Return (metadata : Metadata.t) st (idx : nat) contestant st' :
  contestant_body metadata st (idx, contestant) = Return st' ->
  exists g lineup_data team,
    ContestantData.position contestant = side_name g /\
    Metadata.lineUp metadata !! idx = Some lineup_data /\
    _parse_team contestant lineup_data = Return team /\
    side_team g st' = Some team /\
    side_score g st' = Some (Metadata.ft_home metadata) /\
    side_team (other g) st' = side_team (other g) st /\
    side_score (other g) st' = side_score (other g) st.
Proof.
  unfold contestant_body, lineup_at. intros Hbody.
  destruct (String.eqb_spec (ContestantData.position contestant) "home") as [Hh|Nh].
  { destruct (Metadata.lineUp metadata !! idx) as [lineup_data|]; [|discriminate].
    cbn [mbind Exc_bind] in Hbody. inv_bind Hbody. injection Hbody as <-.
    exists HOME, lineup_data, a. auto 10. }
  destruct (String.eqb_spec (ContestantData.position contestant) "away") as [Ha|Na];
    [|discriminate].
  destruct (Metadata.lineUp metadata !! idx) as [lineup_data|]; [|discriminate].
  cbn [mbind Exc_bind] in Hbody. inv_bind Hbody. injection Hbody as <-.
  exists AWAY, lineup_data, a. auto 10.
Qed.

Lemma side_name_other g : side_name (other g) <> side_name g.
Proof. destruct g; discriminate. Qed.

Lemma side_name_inj g g' : side_name g = side_name g' -> g = g'.
Proof. destruct g, g'; try reflexivity; discriminate. Qed.

Lemma other_or g g' : g' = g \/ g' = other g.
Proof. destruct g, g'; auto. Qed.

(** What the loop leaves for the side [g]: nothing new when no contestant
    is of that side, and otherwise the team of the last one, with the
    home entry of the full-time score. *)
Lemma for_each_contestants (metadata : Metadata.t) g contestants :
  forall (n : nat) st st',
  for_each (contestant_body metadata) st (enumerate n contestants) = Return st' ->
  Forall (fun contestant =>
            ContestantData.position contestant = "home" \/
            ContestantData.position contestant = "away") contestants /\
  ((Forall (fun contestant => ContestantData.position contestant <> side_name g)
           contestants /\
    side_team g st' = side_team g st /\ side_score g st' = side_score g st) \/
   (exists (k : nat) contestant lineup_data team,
       contestants !! k = Some contestant /\
       ContestantData.position contestant = side_name g /\
       (forall (k' : nat) contestant',
           (k < k')%nat -> contestants !! k' = Some contestant' ->
           ContestantData.position contestant' <> side_name g) /\
       Metadata.lineUp metadata !! (n + k)%nat = Some lineup_data /\
       _parse_team contestant lineup_data = Return team /\
       side_team g st' = Some team /\
       side_score g st' = Some (Metadata.ft_home metadata))).
Proof.
  induction contestants as [|c rest IH]; intros n st st' Hrun; simpl in Hrun.
  - injection Hrun as <-. split; [constructor|]. left. split; [constructor | auto].
  - inv_bind Hrun. rename a into st1, Ha into Hbody.
    destruct (IH _ _ _ Hrun) as (Hsides & Hrest).
    apply contestant_body_Return in Hbody
      as (g0 & l & t & Hpos & Hl & Ht & Hteam & Hscore & Hoteam & Hoscore).
    split.
    { constructor; [destruct g0; auto | exact Hsides]. }
    destruct Hrest as [(Hnone & Hteam' & Hscore') |
                       (k & c' & l' & t' & Hk & Hpos' & Hlast & Hl' & Ht' & Hteam' & Hscore')].
    + destruct (other_or g0 g) as [-> | ->].
      * right. exists 0%nat, c, l, t. rewrite Nat.add_0_r.
        repeat split; try assumption; try congruence.
        intros [|k'] c'' Hlt Hk'; [lia|]. simpl in Hk'.
        exact (proj1 (Forall_lookup _ _) Hnone _ _ Hk').
      * left. split; [|split; congruence].
        constructor; [|exact Hnone]. rewrite Hpos.
        intros Heq. by apply (side_name_other g0).
    + right. exists (S k), c', l', t'.
      rewrite Nat.add_succ_r. repeat split; try assumption.
      intros [|k'] c'' Hlt Hk''; [lia|]. simpl in Hk''.
      apply (Hlast k' c''); [lia | exact Hk''].
Qed.

Lemma contestant_body_total (metadata : Metadata.t) st (idx : nat) contestant
    lineup_data team :
  ContestantData.position contestant = "home" \/
  ContestantData.position contestant = "away" ->
  Metadata.lineUp metadata !! idx = Some lineup_data ->
  _parse_team contestant lineup_data = Return team ->
  exists st', contestant_body metadata st (idx, contestant) = Return st'.
Proof.
  intros Hside Hl Ht. unfold contestant_body, lineup_at. rewrite Hl.
  cbn [mbind Exc_bind]. rewrite Ht. cbn [mbind Exc_bind].
  destruct Hside as [-> | ->]; simpl; eauto.
Qed.

(** The loop over the contestants ends normally when every contestant is
    of a side and is parsed with its entry of the line-up. *)
Lemma for_each_contestants_total (metadata : Metadata.t) contestants :
  forall (n : nat) st,
  Forall (fun contestant =>
            ContestantData.position contestant = "home" \/
            ContestantData.position contestant = "away") contestants ->
  (forall (k : nat) contestant,
      contestants !! k = Some contestant ->
      exists lineup_data team,
        Metadata.lineUp metadata !! (n + k)%nat = Some lineup_data /\
        _parse_team contestant lineup_data = Return team) ->
  exists st',
    for_each (contestant_body metadata) st (enumerate n contestants) = Return st'.
Proof.
  induction contestants as [|c rest IH]; intros n st Hsides Hparsed; [by eexists|].
  apply Forall_cons in Hsides as [Hside Hsides].
  destruct (Hparsed 0%nat c eq_refl) as (l & t & Hl & Ht).
  rewrite Nat.add_0_r in Hl.
  destruct (contestant_body_total metadata st n c l t Hside Hl Ht) as [st1 Hst1].
  cbn [enumerate for_each]. rewrite Hst1. cbn [mbind Exc_bind].
  apply IH; [exact Hsides|].
  intros k c' Hk. rewrite Nat.add_succ_l, <- Nat.add_succ_r. by apply (Hparsed (S k)).
Qed.

(** When the loop ends normally, every contestant was parsed with its
    entry of the line-up. *)
Lemma for_each_contestants_parsed (metadata : Metadata.t) contestants :
  forall (n : nat) st st',
  for_each (contestant_body metadata) st (enumerate n contestants) = Return st' ->
  forall (k : nat) contestant,
    contestants !! k = Some contestant ->
    exists lineup_data team,
      Metadata.lineUp metadata !! (n + k)%nat = Some lineup_data /\
      _parse_team contestant lineup_data = Return team.
Proof.
  induction contestants as [|c rest IH]; intros n st st' Hrun k c' Hk;
    [discriminate|].
  simpl in Hrun. inv_bind Hrun.
  destruct k as [|k]; simpl in Hk.
  - injection Hk as <-. rewrite Nat.add_0_r.
    apply contestant_body_Return in Ha as (g & l & t & _ & Hl & Ht & _). eauto.
  - rewrite Nat.add_succ_r, <- Nat.add_succ_l. by eapply IH.
Qed.

Section Deserializer.

Context `{Collaborators}.

(** The ways [deserialize] returns a value. *)
Lemma deserialize_inr (metadata : Metadata.t) eventdata score dataset :
  deserialize metadata eventdata = inr (score, dataset) ->
  exists st home_team away_team,
    for_each (contestant_body metadata) initial_locals
      (enumerate 0 (Metadata.contestant metadata)) = Return st /\
    StatsPerformMetadata.home_team st = Some home_team /\
    StatsPerformMetadata.away_team st = Some away_team /\
    score = {| Score.home := home_score st; Score.away := away_score st |} /\
    StatsPerform.deserialize (to_domain home_team) (to_domain away_team)
      (Metadata.period metadata) eventdata = Return dataset.
Proof.
  unfold deserialize. intros Hd.
  destruct (for_each _ _ _) as [st|] eqn:Hrun; [|discriminate].
  destruct (StatsPerformMetadata.home_team st) as [home_team|] eqn:Hhome;
    [|discriminate].
  destruct (StatsPerformMetadata.away_team st) as [away_team|] eqn:Haway;
    [|discriminate].
  destruct (StatsPerform.deserialize _ _ _ _) as [ds|] eqn:Hds; [|discriminate].
  injection Hd as <- <-. exists st, home_team, away_team. auto.
Qed.

(** X26: the away score is the home score.  In every dataset that
    [deserialize] returns, both entries of the score are the "home" entry
    of the full-time score of the MA1 document: the branch of the away
    side reads ["ft"]["home"] too, and the "away" entry is never read. *)
Theorem away_score_is_home_score (metadata : Metadata.t) eventdata score dataset :
  deserialize metadata eventdata = inr (score, dataset) ->
  Score.home score = Some (Metadata.ft_home metadata) /\
  Score.away score = Some (Metadata.ft_home metadata).
Proof.
  intros (st & h & a & Hrun & Hhome & Haway & -> & _)%deserialize_inr. simpl.
  split.
  - destruct (for_each_contestants metadata HOME _ _ _ _ Hrun)
      as (_ & [(_ & Hteam & _) | (k & c & l & t & _ & _ & _ & _ & _ & _ & Hscore)]).
    + simpl in Hteam. congruence.
    + exact Hscore.
  - destruct (for_each_contestants metadata AWAY _ _ _ _ Hrun)
      as (_ & [(_ & Hteam & _) | (k & c & l & t & _ & _ & _ & _ & _ & _ & Hscore)]).
    + simpl in Hteam. congruence.
    + exact Hscore.
Qed.

Lemma deserialize_teams home away period_data event dataset :
  StatsPerform.deserialize home away period_data event = Return dataset ->
  teams dataset = [home; away] /\ players home <> [] /\ players away <> [].
Proof.
  unfold StatsPerform.deserialize. intros Hd.
  destruct (length (players home) =? 0)%nat eqn:Hh; [discriminate|].
  destruct (length (players away) =? 0)%nat eqn:Ha; [discriminate|].
  simpl in Hd. inv_bind Hd. inv_bind Hd. injection Hd as <-. simpl.
  split; [reflexivity|].
  split; intros Hnil; rewrite Hnil in *; discriminate.
Qed.

(** X27: which contestant becomes which team.  When [deserialize]
    returns, every contestant of the MA1 document is "home" or "away";
    the home team of the dataset is parsed from the last "home"
    contestant and the entry of "lineUp" at the same position, the away
    team likewise, so a later contestant of a side replaces an earlier
    one; and both line-ups have a player. *)
Theorem teams_by_side (metadata : Metadata.t) eventdata score dataset :
  deserialize metadata eventdata = inr (score, dataset) ->
  Forall (fun contestant =>
            ContestantData.position contestant = "home" \/
            ContestantData.position contestant = "away")
         (Metadata.contestant metadata) /\
  exists home_team away_team,
    teams dataset = [to_domain home_team; to_domain away_team] /\
    chosen metadata HOME home_team /\
    chosen metadata AWAY away_team /\
    Lineup.players home_team <> [] /\
    Lineup.players away_team <> [].
Proof.
  intros (st & h & a & Hrun & Hhome & Haway & _ & Hds)%deserialize_inr.
  apply deserialize_teams in Hds as (Hteams & Hh & Ha).
  destruct (for_each_contestants metadata HOME _ _ _ _ Hrun) as (Hsides & Hhome').
  destruct (for_each_contestants metadata AWAY _ _ _ _ Hrun) as (_ & Haway').
  split; [exact Hsides|].
  exists h, a. split; [exact Hteams|].
  assert (forall g t,
             side_team g st = Some t ->
             (Forall (fun c => ContestantData.position c <> side_name g)
                     (Metadata.contestant metadata) /\
              side_team g st = side_team g initial_locals /\
              side_score g st = side_score g initial_locals) \/
             (exists (k : nat) c l t',
                 Metadata.contestant metadata !! k = Some c /\
                 ContestantData.position c = side_name g /\
                 (forall (k' : nat) c',
                     (k < k')%nat -> Metadata.contestant metadata !! k' = Some c' ->
                     ContestantData.position c' <> side_name g) /\
                 Metadata.lineUp metadata !! (0 + k)%nat = Some l /\
                 _parse_team c l = Return t' /\
                 side_team g st = Some t' /\
                 side_score g st = Some (Metadata.ft_home metadata)) ->
             chosen metadata g t) as Hchosen.
  { intros g t Ht [(_ & Hinit & _) | (k & c & l & t' & Hk & Hpos & Hlast & Hl & Hparse & Ht' & _)].
    - rewrite Ht in Hinit. destruct g; discriminate.
    - exists k, c, l. repeat split; try assumption. congruence. }
  split; [by apply Hchosen|]. split; [by apply Hchosen|].
  split; intros Hnil.
  - apply Hh. unfold to_domain. simpl. by rewrite Hnil.
  - apply Ha. unfold to_domain. simpl. by rewrite Hnil.
Qed.

(** X28: when [deserialize] ends with an [UnboundLocalError].  It does
    exactly when every contestant is parsed with its entry of the line-up
    and the contestants are all of one side: for [home_team] when all of
    them are "away" (or there is none), for [away_team] when all are
    "home" and there is at least one.  The loop over the contestants never
    binds the local of a side that no contestant has, so a document that
    lacks a side and is well formed otherwise ends with this error and
    not with a [DeserializationError]. *)
Theorem missing_side (metadata : Metadata.t) eventdata name :
  deserialize metadata eventdata = inl (UnboundLocalError name) <->
  parsed metadata /\
  ((name = "home_team" /\
    Forall (fun contestant => ContestantData.position contestant = "away")
           (Metadata.contestant metadata)) \/
   (name = "away_team" /\
    Forall (fun contestant => ContestantData.position contestant = "home")
           (Metadata.contestant metadata) /\
    Metadata.contestant metadata <> [])).
Proof.
  unfold deserialize. split.
  - intros Hd.
    destruct (for_each _ _ _) as [st|] eqn:Hrun; [|discriminate].
    split.
    { intros k c Hk.
      exact (for_each_contestants_parsed metadata _ _ _ _ Hrun k c Hk). }
    destruct (for_each_contestants metadata HOME _ _ _ _ Hrun) as (Hsides & Hhome').
    destruct (for_each_contestants metadata AWAY _ _ _ _ Hrun) as (_ & Haway').
    destruct (StatsPerformMetadata.home_team st) as [home_team|] eqn:Hhome.
    + destruct (StatsPerformMetadata.away_team st) as [away_team|] eqn:Haway.
      { destruct (StatsPerform.deserialize _ _ _ _); discriminate. }
      injection Hd as <-. right. split; [reflexivity|].
      destruct Haway' as [(Hnone & _) | (k & c & l & t & _ & _ & _ & _ & _ & Ht & _)];
        [|simpl in Ht; congruence].
      split.
      * eapply Forall_impl; [apply Forall_and; split; [exact Hsides | exact Hnone]|].
        simpl. intros c [[?|?] ?]; [assumption | contradiction].
      * destruct Hhome' as [(_ & Ht & _) | (k & c & l & t & Hk & _)].
        -- simpl in Ht. congruence.
        -- intros Hnil. rewrite Hnil in Hk. discriminate.
    + injection Hd as <-. left. split; [reflexivity|].
      destruct Hhome' as [(Hnone & _) | (k & c & l & t & _ & _ & _ & _ & _ & Ht & _)];
        [|simpl in Ht; congruence].
      eapply Forall_impl; [apply Forall_and; split; [exact Hsides | exact Hnone]|].
      simpl. intros c [[?|?] ?]; [contradiction | assumption].
  - intros (Hparsed & Hcase).
    destruct (for_each_contestants_total metadata (Metadata.contestant metadata)
                0%nat initial_locals) as [st Hrun].
    { destruct Hcase as [(_ & Hall) | (_ & Hall & _)];
        (eapply Forall_impl; [exact Hall|]); simpl; auto. }
    { exact Hparsed. }
    rewrite Hrun.
    destruct (for_each_contestants metadata HOME _ _ _ _ Hrun) as (_ & Hhome').
    destruct (for_each_contestants metadata AWAY _ _ _ _ Hrun) as (_ & Haway').
    destruct Hcase as [(-> & Hall) | (-> & Hall & Hne)].
    + destruct Hhome' as [(_ & Ht & _) | (k & c & l & t & Hk & Hpos & _)].
      * simpl in Ht. by rewrite Ht.
      * pose proof (proj1 (Forall_lookup _ _) Hall _ _ Hk) as Haway.
        simpl in Haway, Hpos. congruence.
    + destruct Haway' as [(_ & Ht & _) | (k & c & l & t & Hk & Hpos & _)].
      * simpl in Ht. rewrite Ht.
        destruct Hhome' as [(Hnone & _) | (k & c & l & t & _ & _ & _ & _ & _ & Hh & _)].
        -- exfalso. destruct (Metadata.contestant metadata) as [|c cs] eqn:Hcs;
             [by apply Hne|].
           apply Forall_cons in Hall as [Hc _]. apply Forall_cons in Hnone as [Nc _].
           by apply Nc.
        -- simpl in Hh. by rewrite Hh.
      * pose proof (proj1 (Forall_lookup _ _) Hall _ _ Hk) as Hhome.
        simpl in Hhome, Hpos. congruence.
Qed.

End Deserializer.

Section Runs.

Import Samples Feeds Documents.

#[local] Existing Instance Samples.statsperform.

(** The home team of the sample document: a keeper who starts and a
    substitute. *)
Lemma _parse_team_players_witness :
  exists team,
    _parse_team contestant_home lineup_home = Return team /\
    Lineup.team_id team = "t-home" /\
    Forall2 player_of (LineupData.player lineup_home) (Lineup.players team).
Proof.
  destruct (_parse_team contestant_home lineup_home) as [team|] eqn:Hteam;
    [|vm_compute in Hteam; discriminate].
  destruct (_parse_team_players contestant_home lineup_home team Hteam)
    as (Hid & _ & _ & Hplayers).
  exists team. auto.
Defined.

(** The sample match ended 2-1; the dataset has 2 as away score. *)
Lemma away_score_is_home_score_witness :
  Metadata.ft_away metadata = 1 /\
  exists score dataset,
    deserialize metadata feed_one_pass = inr (score, dataset) /\
    Score.away score = Some 2.
Proof.
  split; [reflexivity|].
  destruct (deserialize metadata feed_one_pass) as [failure|[score dataset]] eqn:Hd;
    [vm_compute in Hd; discriminate|].
  exists score, dataset. split; [reflexivity|].
  exact (proj2 (away_score_is_home_score metadata feed_one_pass score dataset Hd)).
Defined.

(** The two teams of the sample document. *)
Lemma teams_by_side_witness :
  exists score dataset home_team away_team,
    deserialize metadata feed_one_pass = inr (score, dataset) /\
    teams dataset = [to_domain home_team; to_domain away_team] /\
    chosen metadata HOME home_team /\
    chosen metadata AWAY away_team.
Proof.
  destruct (deserialize metadata feed_one_pass) as [failure|[score dataset]] eqn:Hd;
    [vm_compute in Hd; discriminate|].
  destruct (teams_by_side metadata feed_one_pass score dataset Hd)
    as (_ & h & a & Hteams & Hhome & Haway & _).
  exists score, dataset, h, a. auto.
Defined.

(** A document that lists the away side only ends with the
    [UnboundLocalError] of [home_team]. *)
Lemma missing_side_witness :
  deserialize metadata_away_only feed_one_pass = inl (UnboundLocalError "home_team").
Proof.
  apply (proj2 (missing_side metadata_away_only feed_one_pass "home_team")).
  split.
  - intros [|[|k]] c Hk; simpl in Hk; try discriminate.
    injection Hk as <-. do 2 eexists. split; reflexivity.
  - left. split; [reflexivity|]. repeat constructor.
Defined.

End Runs.

End StatsPerformMetadataFacts.

(** ** UEFA: the line-up document *)

Module UefaLineupFacts.

Import Uefa UefaLineup UefaTerms UefaInvariants LoopFacts.

Lemma to_domain_players (team_elm : TeamElm.t) (g : Ground) :
  players (to_domain (_parse_team team_elm g)) = [] <->
  TeamElm.field team_elm = [] /\ TeamElm.bench team_elm = [].
Proof.
  unfold to_domain, _parse_team. simpl.
  rewrite fmap_app, <- !list_fmap_compose.
  destruct (TeamElm.field team_elm), (TeamElm.bench team_elm); simpl;
    split; try done; intros [? ?]; discriminate.
Qed.

Lemma length_zero {A} (l : list A) : (length l =? 0)%nat = true <-> l = [].
Proof. destruct l; simpl; split; try done. Qed.

Section Deserializer.

Context `{Collaborators}.

(** A [DeserializationError] of the event loop names a team. *)
Lemma for_each_DeserializationError home away rs st msg :
  for_each (loop_body home away) st rs = Raise (DeserializationError msg) ->
  exists tid, msg = ("Unknown team_id " ++ tid)%string.
Proof.
  intros Hrun.
  apply for_each_Raise in Hrun as (before & r & after & st' & _ & _ & Hr).
  apply loop_body_Raise in Hr
    as (s & _ & [[text Habs] | [Hphase | (n & _ & _ & [[_ Habs] | [Hactor | [Habs _]]])]]);
    try discriminate.
  - apply phase_to_period_Raise in Hphase as [Habs _]. discriminate.
  - apply resolve_actor_Raise in Hactor as (actor & tid & _ & _ & _ & _ & [= ->]).
    by eexists.
Qed.

(** X29: which line-ups are incomplete.  [deserialize] raises
    [DeserializationError("LineUp incomplete")] exactly when the home
    team or the away team has neither a field player nor a bench player:
    the check counts the two lists together, so a team with bench players
    only is accepted, and no failure of the event loop carries this
    message. *)
Theorem lineup_incomplete_iff (lineup_data : LineupData.t)
    (event_data : list EventElm.t) :
  deserialize lineup_data event_data =
    Raise (DeserializationError "LineUp incomplete") <->
  (TeamElm.field (LineupData.homeTeam lineup_data) = [] /\
   TeamElm.bench (LineupData.homeTeam lineup_data) = []) \/
  (TeamElm.field (LineupData.awayTeam lineup_data) = [] /\
   TeamElm.bench (LineupData.awayTeam lineup_data) = []).
Proof.
  unfold deserialize, Uefa.deserialize.
  rewrite <- (to_domain_players (LineupData.homeTeam lineup_data) HOME).
  rewrite <- (to_domain_players (LineupData.awayTeam lineup_data) AWAY).
  rewrite <- !length_zero.
  destruct (length (players (to_domain (_parse_team (LineupData.homeTeam lineup_data) HOME)))
            =? 0)%nat;
    [simpl; split; auto|].
  destruct (length (players (to_domain (_parse_team (LineupData.awayTeam lineup_data) AWAY)))
            =? 0)%nat;
    [simpl; split; auto|].
  simpl. split; [|intros [?|?]; discriminate].
  intros Hd. exfalso.
  apply bind_Raise_inv in Hd as [Hd | (? & _ & Hd)]; [|discriminate].
  apply for_each_DeserializationError in Hd as [tid Htid]. discriminate.
Qed.

End Deserializer.

End UefaLineupFacts.
